(** * ITWorld news crawler: title normalisation, link matching, deduplication
      and aggregation

    A shallow embedding of [src/src/collectors/crawler/news_crawler.py]
    (class [ITWorldNewsCrawler]) and the properties its specification states
    about it (C1 to C10), followed by further properties of the code (X1 and
    the following): the retries of [_make_request], the link index, the
    Matcher, the records of the extractor, the results of
    [crawl_main_page_news] and [crawl_category_news], the content
    collection, and the aggregates.

    Conventions of the embedding.
    - A Python [str] is a list of Unicode code points ([N]); [len], slicing
      and comparison work on code points, as in Python.
    - A [dict] whose iteration order is observable is an association list in
      insertion order; the [set] of seen titles is a [gset].
    - A BeautifulSoup tree is the inductive type [node]; [find], [find_all]
      and [get_text] are written out.  CSS selection ([select]), the regular
      expressions over card text and [urljoin] belong to libraries outside
      the repository and are fields of the class [Library].
    - Unicode tables outside ASCII (which code points are whitespace or
      alphanumeric, the lower-case mapping) are fields of the class
      [Unicode]; the ASCII range is written out.
    - The network, the clock and [time.sleep] are effects: a computation
      threads the trace of effects performed so far, and the environment
      answers as a function of that trace (class [Outside]).  Python
      exceptions are the left summand of the result.
    - [print] calls are diagnostics and are left out.
    - The wording of the interpreter's own exceptions is a field of the
      class [Runtime].
    - [parse_html] gives a tree for every text: an exception of the parser
      itself is not modelled.  In the code it is caught by the [try] around
      it and ends in the same error dictionaries as the exceptions that are
      modelled.
    - The selector cascades of [get_article_content] (lines 468-597) are
      kept as one function of the parsed page, [page_fields]: the
      statements below take the fields of an article as the call returns
      them and say nothing on how they are read from the page. *)

From Stdlib Require Import Strings.String Strings.Ascii.
From Stdlib Require Import NArith ZArith List Lia Permutation Sorted.
From stdpp Require Import base list gmap.

(** ** Python strings *)

Definition char := N.
Definition str := list char.

Fixpoint bytes_of (s : String.string) : list N :=
  match s with
  | String.EmptyString => []
  | String.String a r => Ascii.N_of_ascii a :: bytes_of r
  end.

(** UTF-8 decoding, so that literals of the source can be written as they
    are there. *)
Fixpoint utf8 (bs : list N) : str :=
  match bs with
  | [] => []
  | b0 :: r0 =>
    if (b0 <? 128)%N then b0 :: utf8 r0
    else if (b0 <? 224)%N then
      match r0 with
      | b1 :: r1 => ((b0 - 192) * 64 + (b1 - 128))%N :: utf8 r1
      | _ => []
      end
    else if (b0 <? 240)%N then
      match r0 with
      | b1 :: b2 :: r2 =>
        ((b0 - 224) * 4096 + (b1 - 128) * 64 + (b2 - 128))%N :: utf8 r2
      | _ => []
      end
    else
      match r0 with
      | b1 :: b2 :: b3 :: r3 =>
        ((b0 - 240) * 262144 + (b1 - 128) * 4096 + (b2 - 128) * 64 + (b3 - 128))%N
          :: utf8 r3
      | _ => []
      end
  end.

Definition py (s : String.string) : str := utf8 (bytes_of s).
Arguments py s%_string.

(** Truth value of a string and of an optional string ([None] and [''] are
    both false). *)
Definition truthy (s : str) : bool :=
  match s with [] => false | _ => true end.

Definition truthy_opt (o : option str) : bool :=
  match o with Some s => truthy s | None => false end.

Definition str_eqb (a b : str) : bool := bool_decide (a = b).

(** *** Character classes *)

(** Tables of the Unicode database for code points from 128 on.
    [uni_lower pre c post] is what [str.lower] writes for [c] standing
    between [pre] and [post] (the mapping of capital sigma looks at its
    neighbours). *)
Class Unicode := {
  uni_isspace : char -> bool;
  uni_isalnum : char -> bool;
  uni_lower : str -> char -> str -> str
}.

Section Strings.
Context {U : Unicode}.

Definition between (lo hi c : N) : bool := ((lo <=? c) && (c <=? hi))%N.

(** [str.isspace] on one code point, also the class [\s] of [re]. *)
Definition isspace (c : char) : bool :=
  if (c <? 128)%N then between 9 13 c || between 28 32 c
  else uni_isspace c.

Definition isalnum (c : char) : bool :=
  if (c <? 128)%N then between 48 57 c || between 65 90 c || between 97 122 c
  else uni_isalnum c.

(** The class [\w] of [re] on [str] patterns: alphanumeric or underscore. *)
Definition re_word (c : char) : bool := isalnum c || (c =? 95)%N.

(** The range [가-힣]. *)
Definition hangul (c : char) : bool := between 44032 55203 c.

Definition lower_cp (pre : str) (c : char) (post : str) : str :=
  if (c <? 128)%N then [if between 65 90 c then (c + 32)%N else c]
  else uni_lower pre c post.

Fixpoint lower_from (pre s : str) : str :=
  match s with
  | [] => []
  | c :: post => lower_cp pre c post ++ lower_from (pre ++ [c]) post
  end.

(** [str.lower]. *)
Definition lower (s : str) : str := lower_from [] s.

(** [re.sub(r'[^\w\s가-힣]', '', s)]: the characters outside the class are
    deleted. *)
Definition kept (c : char) : bool := re_word c || isspace c || hangul c.

Definition sub_unwanted (s : str) : str := List.filter kept s.

(** [re.sub(r'\s+', ' ', s)]: each maximal run of whitespace becomes one
    space; [in_run] tells that the previous character was whitespace. *)
Fixpoint sub_spaces (in_run : bool) (s : str) : str :=
  match s with
  | [] => []
  | c :: r =>
    if isspace c then
      if in_run then sub_spaces true r else 32%N :: sub_spaces true r
    else c :: sub_spaces false r
  end.

Fixpoint lstrip (s : str) : str :=
  match s with
  | [] => []
  | c :: r => if isspace c then lstrip r else s
  end.

Definition rstrip (s : str) : str := rev (lstrip (rev s)).

(** [str.strip()]. *)
Definition strip (s : str) : str := rstrip (lstrip s).

(** [_clean_title_for_matching], before the final slice. *)
Definition clean_untruncated (title : str) : str :=
  let clean := sub_unwanted (lower title) in
  strip (sub_spaces false clean).

Definition _clean_title_for_matching (title : str) : str :=
  take 50 (clean_untruncated title).

(** [str.split()]: the maximal runs of non-whitespace, [w] being the word
    read so far. *)
Fixpoint split_from (w s : str) : list str :=
  match s with
  | [] => if truthy w then [w] else []
  | c :: r =>
    if isspace c then
      if truthy w then w :: split_from [] r else split_from [] r
    else split_from (w ++ [c]) r
  end.

Definition split (s : str) : list str := split_from [] s.

Fixpoint startswith (s w : str) : bool :=
  match w, s with
  | [], _ => true
  | _ :: _, [] => false
  | a :: w', b :: s' => (a =? b)%N && startswith s' w'
  end.

(** [w in s] on strings: [w] occurs in [s] as a substring. *)
Fixpoint contains (s w : str) : bool :=
  startswith s w ||
  match s with
  | [] => false
  | _ :: r => contains r w
  end.

End Strings.

(** ** Dictionaries, in insertion order *)

Definition dict (V : Type) := list (str * V).

Definition dict_get {V} (d : dict V) (k : str) : option V :=
  option_map snd (List.find (fun kv => str_eqb k (fst kv)) d).

(** [d[k] = v]: an existing key keeps its place. *)
Fixpoint dict_set {V} (d : dict V) (k : str) (v : V) : dict V :=
  match d with
  | [] => [(k, v)]
  | (k', v') :: r =>
    if str_eqb k k' then (k, v) :: r else (k', v') :: dict_set r k v
  end.

Definition keys {V} (d : dict V) : list str := map fst d.

(** ** The Matcher (lines 186-201 of [_extract_news_from_card]) *)

Section Matcher.
Context {U : Unicode}.

(** The first loop: the URL stored under the key equal to the title. *)
Definition exact_match (clean_title : str) (article_links : dict str)
  : option str :=
  option_map snd (List.find (fun kv => str_eqb clean_title (fst kv)) article_links).

(** The test of the second loop: every one of the first three words occurs
    in the indexed title. *)
Definition words_in (title_words : list str) (link_title : str) : bool :=
  forallb (fun word => contains link_title word) (take 3 title_words).

Definition partial_match (clean_title : str) (article_links : dict str)
  : option str :=
  let title_words := split clean_title in
  if 3 <=? length title_words then
    option_map snd (List.find (fun kv => words_in title_words (fst kv)) article_links)
  else None.

(** The value of [matched_url] after both loops. *)
Definition match_url (clean_title : str) (article_links : dict str)
  : option str :=
  let matched_url := exact_match clean_title article_links in
  if truthy_opt matched_url then matched_url
  else
    match partial_match clean_title article_links with
    | Some url => Some url
    | None => matched_url
    end.

(** The [url] key of the record: set only when [matched_url] is true. *)
Definition matched (clean_title : str) (article_links : dict str)
  : option str :=
  let matched_url := match_url clean_title article_links in
  if truthy_opt matched_url then matched_url else None.

End Matcher.

(** ** Parsed documents *)

#[warnings="-register-all"]
Inductive node :=
| Text (s : str)
| Elem (name : str) (attrs : dict str) (children : list node).

(** The nodes below [n], in document order. *)
Fixpoint descendants (n : node) : list node :=
  match n with
  | Text _ => []
  | Elem _ _ cs => flat_map (fun c => c :: descendants c) cs
  end.

Definition is_tag (name : str) (n : node) : bool :=
  match n with
  | Elem nm _ _ => str_eqb nm name
  | Text _ => false
  end.

(** [tag.get(key)]. *)
Definition attr (key : str) (n : node) : option str :=
  match n with
  | Elem _ attrs _ => dict_get attrs key
  | Text _ => None
  end.

Section Soup.
Context {U : Unicode}.

(** The value of a [class] attribute is the list of its words. *)
Definition classes (n : node) : list str :=
  match attr (py "class") n with
  | Some v => split v
  | None => []
  end.

(** [class_='c']. *)
Definition has_class (c : str) (n : node) : bool :=
  existsb (str_eqb c) (classes n).

Definition find_all (p : node -> bool) (n : node) : list node :=
  List.filter p (descendants n).

Definition find (p : node -> bool) (n : node) : option node :=
  head (find_all p n).

(** The strings of a subtree, in document order. *)
Definition strings (n : node) : list str :=
  match n with
  | Text s => [s]
  | Elem _ _ _ =>
    flat_map (fun d => match d with Text s => [s] | Elem _ _ _ => [] end)
             (descendants n)
  end.

(** [get_text()] and [get_text(strip=True)]: the latter strips every string
    and drops those left empty. *)
Definition get_text (n : node) : str := concat (strings n).

Definition get_text_strip (n : node) : str :=
  concat (List.filter truthy (map strip (strings n))).

End Soup.

(** ** Records *)

(** An article record: the dictionary [news_item].  [title], [tags],
    [crawled_at] and [source] are set on every record the extractor returns;
    the other keys may be missing. *)
Record news_item := {
  title : str;
  url : option str;
  content_type : option str;
  description : option str;
  tags : list str;
  publish_date : option str;
  read_time : option str;
  author : option str;
  image_url : option str;
  image_alt : option str;
  crawled_at : str;
  source : str;
  full_content : option str;
  content_length : option nat
}.

(** What [get_article_content] returns: the error dictionary of
    [_create_error_result], or the article's fields with [success] true. *)
Record article_fields := {
  a_title : str;
  a_content : str;
  a_publish_date : str;
  a_author : str;
  a_tags : list str
}.

Inductive article_content :=
| ArticleError (error timestamp : str)
| Article (article_url : str) (fields : article_fields) (crawled : str).

(** The aggregate [_generate_summary] returns; [None] is the empty
    dictionary. *)
Record summary := {
  total_articles : nat;
  date_distribution : dict nat;
  content_type_distribution : dict nat;
  latest_date : str;
  has_images : nat
}.

(** The result of a crawl: [_create_error_result]'s dictionary, or the
    dictionary built at the end of [crawl_main_page_news]. *)
Record crawl_result := {
  success : bool;
  error : option str;
  timestamp : str;
  news_list : list news_item;
  result_source : option str;
  result_url : option str;
  total_news : option nat;
  categories : option (dict nat);
  result_summary : option (option summary);
  content_included : option bool
}.

(** ** Libraries outside the repository *)

(** [select card sel] is [card.select(sel)] of BeautifulSoup; the three
    searches are [re.search] with the patterns of the source, returning the
    groups of the first match; [urljoin] may raise [ValueError] (left, with
    its message); [parse_html] is [BeautifulSoup(text, 'html.parser')];
    [isoformat] and [strftime] print a clock reading. *)
Class Library := {
  select : node -> str -> list node;
  search_date : str -> option (str * str * str);
  search_read_time : str -> option str;
  search_author : str -> option str;
  urljoin : str -> str -> str + str;
  parse_html : str -> node;
  isoformat : N -> str;
  strftime : N -> str;
  page_fields : node -> article_fields
}.

(** ** The outside world *)

Inductive event :=
| GET (url : str) (timeout : nat)
| SLEEP (seconds : nat)
| NOW.

(** Effects performed so far, the latest first. *)
Definition trace := list event.

(** What [session.get] does: a response, a [requests.RequestException], or
    another exception (with its message). *)
Inductive outcome :=
| Response (status : nat) (text : str)
| RequestException (msg : str)
| OtherException (msg : str).

Class Outside := {
  http : trace -> str -> nat -> outcome;
  clock : trace -> N
}.

(** Computations: the trace is threaded, an exception is the left summand
    and carries [str(e)]. *)
Definition M (A : Type) : Type := trace -> (str + A) * trace.

Definition ret {A} (a : A) : M A := fun t => (inr a, t).

Definition bind {A B} (c : M A) (k : A -> M B) : M B :=
  fun t =>
    match c t with
    | (inr a, t') => k a t'
    | (inl e, t') => (inl e, t')
    end.

Definition raise {A} (e : str) : M A := fun t => (inl e, t).

(** [try: c  except Exception as e: h e]. *)
Definition try_except {A} (c : M A) (h : str -> M A) : M A :=
  fun t =>
    match c t with
    | (inr a, t') => (inr a, t')
    | (inl e, t') => h e t'
    end.

Notation "'do' x <- c ; k" := (bind c (fun x => k))
  (at level 10, x name, c at level 100, k at level 200).

Definition lift {A} (r : str + A) : M A :=
  match r with
  | inl e => raise e
  | inr a => ret a
  end.

Fixpoint for_each {A B} (f : A -> B -> M B) (l : list A) (acc : B) : M B :=
  match l with
  | [] => ret acc
  | x :: r => do acc' <- f x acc; for_each f r acc'
  end.

Fixpoint map_M {A B} (f : A -> M B) (l : list A) : M (list B) :=
  match l with
  | [] => ret []
  | x :: r => do y <- f x; do ys <- map_M f r; ret (y :: ys)
  end.

Section Effects.
Context {L : Library} {O : Outside}.

(** [datetime.now()]. *)
Definition now : M N := fun t => (inr (clock t), NOW :: t).

(** [time.sleep(n)]. *)
Definition sleep (n : nat) : M unit := fun t => (inr tt, SLEEP n :: t).

(** [response.raise_for_status()] raises for the 4xx and 5xx codes. *)
Definition is_error_status (status : nat) : bool :=
  (400 <=? status) && (status <? 600).

(** The body of the [try] in [_make_request]: the response text ([inr]), a
    caught [RequestException] ([inl]), or an exception that is not caught
    there. *)
Definition attempt_get (url : str) (timeout : nat) : M (unit + str) :=
  fun t =>
    match http t url timeout with
    | Response status text =>
      if is_error_status status then (inr (inl tt), GET url timeout :: t)
      else (inr (inr text), GET url timeout :: t)
    | RequestException _ => (inr (inl tt), GET url timeout :: t)
    | OtherException e => (inl e, GET url timeout :: t)
    end.

End Effects.

(** ** The crawler *)

(** The fields of [ITWorldNewsCrawler.__init__]. *)
Record crawler := {
  base_url : str;
  timeout : nat;
  max_retries : nat
}.

Definition ITWorldNewsCrawler (timeout max_retries : nat) : crawler :=
  {| base_url := py "https://www.itworld.co.kr";
     timeout := timeout;
     max_retries := max_retries |}.

Section Crawler.
Context {U : Unicode} {L : Library} {O : Outside}.
Variable self : crawler.

(** *** [_make_request] *)

Fixpoint attempts (url : str) (range : list nat) : M (option str) :=
  match range with
  | [] => ret None
  | attempt :: rest =>
    do r <- attempt_get url (timeout self);
    match r with
    | inr text => ret (Some text)
    | inl _ =>
      do _ <- (if attempt <? max_retries self - 1
               then sleep (2 ^ attempt) else ret tt);
      attempts url rest
    end
  end.

Definition _make_request (url : str) : M (option str) :=
  attempts url (seq 0 (max_retries self)).

(** *** [_create_error_result] *)

Definition _create_error_result (error_message : str) : M crawl_result :=
  do t <- now;
  ret {| success := false;
         error := Some error_message;
         timestamp := strftime t;
         news_list := [];
         result_source := None;
         result_url := None;
         total_news := None;
         categories := None;
         result_summary := None;
         content_included := None |}.

(** *** [_extract_news_from_card] *)

Definition select_one (card : node) (selector : str) : option node :=
  head (select card selector).

Definition card_title_elem (card : node) : option node :=
  match find (fun n => is_tag (py "h3") n && has_class (py "card__title") n) card with
  | Some e => Some e
  | None => find (fun n => is_tag (py "div") n && has_class (py "card__title") n) card
  end.

(** The loop over [h2], [h3], [h4]: the first of each kind is looked at. *)
Fixpoint heading_title (header_tags : list str) (card : node) : option str :=
  match header_tags with
  | [] => None
  | header_tag :: rest =>
    match find (is_tag header_tag) card with
    | Some header =>
      let title_text := get_text_strip header in
      if 10 <? length title_text then Some title_text
      else heading_title rest card
    | None => heading_title rest card
    end
  end.

Definition header_tags : list str := [py "h2"; py "h3"; py "h4"].

(** Lines 164-181: the value of [news_item.get('title')] when it is true,
    [None] when the extractor gives up. *)
Definition extract_title (card : node) : option str :=
  let t := get_text_strip <$> card_title_elem card in
  let t := if truthy_opt t then t
           else match heading_title header_tags card with
                | Some title_text => Some title_text
                | None => t
                end in
  if truthy_opt t then t else None.

Fixpoint first_selected (selectors : list str) (card : node) : option node :=
  match selectors with
  | [] => None
  | selector :: rest =>
    match select_one card selector with
    | Some e => Some e
    | None => first_selected rest card
    end
  end.

Definition extract_content_type (card : node) : option str :=
  get_text_strip <$>
    first_selected [py "span.card__content-type"; py "div.card__content-type";
                    py ".content-type"; py ".post-type"] card.

Fixpoint description_of (selectors : list str) (card : node) : option str :=
  match selectors with
  | [] => None
  | selector :: rest =>
    match select_one card selector with
    | Some description =>
      let desc_text := get_text_strip description in
      if 20 <? length desc_text then Some desc_text
      else description_of rest card
    | None => description_of rest card
    end
  end.

Definition extract_description (card : node) : option str :=
  description_of [py "p.card__description"; py "div.card__description";
                  py ".description"; py ".excerpt"; py "p"] card.

Fixpoint tags_of (selectors : list str) (card : node) : list str :=
  match selectors with
  | [] => []
  | selector :: rest =>
    match select card selector with
    | [] => tags_of rest card
    | tag_elements => List.filter truthy (map get_text_strip tag_elements)
    end
  end.

Definition extract_tags (card : node) : list str :=
  tags_of [py "div.card__tags span.tag"; py ".tags .tag";
           py ".category"; py ".topic"] card.

(** [str.zfill]. *)
Definition zfill (width : nat) (s : str) : str :=
  let pad := repeat 48%N (width - length s) in
  match s with
  | c :: r => if (c =? 43)%N || (c =? 45)%N then c :: pad ++ r else pad ++ s
  | [] => pad
  end.

Definition format_date (groups : str * str * str) : str :=
  let '(y, m, d) := groups in
  y ++ py "-" ++ zfill 2 m ++ py "-" ++ zfill 2 d.

(** [class_=lambda x: x and 'info' in x] on [div] and [span]. *)
Definition is_info (n : node) : bool :=
  (is_tag (py "div") n || is_tag (py "span") n)
  && existsb (fun c => contains c (py "info")) (classes n).

(** The three keys the loop over the info elements may write. *)
Record info := {
  i_publish_date : option str;
  i_read_time : option str;
  i_author : option str
}.

Definition read_info (info_text : str) (acc : info) : info :=
  let acc :=
    match search_date info_text with
    | Some g => {| i_publish_date := Some (format_date g);
                   i_read_time := i_read_time acc;
                   i_author := i_author acc |}
    | None => acc
    end in
  let acc :=
    match search_read_time info_text with
    | Some g => {| i_publish_date := i_publish_date acc;
                   i_read_time := Some g;
                   i_author := i_author acc |}
    | None => acc
    end in
  if contains info_text (py "By") then
    match search_author info_text with
    | Some g => {| i_publish_date := i_publish_date acc;
                   i_read_time := i_read_time acc;
                   i_author := Some (strip g) |}
    | None => acc
    end
  else acc.

Definition extract_info (card : node) : info :=
  let acc :=
    fold_left (fun acc e => read_info (get_text_strip e) acc)
              (find_all is_info card)
              {| i_publish_date := None; i_read_time := None; i_author := None |} in
  if negb (truthy_opt (i_publish_date acc)) || negb (truthy_opt (i_author acc))
  then
    let card_text := get_text card in
    let acc :=
      if negb (truthy_opt (i_publish_date acc)) then
        match search_date card_text with
        | Some g => {| i_publish_date := Some (format_date g);
                       i_read_time := i_read_time acc;
                       i_author := i_author acc |}
        | None => acc
        end
      else acc in
    if negb (truthy_opt (i_author acc)) then
      match search_author card_text with
      | Some g => {| i_publish_date := i_publish_date acc;
                     i_read_time := i_read_time acc;
                     i_author := Some (strip g) |}
      | None => acc
      end
    else acc
  else acc.

(** [image_elem.get('src') or image_elem.get('data-src')]. *)
Definition image_src (image_elem : node) : option str :=
  let src := attr (py "src") image_elem in
  if truthy_opt src then src else attr (py "data-src") image_elem.

(** The image keys; [urljoin] may raise. *)
Definition extract_image (card : node) : str + (option str * option str) :=
  match find (is_tag (py "img")) card with
  | Some image_elem =>
    match image_src image_elem with
    | Some src =>
      if truthy src then
        match urljoin (base_url self) src with
        | inr u => inr (Some u, Some (default [] (attr (py "alt") image_elem)))
        | inl e => inl e
        end
      else inr (None, None)
    | None => inr (None, None)
    end
  | None => inr (None, None)
  end.

Definition _extract_news_from_card (card : node) (article_links : dict str)
  : M (option news_item) :=
  try_except
    (match extract_title card with
     | None => ret None
     | Some title =>
       let clean_title := _clean_title_for_matching title in
       let matched_url := matched clean_title article_links in
       let inf := extract_info card in
       do image <- lift (extract_image card);
       do t <- now;
       ret (Some {| title := title;
                    url := matched_url;
                    content_type := extract_content_type card;
                    description := extract_description card;
                    tags := extract_tags card;
                    publish_date := i_publish_date inf;
                    read_time := i_read_time inf;
                    author := i_author inf;
                    image_url := fst image;
                    image_alt := snd image;
                    crawled_at := isoformat t;
                    source := py "ITWorld";
                    full_content := None;
                    content_length := None |})
     end)
    (fun _ => ret None).

(** *** The link index (lines 55-66 of [crawl_main_page_news]) *)

(** [href=lambda x: x and '/article/' in x] on [a] elements. *)
Definition is_article_link (n : node) : bool :=
  is_tag (py "a") n &&
  match attr (py "href") n with
  | Some x => truthy x && contains x (py "/article/")
  | None => false
  end.

Fixpoint index_links (links : list node) (article_links : dict str)
  : str + dict str :=
  match links with
  | [] => inr article_links
  | link :: rest =>
    let title := get_text_strip link in
    let href := default [] (attr (py "href") link) in
    if truthy title && (10 <? length title) then
      let clean_title := _clean_title_for_matching title in
      match urljoin (base_url self) href with
      | inr u => index_links rest (dict_set article_links clean_title u)
      | inl e => inl e
      end
    else index_links rest article_links
  end.

(** *** Gathering the cards (lines 70-113) *)

(** The [try] blocks of these loops have nothing to catch, for
    [_extract_news_from_card] catches every exception itself; they are left
    out. *)

Definition is_div_of (class : str) (n : node) : bool :=
  is_tag (py "div") n && has_class class n.

(** [if news_item: news_list.append(news_item)]. *)
Definition append_item (item : option news_item) (news_list : list news_item)
  : list news_item :=
  match item with
  | Some news_item => news_list ++ [news_item]
  | None => news_list
  end.

(** [if news_item and not any(n['title'] == news_item['title'] for n in
    news_list): news_list.append(news_item)]. *)
Definition append_new (item : option news_item) (news_list : list news_item)
  : list news_item :=
  match item with
  | Some news_item =>
    if existsb (fun n => str_eqb (title n) (title news_item)) news_list
    then news_list
    else news_list ++ [news_item]
  | None => news_list
  end.

Definition main_cards (article_links : dict str) (soup : node)
  : M (list news_item) :=
  for_each (fun card news_list =>
              do news_item <- _extract_news_from_card card article_links;
              ret (append_item news_item news_list))
           (find_all (is_div_of (py "card")) soup) [].

Definition content_row (article_links : dict str) (row : node)
           (news_list : list news_item) : M (list news_item) :=
  do news_list <-
    match find (is_div_of (py "content-row-article__main")) row with
    | Some main_article =>
      match find (is_div_of (py "card")) main_article with
      | Some main_card =>
        do news_item <- _extract_news_from_card main_card article_links;
        ret (append_new news_item news_list)
      | None => ret news_list
      end
    | None => ret news_list
    end;
  match find (is_div_of (py "content-row-article__secondary")) row with
  | Some secondary_section =>
    for_each (fun card news_list =>
                do news_item <- _extract_news_from_card card article_links;
                ret (append_new news_item news_list))
             (find_all (is_div_of (py "card")) secondary_section) news_list
  | None => ret news_list
  end.

Definition content_rows (article_links : dict str) (soup : node)
           (news_list : list news_item) : M (list news_item) :=
  for_each (content_row article_links)
           (find_all (is_div_of (py "content-row-article")) soup) news_list.

(** *** Deduplication (lines 115-121) *)

Fixpoint dedup_loop (news_list unique_news : list news_item)
         (seen_titles : gset str) : list news_item :=
  match news_list with
  | [] => unique_news
  | news :: rest =>
    if bool_decide (title news ∈ seen_titles)
    then dedup_loop rest unique_news seen_titles
    else dedup_loop rest (unique_news ++ [news]) ({[title news]} ∪ seen_titles)
  end.

Definition dedup (news_list : list news_item) : list news_item :=
  dedup_loop news_list [] ∅.

(** *** [get_article_content] *)

(** The selector cascades over the parsed article page (lines 468-597) are
    the function [page_fields]: they read the page and raise nothing. *)
Definition get_article_content (article_url : str) : M article_content :=
  try_except
    (do response <- _make_request article_url;
     match response with
     | None =>
       do r <- _create_error_result (py "기사에 접근할 수 없습니다.");
       ret (ArticleError (default [] (error r)) (timestamp r))
     | Some text =>
       let soup := parse_html text in
       do t <- now;
       ret (Article article_url (page_fields soup) (isoformat t))
     end)
    (fun e =>
       do r <- _create_error_result (py "기사 내용 수집 중 오류: " ++ e);
       ret (ArticleError (default [] (error r)) (timestamp r))).

(** *** [_collect_article_contents] *)

Definition set_content (news : news_item) (content : str) : news_item :=
  {| title := title news;
     url := url news;
     content_type := content_type news;
     description := description news;
     tags := tags news;
     publish_date := publish_date news;
     read_time := read_time news;
     author := author news;
     image_url := image_url news;
     image_alt := image_alt news;
     crawled_at := crawled_at news;
     source := source news;
     full_content := Some content;
     content_length := Some (length content) |}.

Definition set_author (news : news_item) (a : str) : news_item :=
  {| title := title news;
     url := url news;
     content_type := content_type news;
     description := description news;
     tags := tags news;
     publish_date := publish_date news;
     read_time := read_time news;
     author := Some a;
     image_url := image_url news;
     image_alt := image_alt news;
     crawled_at := crawled_at news;
     source := source news;
     full_content := full_content news;
     content_length := content_length news |}.

Definition set_publish_date (news : news_item) (d : str) : news_item :=
  {| title := title news;
     url := url news;
     content_type := content_type news;
     description := description news;
     tags := tags news;
     publish_date := Some d;
     read_time := read_time news;
     author := author news;
     image_url := image_url news;
     image_alt := image_alt news;
     crawled_at := crawled_at news;
     source := source news;
     full_content := full_content news;
     content_length := content_length news |}.

(** Lines 331-347: what the record becomes once [get_article_content] has
    answered. *)
Definition add_content (news : news_item) (article_content : article_content)
  : news_item :=
  match article_content with
  | Article _ fields _ =>
    let news := set_content news (a_content fields) in
    let news :=
      if truthy (a_author fields) && negb (truthy_opt (author news))
      then set_author news (a_author fields) else news in
    if truthy (a_publish_date fields) && negb (truthy_opt (publish_date news))
    then set_publish_date news (a_publish_date fields) else news
  | ArticleError _ _ => set_content news []
  end.

(** One turn of the loop.  The handler of the [try] empties the content
    keys of the record. *)
Definition collect_article (news : news_item) : M news_item :=
  match url news with
  | Some u =>
    if truthy u then
      try_except
        (do article_content <- get_article_content u;
         let news := add_content news article_content in
         do _ <- sleep 1;
         ret news)
        (fun _ => ret (set_content news []))
    else ret news
  | None => ret news
  end.

Definition _collect_article_contents (news_list : list news_item)
  : M (list news_item) :=
  map_M collect_article news_list.

(** *** [_extract_categories] *)

Definition count_key (counts : dict nat) (k : str) : dict nat :=
  dict_set counts k (default 0 (dict_get counts k) + 1).

(** [sorted(items, key=lambda x: x[1], reverse=True)]: a stable sort, the
    larger counts first. *)
Fixpoint insert_desc (x : str * nat) (l : list (str * nat)) : list (str * nat) :=
  match l with
  | [] => [x]
  | y :: r => if snd y <=? snd x then x :: y :: r else y :: insert_desc x r
  end.

Definition sorted_desc (l : list (str * nat)) : list (str * nat) :=
  fold_right insert_desc [] l.

Definition tally_tags (news_list : list news_item) : dict nat :=
  fold_left (fun categories news => fold_left count_key (tags news) categories)
            news_list [].

Definition _extract_categories (news_list : list news_item) : dict nat :=
  sorted_desc (tally_tags news_list).

(** *** [_generate_summary] *)

(** [a < b] on strings: lexicographic on code points. *)
Fixpoint str_ltb (a b : str) : bool :=
  match a, b with
  | _, [] => false
  | [], _ :: _ => true
  | x :: a', y :: b' => (x <? y)%N || ((x =? y)%N && str_ltb a' b')
  end.

(** [max(l, default=d)]: the first of the largest items. *)
Definition py_max (l : list str) (d : str) : str :=
  match l with
  | [] => d
  | x :: r => fold_left (fun m y => if str_ltb m y then y else m) r x
  end.

(** [[n.get('publish_date', '') for n in news_list if n.get('publish_date')]]. *)
Definition present_dates (news_list : list news_item) : list str :=
  omap (fun n => match publish_date n with
                 | Some d => if truthy d then Some d else None
                 | None => None
                 end) news_list.

Definition _generate_summary (news_list : list news_item) : option summary :=
  match news_list with
  | [] => None
  | _ :: _ =>
    let dates :=
      fold_left (fun dates news =>
                   count_key dates (default (py "Unknown") (publish_date news)))
                news_list [] in
    let content_types :=
      fold_left (fun content_types news =>
                   count_key content_types
                             (default (py "Unknown") (content_type news)))
                news_list [] in
    Some {| total_articles := length news_list;
            date_distribution := dates;
            content_type_distribution := content_types;
            latest_date := py_max (present_dates news_list) [];
            has_images :=
              length (List.filter (fun n => truthy_opt (image_url n)) news_list) |}
  end.

(** *** [crawl_main_page_news] *)

Definition crawl_main_page_news (include_content : bool) : M crawl_result :=
  try_except
    (do response <- _make_request (base_url self);
     match response with
     | None => _create_error_result (py "메인 페이지에 접근할 수 없습니다.")
     | Some text =>
       let soup := parse_html text in
       do article_links <-
         lift (index_links (find_all is_article_link soup) []);
       do news_list <- main_cards article_links soup;
       do news_list <- content_rows article_links soup news_list;
       let unique_news := dedup news_list in
       do unique_news <-
         (if include_content then _collect_article_contents unique_news
          else ret unique_news);
       do t <- now;
       ret {| success := true;
              error := None;
              timestamp := strftime t;
              news_list := unique_news;
              result_source := Some (py "ITWorld 메인 페이지");
              result_url := Some (base_url self);
              total_news := Some (length unique_news);
              categories := Some (_extract_categories unique_news);
              result_summary := Some (_generate_summary unique_news);
              content_included := Some include_content |}
     end)
    (fun e => _create_error_result (py "크롤링 중 오류 발생: " ++ e)).

End Crawler.

(** ** [crawl_category_news] *)

(** [str(n)] for a number that is not negative. *)
Fixpoint digits (u : Decimal.uint) : str :=
  match u with
  | Decimal.Nil => []
  | Decimal.D0 r => 48%N :: digits r
  | Decimal.D1 r => 49%N :: digits r
  | Decimal.D2 r => 50%N :: digits r
  | Decimal.D3 r => 51%N :: digits r
  | Decimal.D4 r => 52%N :: digits r
  | Decimal.D5 r => 53%N :: digits r
  | Decimal.D6 r => 54%N :: digits r
  | Decimal.D7 r => 55%N :: digits r
  | Decimal.D8 r => 56%N :: digits r
  | Decimal.D9 r => 57%N :: digits r
  end.

Definition str_of_nat (n : nat) : str := digits (Nat.to_uint n).

(** The message of the [UnboundLocalError] that reading a local variable
    before its first assignment raises; its wording depends on the version
    of the interpreter. *)
Class Runtime := {
  unbound_local : str -> str
}.

(** The result of [crawl_category_news]: the keys of a crawl result and
    [pages_crawled]. *)
Record category_result := {
  crawl : crawl_result;
  pages_crawled : option nat
}.

Section Category.
Context {U : Unicode} {L : Library} {O : Outside} {R : Runtime}.
Variable self : crawler.

(** [f"{category_url}?page={page}" if page > 1 else category_url]. *)
Definition page_url (category_url : str) (page : nat) : str :=
  if 1 <? page then category_url ++ py "?page=" ++ str_of_nat page
  else category_url.

(** One turn of the loop over the pages: [None] for a [break], otherwise
    the list with the records of the page appended. *)
Definition category_page (category_url : str) (page : nat)
           (all_news : list news_item) : M (option (list news_item)) :=
  do response <- _make_request self (page_url category_url page);
  match response with
  | None => ret None
  | Some text =>
    let soup := parse_html text in
    do article_links <- lift (index_links self (find_all is_article_link soup) []);
    match find_all (is_div_of (py "card")) soup with
    | [] => ret None
    | cards =>
      do all_news <-
        for_each (fun card all_news =>
                    do news_item <- _extract_news_from_card self card article_links;
                    ret (append_item news_item all_news))
                 cards all_news;
      do _ <- sleep 1;
      ret (Some all_news)
    end
  end.

(** The loop [for page in range(1, max_pages + 1)]; [page] is the value of
    the loop variable so far, [None] before the first turn. *)
Fixpoint category_pages (category_url : str) (range : list nat)
         (page : option nat) (all_news : list news_item)
  : M (option nat * list news_item) :=
  match range with
  | [] => ret (page, all_news)
  | p :: rest =>
    do r <- category_page category_url p all_news;
    match r with
    | None => ret (Some p, all_news)
    | Some all_news => category_pages category_url rest (Some p) all_news
    end
  end.

Definition category_error (r : crawl_result) : category_result :=
  {| crawl := r; pages_crawled := None |}.

Definition crawl_category_news (category_url : str) (max_pages : Z)
           (include_content : bool) : M category_result :=
  try_except
    (do r <- category_pages category_url (seq 1 (Z.to_nat max_pages)) None [];
     let unique_news := dedup (snd r) in
     do unique_news <-
       (if include_content then _collect_article_contents self unique_news
        else ret unique_news);
     do t <- now;
     match fst r with
     | Some page =>
       ret {| crawl :=
                {| success := true;
                   error := None;
                   timestamp := strftime t;
                   news_list := unique_news;
                   result_source := Some (py "ITWorld 카테고리");
                   result_url := Some category_url;
                   total_news := Some (length unique_news);
                   categories := Some (_extract_categories unique_news);
                   result_summary := Some (_generate_summary unique_news);
                   content_included := Some include_content |};
              pages_crawled := Some page |}
     | None => raise (unbound_local (py "page"))
     end)
    (fun e =>
       do r <- _create_error_result (py "카테고리 크롤링 중 오류: " ++ e);
       ret (category_error r)).

End Category.

(** ** Notions used in the statements *)

Section Notions.
Context {U : Unicode}.

(** A code point that lower-casing leaves as it is, wherever it stands. *)
Definition lowered (c : char) : Prop :=
  forall pre post, lower_cp pre c post = [c].

(** Lower-casing a code point beyond ASCII writes lowered code points only. *)
Definition lower_stable : Prop :=
  forall pre c post d,
    (128 <= c)%N -> In d (uni_lower pre c post) -> lowered d.

(** Whitespace occurs only as single spaces; [in_run] tells that a
    whitespace character stands just before. *)
Fixpoint tidy (in_run : bool) (s : str) : Prop :=
  match s with
  | [] => True
  | c :: r =>
    if isspace c then c = 32%N /\ in_run = false /\ tidy true r
    else tidy false r
  end.

End Notions.

(** How often [tag] occurs in a list of tags. *)
Definition occurrences (tag : str) (l : list str) : nat :=
  length (List.filter (str_eqb tag) l).

(** The tags of all records, flattened. *)
Definition all_tags (news_list : list news_item) : list str :=
  concat (map tags news_list).

(** The dates of the records that have one. *)
Definition dates_of (news_list : list news_item) : list str :=
  omap publish_date news_list.

Section TitleNotions.
Context {U : Unicode}.

(** The texts of the first [h2], the first [h3] and the first [h4] of a
    card, for those that exist. *)
Definition first_headings (card : node) : list str :=
  omap (fun header_tag => get_text_strip <$> find (is_tag header_tag) card)
       [py "h2"; py "h3"; py "h4"].

(** The title as the specification words it: the text of the dedicated
    element when it is not empty, otherwise the text of the first heading
    [h2], [h3] or [h4] of the card whose text is longer than 10
    characters. *)
Definition is_long_heading (n : node) : bool :=
  (is_tag (py "h2") n || is_tag (py "h3") n || is_tag (py "h4") n)
  && (10 <? length (get_text_strip n)).

Definition spec_title (card : node) : option str :=
  let t :=
    match find (fun n => is_tag (py "h3") n && has_class (py "card__title") n) card with
    | Some e => Some (get_text_strip e)
    | None =>
      get_text_strip <$>
        find (fun n => is_tag (py "div") n && has_class (py "card__title") n) card
    end in
  if truthy_opt t then t
  else get_text_strip <$> find is_long_heading card.

End TitleNotions.

Section FetchNotions.
Context {O : Outside}.
Variable self : crawler.

(** An outcome that [_make_request] catches and retries: a
    [RequestException], or a response that [raise_for_status] rejects. *)
Definition request_fails (o : outcome) : bool :=
  match o with
  | Response status _ => is_error_status status
  | RequestException _ => true
  | OtherException _ => false
  end.

(** The trace after [n] failed attempts on [url], started at [t]: each
    attempt is a GET, followed by a sleep of [2 ^ attempt] seconds unless
    it was the last one allowed. *)
Fixpoint backoff_trace (url : str) (n : nat) (t : trace) : trace :=
  match n with
  | 0 => t
  | S attempt =>
    let t' := GET url (timeout self) :: backoff_trace url attempt t in
    if attempt <? max_retries self - 1 then SLEEP (2 ^ attempt) :: t' else t'
  end.

(** Every one of the [max_retries] attempts on [url] fails. *)
Definition fetch_fails (url : str) (t : trace) : Prop :=
  forall attempt, attempt < max_retries self ->
    request_fails (http (backoff_trace url attempt t) url (timeout self)) = true.

End FetchNotions.

(** The keys that collecting the content leaves alone: all but the two
    content keys, and [author] and [publish_date] when the card gave none. *)
Definition same_card (news news' : news_item) : Prop :=
  title news' = title news
  /\ url news' = url news
  /\ content_type news' = content_type news
  /\ description news' = description news
  /\ tags news' = tags news
  /\ read_time news' = read_time news
  /\ image_url news' = image_url news
  /\ image_alt news' = image_alt news
  /\ crawled_at news' = crawled_at news
  /\ source news' = source news
  /\ (truthy_opt (author news) = true -> author news' = author news)
  /\ (truthy_opt (publish_date news) = true ->
      publish_date news' = publish_date news).

(** ** Notions about traces *)

(** The number of requests in a trace and the seconds slept in it. *)
Definition requests (t : trace) : nat :=
  length (List.filter (fun e => match e with GET _ _ => true | _ => false end) t).

Fixpoint slept (t : trace) : nat :=
  match t with
  | [] => 0
  | SLEEP n :: r => n + slept r
  | _ :: r => slept r
  end.

(** No two requests of the trace without a sleep of a second or more
    between them; [armed] tells that a request has been met (going back in
    time) since the last such sleep. *)
Fixpoint spaced (armed : bool) (t : trace) : bool :=
  match t with
  | [] => true
  | GET _ _ :: r => negb armed && spaced true r
  | SLEEP n :: r => if 1 <=? n then spaced false r else spaced armed r
  | NOW :: r => spaced armed r
  end.

(** Every request of the trace goes to an address in [G], with the
    timeout of the crawler. *)
Definition asks (self : crawler) (G : str -> Prop) (t : trace) : Prop :=
  Forall (fun e => match e with
                   | GET u timeout' => G u /\ timeout' = timeout self
                   | _ => True
                   end) t.

(** The address of the latest request of a trace. *)
Fixpoint last_request (t : trace) : option str :=
  match t with
  | [] => None
  | GET u _ :: _ => Some u
  | _ :: r => last_request r
  end.

(** ** Notions about the link index and the categories *)

(** The distinct items of a list, in the order of their first
    occurrence. *)
Fixpoint first_seen (l : list str) : list str :=
  match l with
  | [] => []
  | x :: r => x :: List.filter (fun y => negb (str_eqb y x)) (first_seen r)
  end.

Section IndexNotions.
Context {U : Unicode}.

(** An anchor whose text the index takes: [title and len(title) > 10]. *)
Definition indexable (link : node) : bool :=
  truthy (get_text_strip link) && (10 <? length (get_text_strip link)).

Definition link_key (link : node) : str :=
  _clean_title_for_matching (get_text_strip link).

Definition link_href (link : node) : str := default [] (attr (py "href") link).

End IndexNotions.

(** [ks] with [k] added at the end unless it is there. *)
Definition add_key (ks : list str) (k : str) : list str :=
  if existsb (str_eqb k) ks then ks else ks ++ [k].

Section IndexedNotions.
Context {U : Unicode} {L : Library}.
Variable self : crawler.

(** No anchor of [links] that the index takes has the key [k]. *)
Definition no_link (links : list node) (k : str) : Prop :=
  Forall (fun link => indexable link = true -> link_key link ≠ k) links.

(** The last anchor of [links] that the index takes under the key [k]
    points to [u]. *)
Definition last_link (links : list node) (k u : str) : Prop :=
  exists pre link post,
    links = pre ++ link :: post
    /\ indexable link = true
    /\ link_key link = k
    /\ urljoin (base_url self) (link_href link) = inr u
    /\ no_link post k.

End IndexedNotions.

(** The key under which [_generate_summary] counts a record. *)
Definition date_key (n : news_item) : str :=
  default (py "Unknown") (publish_date n).

Definition type_key (n : news_item) : str :=
  default (py "Unknown") (content_type n).

Definition total (counts : dict nat) : nat := list_sum (map snd counts).

(** What collecting does to one record, as far as its keys go. *)
Definition content_added (news news' : news_item) : Prop :=
  title news' = title news
  /\ url news' = url news
  /\ (truthy_opt (url news) = false -> news' = news)
  /\ (truthy_opt (url news) = true ->
      exists c, full_content news' = Some c /\ content_length news' = Some (length c)).

(** ** Notions about dates *)

(** The number that a string of ASCII digits writes. *)
Definition digit (c : char) : bool := between 48 57 c.

Definition number (s : str) : N :=
  fold_left (fun a c => (10 * a + (c - 48))%N) s 0%N.

(** Groups that the pattern [(\d{4})\.(\d{1,2})\.(\d{1,2})] takes from a
    text whose digits are ASCII digits. *)
Definition ascii_date (g : str * str * str) : Prop :=
  let '(y, m, d) := g in
  length y = 4
  /\ (length m = 1 \/ length m = 2)
  /\ (length d = 1 \/ length d = 2)
  /\ forallb digit (y ++ m ++ d) = true.

(** Year, month and day of the groups, and the order of the calendar. *)
Definition calendar (g : str * str * str) : N * N * N :=
  let '(y, m, d) := g in (number y, number m, number d).

Definition before (a b : N * N * N) : Prop :=
  let '(y1, m1, d1) := a in
  let '(y2, m2, d2) := b in
  (y1 < y2 \/ (y1 = y2 /\ (m1 < m2 \/ (m1 = m2 /\ d1 < d2))))%N.

(** The texts of the info elements of a card, in document order. *)
Section InfoNotions.
Context {U : Unicode}.

Definition info_texts (card : node) : list str :=
  map get_text_strip (find_all is_info card).

End InfoNotions.

(** ** Tables and worlds for examples *)

(** Beyond ASCII only the Hangul syllables are alphanumeric here, nothing is
    whitespace and lower-casing changes nothing. *)
Definition basic_tables : Unicode :=
  {| uni_isspace := fun _ => false;
     uni_isalnum := fun c => between 44032 55203 c;
     uni_lower := fun _ c _ => [c] |}.

(** A library that selects nothing and finds no date, time or author; an
    environment without network. *)
Definition no_library : Library :=
  {| select := fun _ _ => [];
     search_date := fun _ => None;
     search_read_time := fun _ => None;
     search_author := fun _ => None;
     urljoin := fun base u => inr (base ++ u);
     parse_html := fun _ => Elem (py "html") [] [];
     isoformat := fun _ => py "2024-03-02T09:00:00";
     strftime := fun _ => py "2024-03-02 09:00:00";
     page_fields := fun _ =>
       {| a_title := []; a_content := []; a_publish_date := [];
          a_author := []; a_tags := [] |} |}.

Definition offline : Outside :=
  {| http := fun _ _ _ => RequestException (py "Connection refused");
     clock := fun _ => 0%N |}.

(** A card whose first [h2] is short and whose second [h2] is a title. *)
Definition two_headings : node :=
  Elem (py "div") [(py "class", py "card")]
    [Elem (py "h2") [] [Text (py "속보")];
     Elem (py "h2") [] [Text (py "AI 반도체 시장 전망과 과제 분석")]].

(** A page with two article links and two cards: the title of the first
    card is the text of the first link, the title of the second shares only
    its first three words with the text of the second link. *)
Definition demo_page : node :=
  Elem (py "html") []
    [Elem (py "body") []
       [Elem (py "a") [(py "href", py "/article/100")]
             [Text (py "AI 반도체 시장 전망과 과제 분석")];
        Elem (py "a") [(py "href", py "/article/200")]
             [Text (py "Cloud security market report 2024, full edition")];
        Elem (py "div") [(py "class", py "card")]
             [Elem (py "h3") [(py "class", py "card__title")]
                   [Text (py " AI 반도체 시장 전망과 과제 분석 ")]];
        Elem (py "div") [(py "class", py "card featured")]
             [Elem (py "h3") [(py "class", py "card__title")]
                   [Text (py "Cloud security market trends")]]]].

(** A library that parses every text into [demo_page] and reads the same
    body from every article page; a site that answers every request. *)
Definition demo_library : Library :=
  {| select := fun _ _ => [];
     search_date := fun _ => None;
     search_read_time := fun _ => None;
     search_author := fun _ => None;
     urljoin := fun base u => inr (base ++ u);
     parse_html := fun _ => demo_page;
     isoformat := fun _ => py "2024-03-02T09:00:00";
     strftime := fun _ => py "2024-03-02 09:00:00";
     page_fields := fun _ =>
       {| a_title := py "기사";
          a_content := py "본문 첫 문단입니다.";
          a_publish_date := py "2024-03-01";
          a_author := py "홍길동";
          a_tags := [] |} |}.

Definition online : Outside :=
  {| http := fun _ _ _ => Response 200 (py "<html></html>");
     clock := fun _ => 0%N |}.

(** A site where one article cannot be fetched. *)
Definition flaky : Outside :=
  {| http := fun _ u _ =>
       if str_eqb u (py "https://www.itworld.co.kr/article/2")
       then RequestException (py "Read timed out")
       else Response 200 (py "<html></html>");
     clock := fun _ => 0%N |}.

(** A record as the extractor builds it, with the keys the aggregates read. *)
Definition sample (title : str) (url : option str) (tags : list str)
           (publish_date : option str) : news_item :=
  {| title := title;
     url := url;
     content_type := None;
     description := None;
     tags := tags;
     publish_date := publish_date;
     read_time := None;
     author := None;
     image_url := None;
     image_alt := None;
     crawled_at := py "2024-03-02T09:00:00";
     source := py "ITWorld";
     full_content := None;
     content_length := None |}.

(** A runtime with the wording of Python 3.11. *)
Definition python311 : Runtime :=
  {| unbound_local := fun x =>
       py "cannot access local variable '" ++ x
       ++ py "' where it is not associated with a value" |}.

(** A site that fails the first request and answers the later ones; a
    site on which [session.get] raises an exception that is no
    [RequestException]. *)
Definition recovering : Outside :=
  {| http := fun t _ _ =>
       if requests t =? 0 then RequestException (py "Connection reset by peer")
       else Response 200 (py "<html></html>");
     clock := fun _ => 0%N |}.

Definition broken : Outside :=
  {| http := fun _ _ _ => OtherException (py "embedded null byte");
     clock := fun _ => 0%N |}.

(** Four anchors: the third has the key of the first, the text of the
    fourth is too short for the index. *)
Definition demo_links : list node :=
  [Elem (py "a") [(py "href", py "/article/100")]
        [Text (py "AI 반도체 시장 전망과 과제 분석")];
   Elem (py "a") [(py "href", py "/article/200")]
        [Text (py "Cloud security market report 2024")];
   Elem (py "a") [(py "href", py "/article/101")]
        [Text (py "AI 반도체 시장, 전망과 과제 분석!")];
   Elem (py "a") [(py "href", py "/article/7")] [Text (py "더보기")]].

Definition demo_index : dict str :=
  [(py "ai 반도체 시장 전망과 과제 분석", py "https://www.itworld.co.kr/article/101");
   (py "cloud security market report 2024", py "https://www.itworld.co.kr/article/200")].

(** A card with a heading and an image without [alt]. *)
Definition titled_card : node :=
  Elem (py "div") [(py "class", py "card")]
    [Elem (py "h2") [] [Text (py "AI 반도체 시장 전망과 과제 분석")];
     Elem (py "img") [(py "src", py "/img/1.png")] []].

(** The record the extractor reads from [titled_card] with [demo_index]. *)
Definition demo_record : news_item :=
  {| title := py "AI 반도체 시장 전망과 과제 분석";
     url := Some (py "https://www.itworld.co.kr/article/101");
     content_type := None;
     description := None;
     tags := [];
     publish_date := None;
     read_time := None;
     author := None;
     image_url := Some (py "https://www.itworld.co.kr/img/1.png");
     image_alt := Some [];
     crawled_at := py "2024-03-02T09:00:00";
     source := py "ITWorld";
     full_content := None;
     content_length := None |}.

(** * Properties *)

(** ** Sample runs *)

Example py_hangul : py "가-힣" = [44032; 45; 55203]%N.
Proof. reflexivity. Qed.

Example clean_title_sample :
  @_clean_title_for_matching basic_tables (py "  Hello,   World! 가나다 ")
  = py "hello world 가나다".
Proof. vm_compute. reflexivity. Qed.

Example split_sample :
  @split basic_tables (py " ai  chip market ") = [py "ai"; py "chip"; py "market"].
Proof. vm_compute. reflexivity. Qed.

(** The page [demo_page]: both cards are found, the first gets its URL by
    the exact match, the second by its first three words. *)
Example crawl_demo_page :
  match fst (@crawl_main_page_news basic_tables demo_library online
               (ITWorldNewsCrawler 15 3) false []) with
  | inr r =>
    success r = true
    /\ map (fun n => (title n, url n)) (news_list r)
       = [(py "AI 반도체 시장 전망과 과제 분석",
           Some (py "https://www.itworld.co.kr/article/100"));
          (py "Cloud security market trends",
           Some (py "https://www.itworld.co.kr/article/200"))]
  | inl _ => False
  end.
Proof. vm_compute. split; reflexivity. Qed.

(** Three records, the fetch of the second failing: all three come back,
    the second with an empty content of length 0, the others with the body
    read from their pages. *)
Example collect_with_one_failure :
  match fst (@_collect_article_contents demo_library flaky
               (ITWorldNewsCrawler 15 3)
               [sample (py "AI 반도체 시장 전망과 과제")
                       (Some (py "https://www.itworld.co.kr/article/1")) [] None;
                sample (py "생성형 AI 도입 기업이 늘고 있다")
                       (Some (py "https://www.itworld.co.kr/article/2")) [] None;
                sample (py "오픈소스 보안 점검 가이드")
                       (Some (py "https://www.itworld.co.kr/article/3")) [] None]
               []) with
  | inr out =>
    map (fun n => (full_content n, content_length n)) out
    = [(Some (py "본문 첫 문단입니다."), Some 11);
       (Some [], Some 0);
       (Some (py "본문 첫 문단입니다."), Some 11)]
  | inl _ => False
  end.
Proof. vm_compute. reflexivity. Qed.

(** ** The title normaliser *)

Section Normaliser.
Context {U : Unicode}.

Lemma isspace_32 : isspace 32%N = true.
Proof. reflexivity. Qed.

Lemma kept_32 : kept 32%N = true.
Proof. reflexivity. Qed.

Lemma lowered_32 : lowered 32%N.
Proof. intros pre post. reflexivity. Qed.

Lemma sub_spaces_tidy s : forall b, tidy b (sub_spaces b s).
Proof.
  induction s as [|c r IH]; intros b; simpl; [exact I|].
  destruct (isspace c) eqn:E.
  - destruct b; [apply IH|].
    simpl. repeat split. apply IH.
  - simpl. rewrite E. apply IH.
Qed.

Lemma tidy_fixed s : forall b, tidy b s -> sub_spaces b s = s.
Proof.
  induction s as [|c r IH]; intros b H; simpl in *; [reflexivity|].
  destruct (isspace c).
  - destruct H as (-> & -> & H). f_equal. apply IH, H.
  - f_equal. apply IH, H.
Qed.

Lemma tidy_app_l s1 : forall b s2, tidy b (s1 ++ s2) -> tidy b s1.
Proof.
  induction s1 as [|c r IH]; intros b s2 H; simpl in *; [exact I|].
  destruct (isspace c).
  - destruct H as (? & ? & H). repeat split; eauto.
  - eauto.
Qed.

Lemma tidy_weaken s : tidy true s -> tidy false s.
Proof.
  destruct s as [|c r]; simpl; [auto|].
  destruct (isspace c); [|auto].
  intros (_ & Hb & _). discriminate Hb.
Qed.

Lemma tidy_spaces s : forall b,
  tidy b s -> Forall (fun c => isspace c = true -> c = 32%N) s.
Proof.
  induction s as [|c r IH]; intros b H; simpl in *; constructor.
  - destruct (isspace c); [destruct H as (-> & _); reflexivity | discriminate].
  - destruct (isspace c); [destruct H as (_ & _ & H)|]; eauto.
Qed.

(** [lstrip] cuts a prefix of whitespace. *)
Lemma lstrip_suffix s : exists p, s = p ++ lstrip s.
Proof.
  induction s as [|c r [p IH]]; simpl.
  - exists []. reflexivity.
  - destruct (isspace c).
    + exists (c :: p). simpl. f_equal. exact IH.
    + exists []. reflexivity.
Qed.

Lemma rstrip_prefix s : exists q, s = rstrip s ++ q.
Proof.
  unfold rstrip. destruct (lstrip_suffix (rev s)) as [p Hp].
  exists (rev p). rewrite <- rev_app_distr, <- Hp. symmetry. apply rev_involutive.
Qed.

Lemma lstrip_length s : length (lstrip s) <= length s.
Proof.
  induction s as [|c r IH]; simpl; [lia|].
  destruct (isspace c); simpl; lia.
Qed.

Lemma rstrip_length s : length (rstrip s) <= length s.
Proof.
  unfold rstrip. rewrite length_rev.
  etransitivity; [apply lstrip_length|]. rewrite length_rev. lia.
Qed.

(** A string is fixed by [lstrip] when it is empty or starts with a
    character that is not whitespace. *)
Lemma lstrip_fixed_iff s :
  lstrip s = s <-> match s with [] => True | c :: _ => isspace c = false end.
Proof.
  destruct s as [|c r]; simpl; [tauto|].
  destruct (isspace c) eqn:E; split; auto; try discriminate.
  intros H. pose proof (lstrip_length r) as Hl. rewrite H in Hl. simpl in Hl. lia.
Qed.

Lemma lstrip_idem s : lstrip (lstrip s) = lstrip s.
Proof.
  induction s as [|c r IH]; simpl; [reflexivity|].
  destruct (isspace c) eqn:E; [exact IH|]. simpl. rewrite E. reflexivity.
Qed.

Lemma rstrip_idem s : rstrip (rstrip s) = rstrip s.
Proof. unfold rstrip. rewrite rev_involutive, lstrip_idem. reflexivity. Qed.

Lemma lstrip_fixed_prefix p q : lstrip (p ++ q) = p ++ q -> lstrip p = p.
Proof.
  rewrite !lstrip_fixed_iff. destruct p; simpl; auto.
Qed.

Lemma tidy_lstrip s : forall b, tidy b s -> tidy false (lstrip s).
Proof.
  induction s as [|c r IH]; intros b H; simpl in *; [exact I|].
  destruct (isspace c) eqn:E.
  - destruct H as (_ & _ & H). eapply IH, H.
  - simpl. rewrite E. exact H.
Qed.

Lemma tidy_prefix b p q : tidy b (p ++ q) -> tidy b p.
Proof. apply tidy_app_l. Qed.

Lemma tidy_rstrip b s : tidy b s -> tidy b (rstrip s).
Proof.
  intros H. destruct (rstrip_prefix s) as [q Hq].
  rewrite Hq in H. eapply tidy_prefix, H.
Qed.

Lemma tidy_take b n s : tidy b s -> tidy b (take n s).
Proof. intros H. rewrite <- (take_drop n s) in H. eapply tidy_prefix, H. Qed.

(** Properties of single characters go through every stage. *)
Lemma Forall_sub_spaces (P : char -> Prop) s : forall b,
  P 32%N -> Forall P s -> Forall P (sub_spaces b s).
Proof.
  induction s as [|c r IH]; intros b H32 H; simpl; [constructor|].
  inversion H; subst.
  destruct (isspace c); [destruct b|]; try constructor; auto.
Qed.

Lemma Forall_lstrip (P : char -> Prop) s : Forall P s -> Forall P (lstrip s).
Proof.
  intros H. destruct (lstrip_suffix s) as [p Hp]. rewrite Hp in H.
  apply Forall_app in H. tauto.
Qed.

Lemma Forall_rstrip (P : char -> Prop) s : Forall P s -> Forall P (rstrip s).
Proof.
  intros H. destruct (rstrip_prefix s) as [q Hq]. rewrite Hq in H.
  apply Forall_app in H. tauto.
Qed.

Lemma Forall_strip (P : char -> Prop) s : Forall P s -> Forall P (strip s).
Proof. intros H. apply Forall_rstrip, Forall_lstrip, H. Qed.

Lemma sub_unwanted_kept s : Forall (fun c => kept c = true) (sub_unwanted s).
Proof.
  unfold sub_unwanted. induction s as [|c r IH]; simpl; [constructor|].
  destruct (kept c) eqn:E; [constructor|]; auto.
Qed.

Lemma sub_unwanted_fixed s :
  Forall (fun c => kept c = true) s -> sub_unwanted s = s.
Proof.
  unfold sub_unwanted. induction 1 as [|c r Hc _ IH]; simpl; [reflexivity|].
  rewrite Hc, IH. reflexivity.
Qed.

Lemma Forall_sub_unwanted (P : char -> Prop) s :
  Forall P s -> Forall P (sub_unwanted s).
Proof.
  unfold sub_unwanted. induction 1 as [|c r Hc _ IH]; simpl; [constructor|].
  destruct (kept c); [constructor|]; auto.
Qed.

(** *** Lower-casing *)

Lemma ascii_lowered pre c post d :
  (c < 128)%N -> In d (lower_cp pre c post) -> lowered d.
Proof.
  intros Hc Hd pre' post'. unfold lower_cp in *.
  apply N.ltb_lt in Hc as Hc'. rewrite Hc' in Hd.
  destruct Hd as [<-|[]].
  unfold between. destruct ((65 <=? c) && (c <=? 90))%N eqn:E.
  - apply andb_true_iff in E as [E1 E2].
    apply N.leb_le in E1, E2.
    assert (H1 : (c + 32 <? 128)%N = true) by (apply N.ltb_lt; lia).
    assert (H2 : ((65 <=? c + 32) && (c + 32 <=? 90))%N = false).
    { apply andb_false_iff. right. apply N.leb_gt. lia. }
    rewrite H1, H2. reflexivity.
  - rewrite Hc', E. reflexivity.
Qed.

Lemma lower_cp_lowered (H : lower_stable) pre c post d :
  In d (lower_cp pre c post) -> lowered d.
Proof.
  intros Hd. destruct (N.ltb_spec c 128) as [Hc|Hc].
  - eapply ascii_lowered; eauto.
  - unfold lower_cp in Hd.
    assert (E : (c <? 128)%N = false) by (apply N.ltb_ge; exact Hc).
    rewrite E in Hd. eapply H; eauto.
Qed.

Lemma lower_from_lowered (H : lower_stable) s : forall pre,
  Forall lowered (lower_from pre s).
Proof.
  induction s as [|c r IH]; intros pre; simpl; [constructor|].
  apply Forall_app. split; [|apply IH].
  apply List.Forall_forall. intros d Hd. eapply lower_cp_lowered; eauto.
Qed.

Lemma lower_from_fixed s : forall pre,
  Forall lowered s -> lower_from pre s = s.
Proof.
  induction s as [|c r IH]; intros pre H; simpl; [reflexivity|].
  inversion H as [|? ? Hc Hr]; subst.
  rewrite Hc, IH; auto.
Qed.

(** *** What one pass establishes *)

Lemma clean_untruncated_tidy x : tidy false (clean_untruncated x).
Proof.
  unfold clean_untruncated, strip.
  apply tidy_rstrip. eapply tidy_lstrip. apply sub_spaces_tidy.
Qed.

Lemma clean_untruncated_kept x :
  Forall (fun c => kept c = true) (clean_untruncated x).
Proof.
  unfold clean_untruncated.
  apply Forall_strip, Forall_sub_spaces; [apply kept_32|apply sub_unwanted_kept].
Qed.

Lemma clean_untruncated_lowered (H : lower_stable) x :
  Forall lowered (clean_untruncated x).
Proof.
  unfold clean_untruncated.
  apply Forall_strip, Forall_sub_spaces; [apply lowered_32|].
  apply Forall_sub_unwanted. unfold lower. apply lower_from_lowered, H.
Qed.

Lemma clean_untruncated_lstrip x :
  lstrip (clean_untruncated x) = clean_untruncated x.
Proof.
  unfold clean_untruncated, strip.
  set (b := lstrip (sub_spaces _ _)).
  destruct (rstrip_prefix b) as [q Hq].
  apply (lstrip_fixed_prefix (rstrip b) q). rewrite <- Hq. apply lstrip_idem.
Qed.

Lemma rstrip_fixed b s : tidy b s -> last s ≠ Some 32%N -> rstrip s = s.
Proof.
  intros Ht Hl. unfold rstrip.
  assert (E : lstrip (rev s) = rev s).
  { apply lstrip_fixed_iff.
    destruct s as [|c r _] using rev_ind; simpl; [exact I|].
    rewrite rev_unit. rewrite last_snoc in Hl.
    destruct (isspace c) eqn:E; [|reflexivity].
    apply tidy_spaces in Ht. apply Forall_app in Ht as [_ Hc].
    inversion Hc; subst. exfalso. apply Hl. f_equal. auto. }
  rewrite E. apply rev_involutive.
Qed.

(** A string that came out of the normaliser goes through it again
    unchanged, up to the final [strip]. *)
Lemma clean_fixed y :
  Forall lowered y -> Forall (fun c => kept c = true) y -> tidy false y ->
  lstrip y = y -> length y <= 50 ->
  _clean_title_for_matching y = rstrip y.
Proof.
  intros Hlow Hkept Htidy Hl Hlen.
  unfold _clean_title_for_matching, clean_untruncated, lower, strip.
  rewrite lower_from_fixed by exact Hlow.
  rewrite sub_unwanted_fixed by exact Hkept.
  rewrite tidy_fixed by exact Htidy.
  rewrite Hl. apply take_ge.
  etransitivity; [apply rstrip_length|exact Hlen].
Qed.

(** C2, as amended.  Normalising a normalised title strips it once more and
    changes nothing else: the result is the same whenever the normalised
    title does not end in a space, in particular whenever the title cleaned
    of punctuation and surplus whitespace has at most 50 characters, so
    that the final cut removes nothing. *)
Theorem clean_title_twice (H : lower_stable) (x : str) :
  _clean_title_for_matching (_clean_title_for_matching x)
  = rstrip (_clean_title_for_matching x)
  /\ (last (_clean_title_for_matching x) ≠ Some 32%N ->
      _clean_title_for_matching (_clean_title_for_matching x)
      = _clean_title_for_matching x)
  /\ (length (clean_untruncated x) <= 50 ->
      _clean_title_for_matching (_clean_title_for_matching x)
      = _clean_title_for_matching x).
Proof.
  assert (E : _clean_title_for_matching (_clean_title_for_matching x)
              = rstrip (_clean_title_for_matching x)).
  { apply clean_fixed; unfold _clean_title_for_matching.
    - apply Forall_take, clean_untruncated_lowered, H.
    - apply Forall_take, clean_untruncated_kept.
    - apply tidy_take, clean_untruncated_tidy.
    - apply (lstrip_fixed_prefix _ (drop 50 (clean_untruncated x))).
      rewrite take_drop. apply clean_untruncated_lstrip.
    - rewrite length_take. lia. }
  split; [exact E|]. split.
  - intros Hl. rewrite E. eapply rstrip_fixed; [|exact Hl].
    unfold _clean_title_for_matching. apply tidy_take, clean_untruncated_tidy.
  - intros Hlen. rewrite E. unfold _clean_title_for_matching.
    rewrite take_ge by exact Hlen.
    unfold clean_untruncated, strip. apply rstrip_idem.
Qed.

End Normaliser.

Lemma basic_tables_stable : @lower_stable basic_tables.
Proof.
  intros pre c post d Hc [<-|[]] pre' post'.
  unfold lower_cp. simpl.
  destruct (c <? 128)%N eqn:E; [|reflexivity].
  apply N.ltb_lt in E. lia.
Qed.

Lemma clean_title_twice_witness :
  @_clean_title_for_matching basic_tables
     (@_clean_title_for_matching basic_tables (py "ITWorld: AI 뉴스, 2024!"))
  = @_clean_title_for_matching basic_tables (py "ITWorld: AI 뉴스, 2024!").
Proof.
  apply (@clean_title_twice basic_tables basic_tables_stable).
  vm_compute. lia.
Defined.

(** C2, as stated, fails: the cut at 50 characters can leave a space at the
    end, which a second pass strips. *)
Lemma clean_title_not_idempotent :
  @_clean_title_for_matching basic_tables
     (@_clean_title_for_matching basic_tables
        (py "Google announces new artificial intelligence apps for developers"))
  ≠ @_clean_title_for_matching basic_tables
      (py "Google announces new artificial intelligence apps for developers").
Proof. vm_compute. intros H. discriminate H. Qed.

(** ** The Matcher *)

Lemma str_eqb_eq a b : str_eqb a b = true <-> a = b.
Proof. unfold str_eqb. apply bool_decide_eq_true. Qed.

Lemma str_eqb_refl a : str_eqb a a = true.
Proof. apply str_eqb_eq. reflexivity. Qed.

Lemma str_eqb_neq a b : str_eqb a b = false <-> a ≠ b.
Proof. unfold str_eqb. apply bool_decide_eq_false. Qed.

Lemma truthy_nonempty s : truthy s = true <-> s ≠ [].
Proof. destruct s; simpl; split; congruence. Qed.

Section Lookup.
Context {V : Type}.

Lemma find_key_absent (d : dict V) k :
  k ∉ keys d -> List.find (fun kv => str_eqb k (fst kv)) d = None.
Proof.
  induction d as [|[k' v'] r IH]; simpl; intros H; [reflexivity|].
  apply not_elem_of_cons in H as [Hk Hr].
  apply str_eqb_neq in Hk. rewrite Hk. apply IH, Hr.
Qed.

Lemma find_key_present (d : dict V) k v :
  NoDup (keys d) -> (k, v) ∈ d ->
  List.find (fun kv => str_eqb k (fst kv)) d = Some (k, v).
Proof.
  induction d as [|[k' v'] r IH]; simpl; intros Hnd Hin.
  - apply elem_of_nil in Hin. contradiction.
  - apply NoDup_cons in Hnd as [Hk' Hnd].
    apply elem_of_cons in Hin as [Heq|Hin].
    + inversion Heq; subst. rewrite str_eqb_refl. reflexivity.
    + destruct (str_eqb k k') eqn:E.
      * apply str_eqb_eq in E. subst k'. exfalso. apply Hk'.
        apply list_elem_of_fmap. exists (k, v). split; [reflexivity|exact Hin].
      * apply IH; assumption.
Qed.

End Lookup.

Section MatcherFacts.
Context {U : Unicode}.

(** C5.  A title of fewer than three words that is no key of the index gets
    no URL: the partial match is not tried, whatever the index holds. *)
Theorem partial_match_gate (clean_title : str) (article_links : dict str) :
  length (split clean_title) < 3 ->
  clean_title ∉ keys article_links ->
  partial_match clean_title article_links = None
  /\ match_url clean_title article_links = None
  /\ matched clean_title article_links = None.
Proof.
  intros Hwords Hkey.
  assert (Hp : partial_match clean_title article_links = None).
  { unfold partial_match.
    destruct (3 <=? length (split clean_title)) eqn:E; [|reflexivity].
    apply Nat.leb_le in E. lia. }
  assert (Hm : match_url clean_title article_links = None).
  { unfold match_url, exact_match.
    rewrite (find_key_absent _ _ Hkey), Hp. reflexivity. }
  unfold matched. rewrite Hm. auto.
Qed.

Lemma exact_match_found (clean_title url : str) (article_links : dict str) :
  NoDup (keys article_links) ->
  (clean_title, url) ∈ article_links ->
  exact_match clean_title article_links = Some url.
Proof.
  intros Hnd Hin. unfold exact_match.
  rewrite (find_key_present _ _ _ Hnd Hin). reflexivity.
Qed.

(** When a dictionary holds the title as a key with a URL that is not
    empty, that URL is the match, whatever the other keys. *)
Lemma exact_match_wins (clean_title url : str) (article_links : dict str) :
  NoDup (keys article_links) ->
  (clean_title, url) ∈ article_links ->
  url ≠ [] ->
  match_url clean_title article_links = Some url
  /\ matched clean_title article_links = Some url.
Proof.
  intros Hnd Hin Hurl.
  apply truthy_nonempty in Hurl.
  assert (Hm : match_url clean_title article_links = Some url).
  { unfold match_url.
    rewrite (exact_match_found _ _ _ Hnd Hin). simpl. rewrite Hurl. reflexivity. }
  unfold matched. rewrite Hm. simpl. rewrite Hurl. auto.
Qed.

End MatcherFacts.

Lemma partial_match_gate_witness :
  @matched basic_tables (py "ai chip")
    [(py "ai chip market grows fast", py "https://www.itworld.co.kr/article/1")]
  = None.
Proof.
  apply (@partial_match_gate basic_tables (py "ai chip")
           [(py "ai chip market grows fast",
             py "https://www.itworld.co.kr/article/1")]).
  - vm_compute. lia.
  - vm_compute. intros H. apply list_elem_of_singleton in H. discriminate H.
Defined.

(** ** Deduplication *)

(** The loop, started with [unique_news] collected and their titles in
    [seen_titles], appends to [unique_news] the first record of every title
    not yet seen. *)
Lemma dedup_loop_spec (news_list : list news_item) :
  forall (unique_news : list news_item) (seen_titles : gset str),
    (forall x, x ∈ seen_titles <-> x ∈ (title <$> unique_news)) ->
    NoDup (title <$> unique_news) ->
    exists added,
      dedup_loop news_list unique_news seen_titles = unique_news ++ added
      /\ added `sublist_of` news_list
      /\ NoDup (title <$> (unique_news ++ added))
      /\ (forall n, n ∈ news_list -> title n ∈ (title <$> (unique_news ++ added)))
      /\ (forall n, n ∈ added ->
            (title n ∉ (title <$> unique_news))
            /\ List.find (fun m => str_eqb (title m) (title n)) news_list = Some n).
Proof.
  induction news_list as [|news rest IH]; intros unique_news seen_titles Hseen Hnd.
  - exists []. rewrite app_nil_r.
    split; [reflexivity|]. split; [apply sublist_nil_l|]. split; [exact Hnd|].
    split; intros n Hn; apply elem_of_nil in Hn; contradiction.
  - simpl. case_bool_decide as Hin.
    + destruct (IH unique_news seen_titles Hseen Hnd)
        as (added & Heq & Hsub & Hnd' & Hall & Hfirst).
      exists added.
      split; [exact Heq|]. split; [apply sublist_cons, Hsub|].
      split; [exact Hnd'|]. split.
      * intros n Hn. apply elem_of_cons in Hn as [->|Hn]; [|auto].
        rewrite fmap_app. apply elem_of_app. left. apply Hseen, Hin.
      * intros n Hn. destruct (Hfirst n Hn) as [Hnew Hfind].
        split; [exact Hnew|]. simpl.
        destruct (str_eqb (title news) (title n)) eqn:E; [|exact Hfind].
        apply str_eqb_eq in E. exfalso. apply Hnew. rewrite <- E.
        apply Hseen, Hin.
    + assert (Hseen' : forall x, x ∈ {[title news]} ∪ seen_titles
                                 <-> x ∈ (title <$> (unique_news ++ [news]))).
      { intros x. rewrite fmap_app, elem_of_app, elem_of_union, elem_of_singleton.
        simpl. rewrite list_elem_of_singleton, Hseen. tauto. }
      assert (Hnd1 : NoDup (title <$> (unique_news ++ [news]))).
      { rewrite fmap_app. apply NoDup_app.
        split; [exact Hnd|]. split; [|apply NoDup_singleton].
        intros x Hx Hx'. apply list_elem_of_singleton in Hx'. subst x.
        apply Hin, Hseen, Hx. }
      destruct (IH (unique_news ++ [news]) _ Hseen' Hnd1)
        as (added & Heq & Hsub & Hnd' & Hall & Hfirst).
      exists (news :: added).
      rewrite <- app_assoc in Heq, Hnd', Hall. simpl in Heq, Hnd', Hall.
      split; [exact Heq|]. split; [apply sublist_skip, Hsub|].
      split; [exact Hnd'|]. split.
      * intros n Hn. apply elem_of_cons in Hn as [->|Hn]; [|auto].
        rewrite fmap_app. apply elem_of_app. right. simpl. apply list_elem_of_here.
      * intros n Hn. apply elem_of_cons in Hn as [->|Hn].
        -- split; [intros Hx; apply Hin, Hseen, Hx|].
           simpl. rewrite str_eqb_refl. reflexivity.
        -- destruct (Hfirst n Hn) as [Hnew Hfind].
           rewrite fmap_app, elem_of_app in Hnew.
           split; [tauto|]. simpl.
           destruct (str_eqb (title news) (title n)) eqn:E; [|exact Hfind].
           apply str_eqb_eq in E. exfalso. apply Hnew. right. rewrite <- E.
           simpl. apply list_elem_of_here.
Qed.


(** ** The category histogram *)

Section Dictionaries.
Context {V : Type}.

Lemma dict_get_elem (d : dict V) k v : dict_get d k = Some v -> (k, v) ∈ d.
Proof.
  unfold dict_get. induction d as [|[k' v'] r IH]; simpl; [discriminate|].
  destruct (str_eqb k k') eqn:E; simpl.
  - apply str_eqb_eq in E. subst k'. intros [= ->]. apply list_elem_of_here.
  - intros H. apply list_elem_of_further, IH, H.
Qed.

Lemma dict_get_absent (d : dict V) k : dict_get d k = None <-> k ∉ keys d.
Proof.
  unfold dict_get. induction d as [|[k' v'] r IH]; simpl.
  - split; [intros _ H; apply elem_of_nil in H; contradiction|reflexivity].
  - rewrite not_elem_of_cons. destruct (str_eqb k k') eqn:E; simpl.
    + apply str_eqb_eq in E. split; [discriminate|]. intros [H _]. contradiction.
    + apply str_eqb_neq in E. rewrite IH. tauto.
Qed.

Lemma dict_get_present (d : dict V) k v :
  NoDup (keys d) -> (k, v) ∈ d -> dict_get d k = Some v.
Proof.
  intros Hnd Hin. unfold dict_get.
  rewrite (find_key_present _ _ _ Hnd Hin). reflexivity.
Qed.

Lemma dict_get_set (d : dict V) k v k' :
  dict_get (dict_set d k v) k'
  = if str_eqb k' k then Some v else dict_get d k'.
Proof.
  unfold dict_get. induction d as [|[k0 v0] r IH]; simpl.
  - destruct (str_eqb k' k); reflexivity.
  - destruct (str_eqb k k0) eqn:E; simpl.
    + apply str_eqb_eq in E. subst k0.
      destruct (str_eqb k' k); reflexivity.
    + destruct (str_eqb k' k0) eqn:E0; simpl; [|exact IH].
      apply str_eqb_eq in E0. subst k0.
      destruct (str_eqb k' k) eqn:E1; [|reflexivity].
      apply str_eqb_eq in E1. subst k'. rewrite str_eqb_refl in E. discriminate.
Qed.

Lemma keys_dict_set (d : dict V) k v x :
  x ∈ keys (dict_set d k v) <-> x = k \/ x ∈ keys d.
Proof.
  induction d as [|[k0 v0] r IH]; simpl.
  - rewrite list_elem_of_singleton, elem_of_nil. tauto.
  - destruct (str_eqb k k0) eqn:E; simpl.
    + apply str_eqb_eq in E. subst k0. rewrite elem_of_cons. tauto.
    + rewrite !elem_of_cons, IH. tauto.
Qed.

Lemma NoDup_dict_set (d : dict V) k v :
  NoDup (keys d) -> NoDup (keys (dict_set d k v)).
Proof.
  induction d as [|[k0 v0] r IH]; simpl; intros Hnd.
  - apply NoDup_singleton.
  - apply NoDup_cons in Hnd as [Hk0 Hnd].
    destruct (str_eqb k k0) eqn:E; simpl.
    + apply str_eqb_eq in E. subst k0. apply NoDup_cons. auto.
    + apply NoDup_cons. split; [|auto].
      rewrite keys_dict_set. intros [->|H]; [|contradiction].
      rewrite str_eqb_refl in E. discriminate.
Qed.

Lemma dict_get_perm (d d' : dict V) k :
  NoDup (keys d) -> Permutation d d' -> dict_get d' k = dict_get d k.
Proof.
  intros Hnd Hp.
  assert (Hnd' : NoDup (keys d')).
  { unfold keys. rewrite <- Hp. exact Hnd. }
  destruct (dict_get d k) as [v|] eqn:E.
  - apply dict_get_present; [exact Hnd'|].
    rewrite <- Hp. apply dict_get_elem, E.
  - apply dict_get_absent. apply dict_get_absent in E.
    unfold keys. rewrite <- Hp. exact E.
Qed.

End Dictionaries.

(** *** The index the crawler builds *)

Lemma elem_dict_set {V} (d : dict V) k v k' v' :
  (k', v') ∈ dict_set d k v -> (k', v') = (k, v) \/ (k', v') ∈ d.
Proof.
  induction d as [|[k0 v0] r IH]; simpl.
  - rewrite list_elem_of_singleton. auto.
  - destruct (str_eqb k k0); rewrite !elem_of_cons; intros [H|H]; auto.
    destruct (IH H); auto.
Qed.

Section Index.
Context {U : Unicode} {L : Library}.
Variable self : crawler.

(** The index is a dictionary: no key twice. *)
Lemma index_links_NoDup links : forall acc d,
  NoDup (keys acc) -> index_links self links acc = inr d -> NoDup (keys d).
Proof.
  induction links as [|link rest IH]; intros acc d Hacc; simpl.
  - intros [= <-]. exact Hacc.
  - destruct (truthy _ && _); [|apply IH, Hacc].
    destruct (urljoin _ _) as [e|u]; [discriminate|].
    apply IH, NoDup_dict_set, Hacc.
Qed.

(** The URLs of the index are results of [urljoin (base_url self)]: none
    is empty when [urljoin] on this base returns no empty string. *)
Lemma index_links_urls links :
  (forall href u, urljoin (base_url self) href = inr u -> u ≠ []) ->
  forall acc d,
    (forall k v, (k, v) ∈ acc -> v ≠ []) ->
    index_links self links acc = inr d ->
    forall k v, (k, v) ∈ d -> v ≠ [].
Proof.
  intros Hjoin. induction links as [|link rest IH]; intros acc d Hacc; simpl.
  - intros [= <-]. exact Hacc.
  - destruct (truthy _ && _); [|apply IH, Hacc].
    destruct (urljoin _ _) as [e|u] eqn:Eu; [discriminate|].
    apply IH. intros k v Hin.
    apply elem_dict_set in Hin as [[= -> ->]|Hin]; [|eapply Hacc, Hin].
    eapply Hjoin, Eu.
Qed.

(** C1.  For every title and every link index, that is, every index the
    Link Indexer builds from the anchors of a page (lines 56-66 and
    390-398, the only places that fill it): when the index holds the title
    as a key, the Matcher returns the URL stored under this key, whatever
    the other keys, also when another key stands before it and holds the
    first three words of the title.  The values of the index are results
    of [urljoin] on the base address of the site, which returns no empty
    string. *)
Theorem exact_match_precedence (links : list node) (article_links : dict str)
        (clean_title url : str) :
  (forall href u, urljoin (base_url self) href = inr u -> u ≠ []) ->
  index_links self links [] = inr article_links ->
  dict_get article_links clean_title = Some url ->
  exact_match clean_title article_links = Some url
  /\ match_url clean_title article_links = Some url
  /\ matched clean_title article_links = Some url.
Proof.
  intros Hjoin Hd Hget.
  assert (Hin : (clean_title, url) ∈ article_links)
    by (apply dict_get_elem, Hget).
  assert (Hnd : NoDup (keys article_links)).
  { eapply index_links_NoDup; [|exact Hd]. apply NoDup_nil_2. }
  assert (Hu : url ≠ []).
  { eapply (index_links_urls links Hjoin [] article_links); eauto.
    intros k v H. apply elem_of_nil in H. contradiction. }
  split; [apply exact_match_found; assumption|].
  apply exact_match_wins; assumption.
Qed.

End Index.

(** Two anchors: the text of the first holds the three words of the title,
    the text of the second is the title; the second gives the URL. *)
Lemma exact_match_precedence_witness :
  @index_links basic_tables no_library (ITWorldNewsCrawler 15 3)
     [Elem (py "a") [(py "href", py "/article/1")]
           [Text (py "AI chip market grows fast")];
      Elem (py "a") [(py "href", py "/article/2")]
           [Text (py "AI chip market")]] []
  = inr [(py "ai chip market grows fast", py "https://www.itworld.co.kr/article/1");
         (py "ai chip market", py "https://www.itworld.co.kr/article/2")]
  /\ @partial_match basic_tables (py "ai chip market")
       [(py "ai chip market grows fast", py "https://www.itworld.co.kr/article/1");
        (py "ai chip market", py "https://www.itworld.co.kr/article/2")]
     = Some (py "https://www.itworld.co.kr/article/1")
  /\ @matched basic_tables (py "ai chip market")
       [(py "ai chip market grows fast", py "https://www.itworld.co.kr/article/1");
        (py "ai chip market", py "https://www.itworld.co.kr/article/2")]
     = Some (py "https://www.itworld.co.kr/article/2").
Proof.
  split; [vm_compute; reflexivity|]. split; [vm_compute; reflexivity|].
  apply (@exact_match_precedence basic_tables no_library (ITWorldNewsCrawler 15 3)
           [Elem (py "a") [(py "href", py "/article/1")]
                 [Text (py "AI chip market grows fast")];
            Elem (py "a") [(py "href", py "/article/2")]
                 [Text (py "AI chip market")]]
           [(py "ai chip market grows fast", py "https://www.itworld.co.kr/article/1");
            (py "ai chip market", py "https://www.itworld.co.kr/article/2")]
           (py "ai chip market") (py "https://www.itworld.co.kr/article/2")).
  - intros href u H. vm_compute in H. injection H as <-. discriminate.
  - vm_compute. reflexivity.
  - vm_compute. reflexivity.
Defined.

Lemma occurrences_cons tag k l :
  occurrences tag (k :: l) = (if str_eqb tag k then 1 else 0) + occurrences tag l.
Proof. unfold occurrences. simpl. destruct (str_eqb tag k); reflexivity. Qed.

Lemma occurrences_pos tag l : tag ∈ l <-> 0 < occurrences tag l.
Proof.
  induction l as [|k l IH].
  - unfold occurrences. simpl. rewrite elem_of_nil. lia.
  - rewrite occurrences_cons, elem_of_cons, IH.
    destruct (str_eqb tag k) eqn:E.
    + apply str_eqb_eq in E. split; [lia|auto].
    + apply str_eqb_neq in E. split; [intros [?|?]; [contradiction|lia]|].
      intros H. right. lia.
Qed.

Lemma count_key_get counts k tag :
  default 0 (dict_get (count_key counts k) tag)
  = default 0 (dict_get counts tag) + (if str_eqb tag k then 1 else 0).
Proof.
  unfold count_key. rewrite dict_get_set.
  destruct (str_eqb tag k) eqn:E; [|simpl; lia].
  apply str_eqb_eq in E. subst k. reflexivity.
Qed.

Lemma fold_count_key l : forall counts,
  NoDup (keys counts) ->
  NoDup (keys (fold_left count_key l counts))
  /\ (forall tag,
        default 0 (dict_get (fold_left count_key l counts) tag)
        = default 0 (dict_get counts tag) + occurrences tag l)
  /\ (forall tag, tag ∈ keys (fold_left count_key l counts)
                  <-> tag ∈ keys counts \/ tag ∈ l).
Proof.
  induction l as [|k l IH]; intros counts Hnd; simpl.
  - split; [exact Hnd|]. split.
    + intros tag. unfold occurrences. simpl. lia.
    + intros tag. rewrite elem_of_nil. tauto.
  - destruct (IH (count_key counts k)) as (H1 & H2 & H3).
    { apply NoDup_dict_set, Hnd. }
    split; [exact H1|]. split.
    + intros tag. rewrite H2, count_key_get, occurrences_cons. lia.
    + intros tag. rewrite H3. unfold count_key at 1.
      rewrite keys_dict_set, elem_of_cons. tauto.
Qed.

Lemma tally_tags_flat news_list :
  tally_tags news_list = fold_left count_key (all_tags news_list) [].
Proof.
  unfold tally_tags, all_tags. generalize (@nil (str * nat)).
  induction news_list as [|n r IH]; intros acc; simpl; [reflexivity|].
  rewrite fold_left_app. apply IH.
Qed.

(** *** The stable sort *)

Lemma insert_desc_perm x l : Permutation (insert_desc x l) (x :: l).
Proof.
  induction l as [|y r IH]; simpl; [reflexivity|].
  destruct (snd y <=? snd x); [reflexivity|].
  rewrite IH. apply perm_swap.
Qed.

Lemma sorted_desc_perm l : Permutation (sorted_desc l) l.
Proof.
  induction l as [|x r IH]; simpl; [reflexivity|].
  rewrite insert_desc_perm. apply perm_skip, IH.
Qed.

Lemma insert_desc_sorted x l :
  StronglySorted (fun a b => snd b <= snd a) l ->
  StronglySorted (fun a b => snd b <= snd a) (insert_desc x l).
Proof.
  induction 1 as [|y r Hr IH Hy]; simpl.
  - constructor; constructor.
  - destruct (snd y <=? snd x) eqn:E.
    + apply Nat.leb_le in E. constructor; [constructor; assumption|].
      constructor; [exact E|].
      eapply Forall_impl; [exact Hy|]. simpl. intros z Hz. lia.
    + apply Nat.leb_gt in E. constructor; [exact IH|].
      rewrite insert_desc_perm. constructor; [lia|exact Hy].
Qed.

Lemma sorted_desc_sorted l :
  StronglySorted (fun a b => snd b <= snd a) (sorted_desc l).
Proof.
  induction l as [|x r IH]; simpl; [constructor|].
  apply insert_desc_sorted, IH.
Qed.

(** C8.  The categories form a mapping (no tag twice) that gives every tag
    of the records the number of its occurrences in the flattened tag lists
    and holds no other tag; its entries stand in descending order of count;
    and three records tagged [ai, cloud], [ai] and nothing yield
    [{ai: 2, cloud: 1}]. *)
Theorem categories_histogram (news_list : list news_item) :
  NoDup (keys (_extract_categories news_list))
  /\ (forall tag, tag ∈ all_tags news_list ->
        dict_get (_extract_categories news_list) tag
        = Some (occurrences tag (all_tags news_list)))
  /\ (forall tag, tag ∉ all_tags news_list ->
        dict_get (_extract_categories news_list) tag = None)
  /\ StronglySorted (fun a b => snd b <= snd a) (_extract_categories news_list)
  /\ (forall n1 n2 n3,
        tags n1 = [py "ai"; py "cloud"] -> tags n2 = [py "ai"] -> tags n3 = [] ->
        _extract_categories [n1; n2; n3] = [(py "ai", 2); (py "cloud", 1)]).
Proof.
  unfold _extract_categories. rewrite tally_tags_flat.
  destruct (fold_count_key (all_tags news_list) []) as (Hnd & Hcount & Hkeys).
  { apply NoDup_nil_2. }
  set (counts := fold_left count_key (all_tags news_list) []) in *.
  assert (Hget : forall tag, dict_get (sorted_desc counts) tag = dict_get counts tag).
  { intros tag. apply dict_get_perm; [exact Hnd|]. symmetry. apply sorted_desc_perm. }
  split; [|split; [|split; [|split]]].
  - unfold keys. rewrite sorted_desc_perm. exact Hnd.
  - intros tag Hin. rewrite Hget.
    specialize (Hcount tag). simpl in Hcount.
    destruct (dict_get counts tag) as [v|] eqn:E; [simpl in Hcount; congruence|].
    apply dict_get_absent in E. exfalso. apply E, Hkeys. right. exact Hin.
  - intros tag Hnin. rewrite Hget. apply dict_get_absent.
    rewrite Hkeys. simpl. rewrite elem_of_nil. tauto.
  - apply sorted_desc_sorted.
  - intros n1 n2 n3 H1 H2 H3. rewrite tally_tags_flat. unfold all_tags. simpl.
    rewrite H1, H2, H3. vm_compute. reflexivity.
Qed.

Lemma categories_histogram_witness :
  _extract_categories
    [sample (py "AI 반도체 시장 전망과 과제") None [py "ai"; py "cloud"] None;
     sample (py "생성형 AI 도입 기업이 늘고 있다") None [py "ai"] None;
     sample (py "오픈소스 보안 점검 가이드") None [] None]
  = [(py "ai", 2); (py "cloud", 1)].
Proof.
  apply (categories_histogram []); reflexivity.
Defined.

(** ** The latest date *)

Lemma str_ltb_nil_r a : str_ltb a [] = false.
Proof. destruct a; reflexivity. Qed.

Lemma str_ltb_irrefl a : str_ltb a a = false.
Proof.
  induction a as [|x a IH]; simpl; [reflexivity|].
  rewrite N.ltb_irrefl, N.eqb_refl, IH. reflexivity.
Qed.

Lemma str_ltb_trans a : forall b c,
  str_ltb a b = true -> str_ltb b c = true -> str_ltb a c = true.
Proof.
  induction a as [|x a IH]; intros [|y b] [|z c]; simpl; try congruence.
  rewrite !orb_true_iff, !andb_true_iff, !N.ltb_lt, !N.eqb_eq.
  intros [Hxy|[Hxy Hab]] [Hyz|[Hyz Hbc]].
  - left. lia.
  - left. lia.
  - left. lia.
  - right. split; [lia|]. eapply IH; eauto.
Qed.

Lemma str_ltb_total a : forall b,
  str_ltb a b = false -> str_ltb b a = true \/ a = b.
Proof.
  induction a as [|x a IH]; intros [|y b]; simpl; try congruence; auto.
  rewrite orb_false_iff, andb_false_iff, orb_true_iff, andb_true_iff.
  rewrite !N.ltb_ge, !N.ltb_lt, !N.eqb_eq, N.eqb_neq.
  intros [Hyx [Hne|Hab]].
  - left. left. lia.
  - destruct (N.eq_dec x y) as [->|Hne]; [|left; left; lia].
    destruct (IH b Hab) as [Hba| ->]; [left; right; auto|right; reflexivity].
Qed.

(** The loop of [max]: the result is the start or an item, and nothing
    seen is larger. *)
Lemma fold_max_spec r : forall m,
  let out := fold_left (fun m y => if str_ltb m y then y else m) r m in
  (out = m \/ out ∈ r)
  /\ str_ltb out m = false
  /\ (forall x, x ∈ r -> str_ltb out x = false).
Proof.
  induction r as [|y r IH]; intros m; simpl.
  - split; [left; reflexivity|]. split; [apply str_ltb_irrefl|].
    intros x Hx. apply elem_of_nil in Hx. contradiction.
  - destruct (str_ltb m y) eqn:E.
    + destruct (IH y) as (Hin & Hy & Hall). simpl in Hin, Hy, Hall.
      split; [right; destruct Hin as [->|Hin];
              [apply list_elem_of_here|apply list_elem_of_further, Hin]|].
      split.
      * set (out := fold_left _ r y) in *.
        destruct (str_ltb out m) eqn:E'; [|reflexivity].
        rewrite (str_ltb_trans _ _ _ E' E) in Hy. discriminate.
      * intros x Hx. apply elem_of_cons in Hx as [->|Hx]; auto.
    + destruct (IH m) as (Hin & Hm & Hall). simpl in Hin, Hm, Hall.
      split; [destruct Hin as [->|Hin];
              [left; reflexivity|right; apply list_elem_of_further, Hin]|].
      split; [exact Hm|].
      intros x Hx. apply elem_of_cons in Hx as [->|Hx]; [|auto].
      set (out := fold_left _ r m) in *.
      destruct (str_ltb out y) eqn:E'; [|reflexivity].
      destruct (str_ltb_total _ _ E) as [Hym| ->].
      * rewrite (str_ltb_trans _ _ _ E' Hym) in Hm. discriminate.
      * rewrite E' in Hm. discriminate.
Qed.

Lemma py_max_spec l d :
  l ≠ [] ->
  py_max l d ∈ l /\ (forall x, x ∈ l -> str_ltb (py_max l d) x = false).
Proof.
  destruct l as [|x r]; [congruence|]. intros _. simpl.
  destruct (fold_max_spec r x) as (Hin & Hx & Hall). simpl in Hin, Hx, Hall.
  split.
  - destruct Hin as [->|Hin]; [apply list_elem_of_here|apply list_elem_of_further, Hin].
  - intros y Hy. apply elem_of_cons in Hy as [->|Hy]; auto.
Qed.

Lemma present_dates_elem news_list d :
  d ∈ present_dates news_list <-> d ∈ dates_of news_list /\ d ≠ [].
Proof.
  unfold present_dates, dates_of. rewrite !list_elem_of_omap. split.
  - intros (n & Hn & Hd). destruct (publish_date n) as [d'|] eqn:E; [|discriminate].
    destruct (truthy d') eqn:T; [|discriminate]. injection Hd as ->.
    split; [exists n; auto|]. apply truthy_nonempty, T.
  - intros [(n & Hn & Hd) Hne]. exists n. split; [exact Hn|].
    rewrite Hd. apply truthy_nonempty in Hne. rewrite Hne. reflexivity.
Qed.

(** C6, as amended.  For a list that is not empty the summary exists, and
    its [latest_date] is the largest, in the lexicographic order of
    strings, of the dates of the records that have one, and the empty
    string when none has; the dates 2024-01-05 and 2024-03-01 with a
    record without date give 2024-03-01. *)
Theorem latest_date_is_max (news_list : list news_item) :
  news_list ≠ [] ->
  exists s,
    _generate_summary news_list = Some s
    /\ (dates_of news_list = [] -> latest_date s = [])
    /\ (dates_of news_list ≠ [] ->
        latest_date s ∈ dates_of news_list
        /\ (forall d, d ∈ dates_of news_list -> str_ltb (latest_date s) d = false))
    /\ (forall n1 n2 n3,
          publish_date n1 = Some (py "2024-01-05") ->
          publish_date n2 = Some (py "2024-03-01") ->
          publish_date n3 = None ->
          latest_date <$> _generate_summary [n1; n2; n3] = Some (py "2024-03-01")).
Proof.
  intros Hne. destruct news_list as [|n0 r]; [congruence|].
  set (l := n0 :: r) in *.
  exists {| total_articles := length l;
            date_distribution :=
              fold_left (fun dates news =>
                           count_key dates (default (py "Unknown") (publish_date news)))
                        l [];
            content_type_distribution :=
              fold_left (fun content_types news =>
                           count_key content_types
                                     (default (py "Unknown") (content_type news)))
                        l [];
            latest_date := py_max (present_dates l) [];
            has_images :=
              length (List.filter (fun n => truthy_opt (image_url n)) l) |}.
  split; [reflexivity|]. cbn [latest_date].
  split; [|split].
  - intros Hd. destruct (present_dates l) as [|d p] eqn:E; [reflexivity|].
    assert (Hin : d ∈ present_dates l) by (rewrite E; apply list_elem_of_here).
    apply present_dates_elem in Hin as [Hin _].
    rewrite Hd in Hin. apply elem_of_nil in Hin. contradiction.
  - intros Hd. destruct (present_dates l) as [|d0 p] eqn:E.
    + assert (Hall : forall d, d ∈ dates_of l -> d = []).
      { intros d Hin. destruct d as [|c d]; [reflexivity|].
        assert (Hp : (c :: d) ∈ present_dates l)
          by (apply present_dates_elem; split; [exact Hin|discriminate]).
        rewrite E in Hp. apply elem_of_nil in Hp. contradiction. }
      change (py_max [] []) with (@nil char). split.
      * assert (Hex : exists d, d ∈ dates_of l).
        { destruct (dates_of l) as [|d ds]; [congruence|].
          exists d. apply list_elem_of_here. }
        destruct Hex as [d Hin]. rewrite <- (Hall d Hin). exact Hin.
      * intros d Hin. rewrite (Hall d Hin). reflexivity.
    + rewrite <- E. destruct (py_max_spec (present_dates l) []) as [Hin Hmax].
      { rewrite E. discriminate. }
      split; [apply present_dates_elem in Hin; tauto|].
      intros d Hd'. destruct d as [|c d]; [apply str_ltb_nil_r|].
      apply Hmax, present_dates_elem. split; [exact Hd'|discriminate].
  - intros n1 n2 n3 H1 H2 H3. simpl. unfold present_dates. simpl.
    rewrite H1, H2, H3. vm_compute. reflexivity.
Qed.

Lemma latest_date_is_max_witness :
  latest_date <$>
    _generate_summary
      [sample (py "AI 반도체 시장 전망과 과제") None [] (Some (py "2024-01-05"));
       sample (py "생성형 AI 도입 기업이 늘고 있다") None [] (Some (py "2024-03-01"));
       sample (py "오픈소스 보안 점검 가이드") None [] None]
  = Some (py "2024-03-01").
Proof.
  destruct (latest_date_is_max
              [sample (py "AI 반도체 시장 전망과 과제") None [] (Some (py "2024-01-05"));
               sample (py "생성형 AI 도입 기업이 늘고 있다") None [] (Some (py "2024-03-01"));
               sample (py "오픈소스 보안 점검 가이드") None [] None])
    as (s & _ & _ & _ & H).
  - discriminate.
  - apply H; reflexivity.
Defined.

(** C6, as stated, fails on the empty list: [_generate_summary] returns the
    empty dictionary there, which has no [latest_date]. *)
Lemma latest_date_of_no_records :
  latest_date <$> _generate_summary [] ≠ Some [].
Proof. simpl. discriminate. Qed.

(** ** The title of a card *)

Section Titles.
Context {U : Unicode} {L : Library} {O : Outside}.
Variable self : crawler.

Lemma heading_title_first (card : node) (header_tags : list str) :
  heading_title header_tags card
  = head (List.filter (fun s => 10 <? length s)
            (omap (fun header_tag => get_text_strip <$> find (is_tag header_tag) card)
                  header_tags)).
Proof.
  induction header_tags as [|tag rest IH]; simpl; [reflexivity|].
  destruct (find (is_tag tag) card) as [header|]; simpl; [|exact IH].
  destruct (10 <? length (get_text_strip header)); simpl; [reflexivity|exact IH].
Qed.

Lemma heading_title_long (card : node) (header_tags : list str) title :
  heading_title header_tags card = Some title -> 10 < length title.
Proof.
  induction header_tags as [|tag rest IH]; simpl; [discriminate|].
  destruct (find (is_tag tag) card) as [header|]; [|exact IH].
  destruct (10 <? length (get_text_strip header)) eqn:E; [|exact IH].
  intros [= <-]. apply Nat.ltb_lt, E.
Qed.

Lemma extract_title_nonempty (card : node) title :
  extract_title card = Some title -> title ≠ [].
Proof.
  unfold extract_title. cbv zeta.
  match goal with
  | |- (if truthy_opt ?x then _ else _) = _ -> _ =>
    destruct (truthy_opt x) eqn:E; [|intros H; discriminate H]
  end.
  intros H. rewrite H in E. apply truthy_nonempty, E.
Qed.

(** C9, as amended.  The title is the text of the dedicated element when
    that text is not empty; otherwise it is the first text longer than 10
    characters among the first [h2], the first [h3] and the first [h4] of
    the card, in this order, later headings of a kind not being looked at.
    With no title the extractor returns nothing; with a title it returns a
    record bearing it, unless joining the image address raises, which
    makes it return nothing too. *)
Theorem title_cascade (card : node) (article_links : dict str) (t : trace) :
  (forall e, card_title_elem card = Some e -> get_text_strip e ≠ [] ->
             extract_title card = Some (get_text_strip e))
  /\ (truthy_opt (get_text_strip <$> card_title_elem card) = false ->
      extract_title card
      = head (List.filter (fun s => 10 <? length s) (first_headings card)))
  /\ (extract_title card = None ->
      _extract_news_from_card self card article_links t = (inr None, t))
  /\ (forall title', extract_title card = Some title' ->
        title' ≠ []
        /\ match extract_image self card with
           | inr _ =>
             exists n,
               _extract_news_from_card self card article_links t
               = (inr (Some n), NOW :: t)
               /\ title n = title'
           | inl _ =>
             _extract_news_from_card self card article_links t = (inr None, t)
           end).
Proof.
  split; [|split; [|split]].
  - intros e He Hne. unfold extract_title. rewrite He. simpl.
    apply truthy_nonempty in Hne. rewrite Hne. simpl. rewrite Hne. reflexivity.
  - intros Hd. unfold extract_title. rewrite Hd.
    unfold first_headings. rewrite <- (heading_title_first card).
    fold header_tags.
    destruct (heading_title header_tags card) as [title'|] eqn:E.
    + apply heading_title_long in E.
      destruct title' as [|c r]; [simpl in E; lia|reflexivity].
    + rewrite Hd. reflexivity.
  - intros Hno. unfold _extract_news_from_card, try_except. rewrite Hno. reflexivity.
  - intros title' Ht. split; [eapply extract_title_nonempty, Ht|].
    unfold _extract_news_from_card, try_except, bind, lift, now, ret, raise.
    rewrite Ht. destruct (extract_image self card) as [e|image]; [reflexivity|].
    eexists. split; reflexivity.
Qed.

End Titles.

(** C9, as stated, fails: when the first [h2] is short the code does not
    look at the second one, which the wording selects, and returns
    nothing. *)
Lemma second_heading_ignored :
  @spec_title basic_tables two_headings
  = Some (py "AI 반도체 시장 전망과 과제 분석")
  /\ @extract_title basic_tables two_headings = None
  /\ fst (@_extract_news_from_card basic_tables no_library offline
             (ITWorldNewsCrawler 15 3) two_headings [] [])
     = inr None.
Proof. repeat split; vm_compute; reflexivity. Qed.

(** ** Failure of the page fetch *)

Section Failure.
Context {U : Unicode} {L : Library} {O : Outside}.
Variable self : crawler.

Lemma attempt_get_fails url t :
  request_fails (http t url (timeout self)) = true ->
  attempt_get url (timeout self) t = (inr (inl tt), GET url (timeout self) :: t).
Proof.
  unfold attempt_get, request_fails.
  destruct (http t url (timeout self)) as [status text|msg|msg]; intros H.
  - rewrite H. reflexivity.
  - reflexivity.
  - discriminate H.
Qed.

(** The loop, entered at attempt [k] after [k] failures, with all further
    attempts failing too, gives up after the last one. *)
Lemma attempts_fail url t n : forall k,
  k + n = max_retries self ->
  fetch_fails self url t ->
  attempts self url (seq k n) (backoff_trace self url k t)
  = (inr None, backoff_trace self url (k + n) t).
Proof.
  induction n as [|n IH]; intros k Hk Hfail; simpl.
  - rewrite Nat.add_0_r. reflexivity.
  - unfold bind at 1. rewrite attempt_get_fails by (apply Hfail; lia).
    replace (k + S n) with (S k + n) by lia.
    rewrite <- IH by (assumption || lia). simpl.
    unfold bind, sleep, ret. destruct (k <? max_retries self - 1); reflexivity.
Qed.

Lemma make_request_fails url t :
  fetch_fails self url t ->
  _make_request self url t
  = (inr None, backoff_trace self url (max_retries self) t).
Proof.
  intros H. unfold _make_request.
  apply (attempts_fail url t (max_retries self) 0); [reflexivity|exact H].
Qed.

Lemma create_error_result_returns msg t :
  _create_error_result msg t
  = (inr {| success := false;
            error := Some msg;
            timestamp := strftime (clock t);
            news_list := [];
            result_source := None;
            result_url := None;
            total_news := None;
            categories := None;
            result_summary := None;
            content_included := None |}, NOW :: t).
Proof. reflexivity. Qed.

Lemma crawl_never_raises include_content t :
  exists r t', crawl_main_page_news self include_content t = (inr r, t').
Proof.
  unfold crawl_main_page_news, try_except.
  match goal with |- context [match ?c t with _ => _ end] => destruct (c t) as [[e|r] t'] end.
  - rewrite create_error_result_returns. eauto.
  - eauto.
Qed.

End Failure.

(** ** Collecting the article contents *)

Lemma bind_inr {A B} (c : M A) (k : A -> M B) t a t1 :
  c t = (inr a, t1) -> bind c k t = k a t1.
Proof. intros H. unfold bind. rewrite H. reflexivity. Qed.

Lemma map_M_Forall2 {A B} (f : A -> M B) (R : A -> B -> Prop) :
  (forall x t, exists y t', f x t = (inr y, t') /\ R x y) ->
  forall l t, exists ys t', map_M f l t = (inr ys, t') /\ Forall2 R l ys.
Proof.
  intros Hf. induction l as [|x l IH]; intros t; simpl.
  - exists [], t. split; [reflexivity|constructor].
  - destruct (Hf x t) as (y & t1 & Hy & HR).
    destruct (IH t1) as (ys & t2 & Hys & HRs).
    exists (y :: ys), t2. unfold bind. rewrite Hy, Hys.
    split; [reflexivity|constructor; assumption].
Qed.

Lemma add_content_same_card news article_content :
  same_card news (add_content news article_content).
Proof.
  unfold same_card, add_content.
  destruct article_content as [e ts|u fields c]; simpl; [tauto|].
  destruct (truthy (a_author fields) && negb (truthy_opt (author news))) eqn:Ea;
    destruct (truthy (a_publish_date fields) && negb (truthy_opt (publish_date news)))
      eqn:Ed; simpl; try rewrite Ea; try rewrite Ed; simpl;
    repeat split; auto; intros T; rewrite T in *; simpl in *;
    rewrite ?andb_false_r in *; congruence.
Qed.

Section Collecting.
Context {U : Unicode} {L : Library} {O : Outside}.
Variable self : crawler.

Lemma get_article_content_returns url t :
  exists article_content t',
    get_article_content self url t = (inr article_content, t').
Proof.
  unfold get_article_content, try_except.
  match goal with |- context [match ?c t with _ => _ end] => destruct (c t) as [[e|a] t'] end.
  - unfold bind. rewrite create_error_result_returns. eauto.
  - eauto.
Qed.

(** A fetch that fails at every attempt makes [get_article_content] return
    its error dictionary. *)
Lemma article_fetch_failure url t :
  fetch_fails self url t ->
  get_article_content self url t
  = (inr (ArticleError (py "기사에 접근할 수 없습니다.")
                       (strftime (clock (backoff_trace self url (max_retries self) t)))),
     NOW :: backoff_trace self url (max_retries self) t).
Proof.
  intros H. unfold get_article_content, try_except, bind at 1.
  rewrite (make_request_fails _ _ _ H). reflexivity.
Qed.

(** One turn of the loop: a record without URL is returned as it is; for
    one with a URL the answer of [get_article_content] is written into
    it. *)
Lemma collect_article_spec news t :
  exists news' t',
    collect_article self news t = (inr news', t')
    /\ (truthy_opt (url news) = false -> news' = news /\ t' = t)
    /\ (forall u, url news = Some u -> u ≠ [] ->
          exists article_content t1,
            get_article_content self u t = (inr article_content, t1)
            /\ news' = add_content news article_content
            /\ t' = SLEEP 1 :: t1).
Proof.
  unfold collect_article.
  destruct (url news) as [u|] eqn:Eu; simpl.
  - destruct (truthy u) eqn:T.
    + destruct (get_article_content_returns u t) as (ac & t1 & Hac).
      unfold try_except, bind. rewrite Hac. simpl.
      eexists _, _. split; [reflexivity|]. split; [discriminate|].
      intros u' [= <-] _. eauto.
    + exists news, t. split; [reflexivity|]. split; [auto|].
      intros u' [= <-] Hne. apply truthy_nonempty in Hne. congruence.
  - exists news, t. split; [reflexivity|]. split; [auto|]. discriminate.
Qed.

(** The loop over a list in two parts: the second part starts in the
    state the first part leaves. *)
Lemma collect_app pre post t :
  exists out_pre t0 out_post t',
    _collect_article_contents self pre t = (inr out_pre, t0)
    /\ _collect_article_contents self post t0 = (inr out_post, t')
    /\ _collect_article_contents self (pre ++ post) t
       = (inr (out_pre ++ out_post), t').
Proof.
  unfold _collect_article_contents. revert t.
  induction pre as [|news pre IH]; intros t.
  - destruct (map_M_Forall2 (collect_article self) (fun _ _ => True)) with (l := post) (t := t)
      as (out_post & t' & Hpost & _).
    { intros x t0. destruct (collect_article_spec x t0) as (y & t1 & H & _). eauto. }
    exists [], t, out_post, t'. simpl. auto.
  - destruct (collect_article_spec news t) as (news' & t1 & Hrun & _).
    destruct (IH t1) as (out_pre & t0 & out_post & t' & Hpre & Hpost & Hall).
    exists (news' :: out_pre), t0, out_post, t'. simpl.
    rewrite !(bind_inr _ _ _ _ _ Hrun), (bind_inr _ _ _ _ _ Hpre),
      (bind_inr _ _ _ _ _ Hall).
    split; [reflexivity|]. split; [exact Hpost|reflexivity].
Qed.

(** C4, as amended.  Collecting the contents raises nothing and returns a
    record for every record of the list, in order.  Take any record of the
    list, [pre] being the records before it and [post] those after it, and
    let [t0] be the state in which its turn begins, that is, the state
    that collecting [pre] leaves.  Without URL the record is returned
    untouched, with no content keys, and the state stays [t0].  With a URL
    the record is what [get_article_content], called on this URL in
    [t0], makes of it: when every attempt of this fetch fails, or the call
    reports an error, the record gets [full_content = ''] and
    [content_length = 0]; when the page is read it gets the content and
    its length.  In every case its other keys are those it had, the
    records before it are those that collecting [pre] alone returns, and
    the records after it are those that collecting [post] returns from the
    state its turn leaves. *)
Theorem collect_contents_isolated (pre : list news_item) (news : news_item)
        (post : list news_item) (t : trace) :
  exists out_pre t0 news' t1 out_post t',
    _collect_article_contents self (pre ++ news :: post) t
    = (inr (out_pre ++ news' :: out_post), t')
    /\ _collect_article_contents self pre t = (inr out_pre, t0)
    /\ length out_pre = length pre
    /\ _collect_article_contents self post t1 = (inr out_post, t')
    /\ length out_post = length post
    /\ same_card news news'
    /\ (truthy_opt (url news) = false -> news' = news /\ t1 = t0)
    /\ (forall u, url news = Some u -> u ≠ [] ->
          exists article_content t2,
            get_article_content self u t0 = (inr article_content, t2)
            /\ t1 = SLEEP 1 :: t2
            /\ match article_content with
               | ArticleError _ _ =>
                 news' = set_content news []
                 /\ full_content news' = Some []
                 /\ content_length news' = Some 0
               | Article _ fields _ =>
                 full_content news' = Some (a_content fields)
                 /\ content_length news' = Some (length (a_content fields))
               end
            /\ (fetch_fails self u t0 ->
                news' = set_content news []
                /\ full_content news' = Some []
                /\ content_length news' = Some 0
                /\ t2 = NOW :: backoff_trace self u (max_retries self) t0)).
Proof.
  destruct (collect_app pre (news :: post) t)
    as (out_pre & t0 & out & t' & Hpre & Hrest & Hall).
  destruct (collect_article_spec news t0) as (news' & t1 & Hrun & Hnone & Hsome).
  destruct (collect_app [] post t1)
    as (o & t1' & out_post & t'' & Hnil & Hpost & _).
  injection Hnil as <- <-.
  assert (Hcons : _collect_article_contents self (news :: post) t0
                  = (inr (news' :: out_post), t'')).
  { unfold _collect_article_contents in *. simpl.
    rewrite (bind_inr _ _ _ _ _ Hrun), (bind_inr _ _ _ _ _ Hpost). reflexivity. }
  rewrite Hcons in Hrest. injection Hrest as <- <-.
  assert (Hlen : forall l t2 o2 t3,
             _collect_article_contents self l t2 = (inr o2, t3) ->
             length o2 = length l).
  { intros l t2 o2 t3 H.
    destruct (map_M_Forall2 (collect_article self) (fun _ _ => True)) with (l := l) (t := t2)
      as (o3 & t4 & H3 & HF).
    { intros x t5. destruct (collect_article_spec x t5) as (y & t6 & Hy & _). eauto. }
    unfold _collect_article_contents in H. rewrite H in H3. injection H3 as <- _.
    symmetry. eapply Forall2_length, HF. }
  exists out_pre, t0, news', t1, out_post, t''.
  split; [exact Hall|]. split; [exact Hpre|]. split; [eapply Hlen, Hpre|].
  split; [exact Hpost|]. split; [eapply Hlen, Hpost|].
  split; [|split].
  - destruct (url news) as [u|] eqn:Eu.
    + destruct (truthy u) eqn:T.
      * destruct (Hsome u eq_refl) as (ac & t2 & _ & -> & _).
        { apply truthy_nonempty, T. }
        apply add_content_same_card.
      * destruct Hnone as [-> _]; [exact T|]. unfold same_card. tauto.
    + destruct Hnone as [-> _]; [reflexivity|]. unfold same_card. tauto.
  - exact Hnone.
  - intros u Hu Hne. destruct (Hsome u Hu Hne) as (ac & t2 & Hac & -> & ->).
    exists ac, t2. split; [exact Hac|]. split; [reflexivity|]. split.
    + destruct ac as [e ts|a fields c]; [repeat split|].
      unfold add_content.
      destruct (_ && _); destruct (_ && _); split; reflexivity.
    + intros Hfail. rewrite (article_fetch_failure _ _ Hfail) in Hac.
      injection Hac as <- <-. repeat split.
Qed.

End Collecting.

(** C4, as stated, fails for a record without URL: the loop skips it, so it
    gets no [content_length] key at all, where one that failed gets 0. *)
Lemma no_url_no_content_length :
  fst (@_collect_article_contents no_library offline
         (ITWorldNewsCrawler 15 3)
         [sample (py "오픈소스 보안 점검 가이드") None [] None] [])
  = inr [sample (py "오픈소스 보안 점검 가이드") None [] None]
  /\ content_length (sample (py "오픈소스 보안 점검 가이드") None [] None) ≠ Some 0.
Proof. split; [vm_compute; reflexivity|discriminate]. Qed.

(** Three records on a site where the second article cannot be fetched:
    the second record comes back with a content length of 0, the fetch
    having failed in the state that the first record left. *)
Lemma collect_contents_isolated_witness :
  match fst (@_collect_article_contents demo_library flaky
               (ITWorldNewsCrawler 15 3)
               ([sample (py "AI 반도체 시장 전망과 과제")
                        (Some (py "https://www.itworld.co.kr/article/1")) [] None]
                ++ sample (py "생성형 AI 도입 기업이 늘고 있다")
                          (Some (py "https://www.itworld.co.kr/article/2")) [] None
                :: [sample (py "오픈소스 보안 점검 가이드")
                           (Some (py "https://www.itworld.co.kr/article/3")) [] None])
               []) with
  | inr [_; second; _] =>
    full_content second = Some [] /\ content_length second = Some 0
  | _ => False
  end.
Proof.
  destruct (@collect_contents_isolated demo_library flaky (ITWorldNewsCrawler 15 3)
              [sample (py "AI 반도체 시장 전망과 과제")
                      (Some (py "https://www.itworld.co.kr/article/1")) [] None]
              (sample (py "생성형 AI 도입 기업이 늘고 있다")
                      (Some (py "https://www.itworld.co.kr/article/2")) [] None)
              [sample (py "오픈소스 보안 점검 가이드")
                      (Some (py "https://www.itworld.co.kr/article/3")) [] None]
              [])
    as (out_pre & t0 & news' & t1 & out_post & t' & Hall & _ & Hpre & _ & Hpost
        & _ & _ & Hsome).
  rewrite Hall. cbn [fst].
  destruct out_pre as [|a [|]]; try discriminate Hpre.
  destruct out_post as [|b [|]]; try discriminate Hpost.
  cbn [app].
  destruct (Hsome (py "https://www.itworld.co.kr/article/2") eq_refl)
    as (ac & t2 & _ & _ & _ & Hfail).
  { vm_compute. discriminate. }
  destruct Hfail as (_ & Hc & Hl & _); [|auto].
  intros attempt _. reflexivity.
Defined.

(** ** Titles of the records of a result *)

Lemma for_each_inv {A B} (f : A -> B -> M B) (I : B -> Prop) :
  (forall x acc t, I acc -> exists acc' t', f x acc t = (inr acc', t') /\ I acc') ->
  forall l acc t, I acc ->
    exists acc' t', for_each f l acc t = (inr acc', t') /\ I acc'.
Proof.
  intros Hf. induction l as [|x l IH]; intros acc t Hacc; simpl.
  - exists acc, t. split; [reflexivity|exact Hacc].
  - destruct (Hf x acc t Hacc) as (acc1 & t1 & H1 & HI).
    rewrite (bind_inr _ _ _ _ _ H1). apply IH, HI.
Qed.

Section ResultTitles.
Context {U : Unicode} {L : Library} {O : Outside}.
Variable self : crawler.

Local Abbreviation titled := (Forall (fun n : news_item => title n ≠ [])).

Lemma extract_returns card article_links t :
  exists item t',
    _extract_news_from_card self card article_links t = (inr item, t')
    /\ (forall n, item = Some n -> title n ≠ []).
Proof.
  unfold _extract_news_from_card, try_except, bind, lift, now, ret, raise.
  destruct (extract_title card) as [title'|] eqn:Et.
  - destruct (extract_image self card) as [e|image].
    + eexists _, _. split; [reflexivity|]. discriminate.
    + eexists _, _. split; [reflexivity|]. intros n [= <-]. simpl.
      eapply extract_title_nonempty, Et.
  - eexists _, _. split; [reflexivity|]. discriminate.
Qed.

Lemma append_item_titled item news_list :
  (forall n, item = Some n -> title n ≠ []) ->
  titled news_list -> titled (append_item item news_list).
Proof.
  intros Hi Hl. destruct item as [n|]; simpl; [|exact Hl].
  apply Forall_app_2; [exact Hl|]. apply Forall_singleton. auto.
Qed.

Lemma append_new_titled item news_list :
  (forall n, item = Some n -> title n ≠ []) ->
  titled news_list -> titled (append_new item news_list).
Proof.
  intros Hi Hl. destruct item as [n|]; simpl; [|exact Hl].
  destruct (existsb _ news_list); [exact Hl|].
  apply Forall_app_2; [exact Hl|]. apply Forall_singleton. auto.
Qed.

Lemma main_cards_titled article_links soup t :
  exists news_list t',
    main_cards self article_links soup t = (inr news_list, t') /\ titled news_list.
Proof.
  unfold main_cards. apply for_each_inv; [|constructor].
  intros card acc t0 Hacc.
  destruct (extract_returns card article_links t0) as (item & t1 & H1 & Hi).
  rewrite (bind_inr _ _ _ _ _ H1). eexists _, _. split; [reflexivity|].
  apply append_item_titled; assumption.
Qed.

Lemma secondary_cards_titled article_links cards news_list t :
  titled news_list ->
  exists news_list' t',
    for_each (fun card news_list =>
                do news_item <- _extract_news_from_card self card article_links;
                ret (append_new news_item news_list)) cards news_list t
    = (inr news_list', t')
    /\ titled news_list'.
Proof.
  apply for_each_inv. intros card acc t0 Hacc.
  destruct (extract_returns card article_links t0) as (item & t1 & H1 & Hi).
  rewrite (bind_inr _ _ _ _ _ H1). eexists _, _. split; [reflexivity|].
  apply append_new_titled; assumption.
Qed.

Lemma content_row_titled article_links row news_list t :
  titled news_list ->
  exists news_list' t',
    content_row self article_links row news_list t = (inr news_list', t')
    /\ titled news_list'.
Proof.
  intros Hl. unfold content_row.
  assert (Hmain : exists l1 t1,
             match find (is_div_of (py "content-row-article__main")) row with
             | Some main_article =>
               match find (is_div_of (py "card")) main_article with
               | Some main_card =>
                 do news_item <- _extract_news_from_card self main_card article_links;
                 ret (append_new news_item news_list)
               | None => ret news_list
               end
             | None => ret news_list
             end t = (inr l1, t1) /\ titled l1).
  { destruct (find _ row) as [main_article|]; [|eexists _, _; split; [reflexivity|exact Hl]].
    destruct (find _ main_article) as [main_card|];
      [|eexists _, _; split; [reflexivity|exact Hl]].
    destruct (extract_returns main_card article_links t) as (item & t1 & H1 & Hi).
    rewrite (bind_inr _ _ _ _ _ H1). eexists _, _. split; [reflexivity|].
    apply append_new_titled; assumption. }
  destruct Hmain as (l1 & t1 & H1 & Hl1).
  rewrite (bind_inr _ _ _ _ _ H1).
  destruct (find (is_div_of (py "content-row-article__secondary")) row)
    as [secondary_section|].
  - apply secondary_cards_titled, Hl1.
  - eexists _, _. split; [reflexivity|exact Hl1].
Qed.

Lemma content_rows_titled article_links soup news_list t :
  titled news_list ->
  exists news_list' t',
    content_rows self article_links soup news_list t = (inr news_list', t')
    /\ titled news_list'.
Proof.
  unfold content_rows. apply for_each_inv.
  intros row acc t0 Hacc. apply content_row_titled, Hacc.
Qed.

Lemma dedup_sublist news_list : dedup news_list `sublist_of` news_list.
Proof.
  unfold dedup.
  destruct (dedup_loop_spec news_list [] ∅) as (added & Heq & Hsub & _).
  - intros x. simpl. rewrite elem_of_nil. set_solver.
  - simpl. apply NoDup_nil_2.
  - simpl in Heq. rewrite Heq. exact Hsub.
Qed.

Lemma dedup_titled news_list : titled news_list -> titled (dedup news_list).
Proof.
  intros H. apply List.Forall_forall. intros n Hn.
  rewrite List.Forall_forall in H. apply H.
  apply list_elem_of_In. eapply elem_of_sublist; [|apply dedup_sublist].
  apply list_elem_of_In, Hn.
Qed.

Lemma collect_same_titles news_list t :
  exists out t',
    _collect_article_contents self news_list t = (inr out, t')
    /\ title <$> out = title <$> news_list.
Proof.
  destruct (map_M_Forall2 (collect_article self)
              (fun news news' => title news' = title news)) with (l := news_list) (t := t)
    as (out & t' & Hrun & Hall).
  - intros news t0.
    destruct (collect_article_spec self news t0) as (news' & t1 & Hrun & Hnone & Hsome).
    exists news', t1. split; [exact Hrun|].
    destruct (url news) as [u|] eqn:Eu.
    + destruct (truthy u) eqn:T.
      * destruct (Hsome u eq_refl) as (ac & t2 & _ & -> & _).
        { apply truthy_nonempty, T. }
        apply add_content_same_card.
      * destruct Hnone as [-> _]; [exact T|reflexivity].
    + destruct Hnone as [-> _]; reflexivity.
  - exists out, t'. split; [exact Hrun|].
    clear Hrun. induction Hall as [|news news' l l' Ht _ IH]; [reflexivity|].
    rewrite !fmap_cons. congruence.
Qed.

Lemma titled_fmap (l l' : list news_item) :
  title <$> l' = title <$> l -> titled l -> titled l'.
Proof.
  revert l. induction l' as [|n' l' IH]; intros [|n l] He Hl;
    simpl in He; try discriminate; [constructor|].
  injection He as Hn He. inversion Hl as [|? ? Hn0 Hl0]; subst.
  constructor; [rewrite Hn; exact Hn0|]. eapply IH; eassumption.
Qed.

Lemma crawl_error_message e : py "크롤링 중 오류 발생: " ++ e ≠ [].
Proof. vm_compute. intros H. discriminate H. Qed.

(** A result is the error dictionary, with a message and no news, or the
    dictionary of a completed crawl. *)
Lemma crawl_result_cases include_content t r t' :
  crawl_main_page_news self include_content t = (inr r, t') ->
  (success r = false
   /\ (exists e, error r = Some e /\ e ≠ [])
   /\ news_list r = [])
  \/ (success r = true /\ error r = None /\ titled (news_list r)).
Proof.
  unfold crawl_main_page_news, try_except.
  match goal with |- context [match ?c t with _ => _ end] =>
    destruct (c t) as [[e|r0] t0] eqn:Hbody end.
  - rewrite create_error_result_returns. intros [= <- _]. left. simpl.
    split; [reflexivity|]. split; [|reflexivity].
    eexists. split; [reflexivity|]. apply crawl_error_message.
  - intros [= <- _]. revert Hbody. unfold bind at 1.
    destruct (_make_request self (base_url self) t) as [[e|[text|]] t1];
      [discriminate| |].
    2:{ rewrite create_error_result_returns. intros [= <- _]. left. simpl.
        split; [reflexivity|]. split; [|reflexivity].
        eexists. split; [reflexivity|]. vm_compute. intros H. discriminate H. }
    unfold bind at 1, lift.
    destruct (index_links self _ []) as [e|article_links]; [discriminate|].
    unfold ret at 1.
    destruct (main_cards_titled article_links (parse_html text) t1)
      as (l1 & t2 & H1 & Hl1).
    rewrite (bind_inr _ _ _ _ _ H1).
    destruct (content_rows_titled article_links (parse_html text) l1 t2 Hl1)
      as (l2 & t3 & H2 & Hl2).
    rewrite (bind_inr _ _ _ _ _ H2).
    apply dedup_titled in Hl2.
    destruct include_content.
    + destruct (collect_same_titles (dedup l2) t3) as (out & t4 & H3 & Ht).
      rewrite (bind_inr _ _ _ _ _ H3).
      unfold bind, now, ret. intros [= <- _]. right. simpl.
      split; [reflexivity|]. split; [reflexivity|].
      eapply titled_fmap; eassumption.
    + unfold bind, now, ret. intros [= <- _]. right. simpl. auto.
Qed.

Lemma crawl_titled include_content t r t' :
  crawl_main_page_news self include_content t = (inr r, t') ->
  titled (news_list r).
Proof.
  intros H. destruct (crawl_result_cases _ _ _ _ H) as [(_ & _ & ->)|(_ & _ & Ht)].
  - constructor.
  - exact Ht.
Qed.

(** The URL of a record is what the Matcher finds for its normalised
    title. *)
Lemma extract_url card article_links t n t' :
  _extract_news_from_card self card article_links t = (inr (Some n), t') ->
  url n = matched (_clean_title_for_matching (title n)) article_links.
Proof.
  unfold _extract_news_from_card, try_except, bind, lift, now, ret, raise.
  destruct (extract_title card) as [title'|]; [|discriminate].
  destruct (extract_image self card) as [e|image]; [discriminate|].
  intros [= <- _]. reflexivity.
Qed.

(** C10.  A crawl returns a result, and every record of its [news_list]
    has a title that is not empty.  For the extractor returns only records
    with such a title, deduplication returns records of its input, and
    collecting the contents leaves the titles as they are. *)
Theorem titles_never_empty (include_content : bool) (t : trace) :
  (exists r t',
     crawl_main_page_news self include_content t = (inr r, t')
     /\ Forall (fun n => title n ≠ []) (news_list r))
  /\ (forall card article_links t0,
        exists item t1,
          _extract_news_from_card self card article_links t0 = (inr item, t1)
          /\ (forall n, item = Some n -> title n ≠ []))
  /\ (forall news_list, dedup news_list `sublist_of` news_list)
  /\ (forall news_list t0,
        exists out t1,
          _collect_article_contents self news_list t0 = (inr out, t1)
          /\ title <$> out = title <$> news_list).
Proof.
  split; [|split; [|split]].
  - destruct (crawl_never_raises self include_content t) as (r & t' & Hr).
    exists r, t'. split; [exact Hr|]. eapply crawl_titled, Hr.
  - apply extract_returns.
  - apply dedup_sublist.
  - apply collect_same_titles.
Qed.

End ResultTitles.

(** ** The result of a failed fetch *)

Section FailureResult.
Context {U : Unicode} {L : Library} {O : Outside}.
Variable self : crawler.


End FailureResult.

Lemma offline_fetch_fails self url t : @fetch_fails offline self url t.
Proof. intros attempt _. reflexivity. Qed.


(** ** Retries of [_make_request] *)

Section Retries.
Context {U : Unicode} {L : Library} {O : Outside}.
Variable self : crawler.

(** After [k] failed attempts the loop stands at attempt [k]. *)
Lemma attempts_skip url t k : forall n,
  k + n = max_retries self ->
  (forall i, i < k ->
     request_fails (http (backoff_trace self url i t) url (timeout self)) = true) ->
  attempts self url (seq 0 (max_retries self)) t
  = attempts self url (seq k n) (backoff_trace self url k t).
Proof.
  induction k as [|k IH]; intros n Hn Hfail.
  - simpl in *. subst n. reflexivity.
  - rewrite (IH (S n)) by (lia || (intros; apply Hfail; lia)).
    simpl. unfold bind at 1.
    rewrite (attempt_get_fails self) by (apply Hfail; lia).
    unfold bind, sleep, ret. destruct (k <? max_retries self - 1); reflexivity.
Qed.

(** X1.  When the first [k] attempts fail and the next one is answered
    with a status that is no error, [_make_request] returns that answer;
    it has sent [k + 1] requests and slept [2 ^ i] seconds after the
    failed attempt [i]. *)
Theorem make_request_retry (url : str) (t : trace) (k status : nat) (text : str) :
  k < max_retries self ->
  (forall i, i < k ->
     request_fails (http (backoff_trace self url i t) url (timeout self)) = true) ->
  http (backoff_trace self url k t) url (timeout self) = Response status text ->
  is_error_status status = false ->
  _make_request self url t
  = (inr (Some text), GET url (timeout self) :: backoff_trace self url k t).
Proof.
  intros Hk Hfail Hresp Hok. unfold _make_request.
  rewrite (attempts_skip url t k (max_retries self - k)) by (lia || assumption).
  destruct (max_retries self - k) as [|n] eqn:En; [lia|].
  simpl. unfold bind, attempt_get. rewrite Hresp, Hok. reflexivity.
Qed.

(** X2.  An exception of [session.get] that is no [RequestException] is
    not retried: [_make_request] lets it through at once, and
    [crawl_main_page_news] reports it in its error result, whose message
    ends with the text of the exception. *)
Theorem other_exception_reported (include_content : bool) (t : trace)
        (k : nat) (e : str) :
  k < max_retries self ->
  (forall i, i < k ->
     request_fails
       (http (backoff_trace self (base_url self) i t) (base_url self) (timeout self))
     = true) ->
  http (backoff_trace self (base_url self) k t) (base_url self) (timeout self)
  = OtherException e ->
  _make_request self (base_url self) t
  = (inl e, GET (base_url self) (timeout self)
              :: backoff_trace self (base_url self) k t)
  /\ exists r,
      crawl_main_page_news self include_content t
      = (inr r, NOW :: GET (base_url self) (timeout self)
                    :: backoff_trace self (base_url self) k t)
      /\ success r = false
      /\ error r = Some (py "크롤링 중 오류 발생: " ++ e)
      /\ news_list r = [].
Proof.
  intros Hk Hfail Hexc.
  assert (Hreq : _make_request self (base_url self) t
                 = (inl e, GET (base_url self) (timeout self)
                             :: backoff_trace self (base_url self) k t)).
  { unfold _make_request.
    rewrite (attempts_skip _ t k (max_retries self - k)) by (lia || assumption).
    destruct (max_retries self - k) as [|n] eqn:En; [lia|].
    simpl. unfold bind, attempt_get. rewrite Hexc. reflexivity. }
  split; [exact Hreq|].
  eexists. split.
  - unfold crawl_main_page_news, try_except, bind at 1. rewrite Hreq.
    rewrite create_error_result_returns. reflexivity.
  - simpl. auto.
Qed.

Lemma requests_app s1 s2 : requests (s1 ++ s2) = requests s1 + requests s2.
Proof. unfold requests. rewrite List.filter_app, length_app. reflexivity. Qed.

Lemma slept_app s1 s2 : slept (s1 ++ s2) = slept s1 + slept s2.
Proof. induction s1 as [|[] s1 IH]; simpl; lia. Qed.

Lemma spaced_weaken s : forall armed,
  spaced true s = true -> spaced armed s = true.
Proof.
  induction s as [|[u n|n|] s IH]; intros armed H; simpl in *.
  - reflexivity.
  - discriminate H.
  - destruct n; [apply IH, H|exact H].
  - apply IH, H.
Qed.

(** A spaced stretch of the trace before which a sleep comes first can
    follow any spaced stretch. *)
Lemma spaced_app s2 s1 : forall armed,
  spaced armed s2 = true -> spaced true s1 = true ->
  spaced armed (s2 ++ s1) = true.
Proof.
  induction s2 as [|[u n|n|] s2 IH]; intros armed H2 H1; simpl in *.
  - apply spaced_weaken, H1.
  - apply andb_true_iff in H2 as [-> H2]. simpl. apply IH; assumption.
  - destruct n; apply IH; assumption.
  - apply IH; assumption.
Qed.

Lemma asks_app G s1 s2 :
  asks self G s1 -> asks self G s2 -> asks self G (s1 ++ s2).
Proof. unfold asks. intros H1 H2. apply Forall_app. auto. Qed.

Lemma asks_impl (G G' : str -> Prop) s :
  (forall u, G u -> G' u) -> asks self G s -> asks self G' s.
Proof.
  unfold asks. intros HG H. eapply Forall_impl; [exact H|].
  intros [u n|n|]; simpl; auto. intros [Hu Hn]. auto.
Qed.

(** What the loop adds to the trace, entered at attempt [k]: at most one
    request per turn, all to [url]; sleeps that stay below
    [2 ^ (max_retries - 1)] together with those of the turns before; and a
    sleep between any two requests. *)
Lemma attempts_bounds url n : forall k t,
  k + n = max_retries self ->
  exists seg r,
    attempts self url (seq k n) t = (r, seg ++ t)
    /\ requests seg <= n
    /\ (n = 0 -> seg = [])
    /\ (0 < n -> slept seg + 2 ^ k <= 2 ^ (max_retries self - 1))
    /\ spaced false seg = true
    /\ asks self (eq url) seg.
Proof.
  assert (Hget : asks self (eq url) [GET url (timeout self)]).
  { constructor; [split; reflexivity|constructor]. }
  induction n as [|n IH]; intros k t Hk; simpl.
  - exists [], (inr None). split; [reflexivity|]. split; [unfold requests; simpl; lia|].
    split; [reflexivity|]. split; [lia|]. split; [reflexivity|constructor].
  - unfold bind at 1, attempt_get.
    assert (Hlast : 0 < n -> 2 ^ k + 2 ^ k <= 2 ^ (max_retries self - 1)).
    { intros Hn. replace (max_retries self - 1) with (S k + (n - 1)) by lia.
      rewrite Nat.pow_add_r. simpl.
      assert (1 <= 2 ^ (n - 1)) by (apply Nat.neq_0_lt_0, Nat.pow_nonzero; lia).
      nia. }
    assert (Hpow : 2 ^ k <= 2 ^ (max_retries self - 1))
      by (apply Nat.pow_le_mono_r; lia).
    assert (Hone : (1 <=? 2 ^ k) = true).
    { apply Nat.leb_le, Nat.neq_0_lt_0, Nat.pow_nonzero. lia. }
    assert (Hfailed : exists seg r,
               (do _ <- (if k <? max_retries self - 1 then sleep (2 ^ k) else ret tt);
                attempts self url (seq (S k) n))
                 (GET url (timeout self) :: t) = (r, seg ++ t)
               /\ requests seg <= S n
               /\ slept seg + 2 ^ k <= 2 ^ (max_retries self - 1)
               /\ spaced false seg = true
               /\ asks self (eq url) seg).
    { unfold bind, sleep, ret.
      destruct (k <? max_retries self - 1) eqn:Ek.
      - destruct (IH (S k) (SLEEP (2 ^ k) :: GET url (timeout self) :: t))
          as (seg & r & Hrun & Hreq & Hnil & Hsl & Hsp & Hasks); [lia|].
        exists (seg ++ [SLEEP (2 ^ k); GET url (timeout self)]), r.
        rewrite <- app_assoc. simpl. split; [exact Hrun|].
        apply Nat.ltb_lt in Ek.
        assert (Hn : 0 < n) by lia.
        specialize (Hsl Hn). simpl in Hsl.
        rewrite requests_app, slept_app. simpl.
        split; [unfold requests at 2; simpl; lia|]. split; [lia|].
        split.
        + apply spaced_app; [exact Hsp|]. cbn [spaced]. rewrite Hone. reflexivity.
        + apply asks_app; [exact Hasks|]. constructor; [exact I|exact Hget].
      - apply Nat.ltb_ge in Ek. assert (n = 0) by lia. subst n. simpl.
        exists [GET url (timeout self)], (inr None).
        split; [reflexivity|]. simpl.
        split; [unfold requests; simpl; lia|]. split; [exact Hpow|].
        split; [reflexivity|exact Hget]. }
    destruct (http t url (timeout self)) as [status text|msg|msg].
    + destruct (is_error_status status).
      * destruct Hfailed as (seg & r & Hrun & Hreq & Hsl & Hsp).
        exists seg, r. split; [exact Hrun|]. split; [exact Hreq|].
        split; [lia|auto].
      * exists [GET url (timeout self)], (inr (Some text)).
        split; [reflexivity|]. split; [unfold requests; simpl; lia|].
        split; [lia|]. simpl. split; [intros _; exact Hpow|].
        split; [reflexivity|exact Hget].
    + destruct Hfailed as (seg & r & Hrun & Hreq & Hsl & Hsp).
      exists seg, r. split; [exact Hrun|]. split; [exact Hreq|].
      split; [lia|auto].
    + exists [GET url (timeout self)], (inl msg).
      split; [reflexivity|]. split; [unfold requests; simpl; lia|].
      split; [lia|]. simpl. split; [intros _; exact Hpow|].
      split; [reflexivity|exact Hget].
Qed.

(** X3.  Whatever the site answers, [_make_request] sends at most
    [max_retries] requests and sleeps less than [2 ^ (max_retries - 1)]
    seconds in all; with [max_retries = 0] it sends nothing and returns
    [None]. *)
Theorem make_request_bounds (url : str) (t : trace) :
  (exists seg r,
     _make_request self url t = (r, seg ++ t)
     /\ requests seg <= max_retries self
     /\ slept seg < 2 ^ (max_retries self - 1))
  /\ (max_retries self = 0 -> _make_request self url t = (inr None, t)).
Proof.
  split.
  - unfold _make_request.
    destruct (attempts_bounds url (max_retries self) 0 t eq_refl)
      as (seg & r & Hrun & Hreq & Hnil & Hsl & _ & _).
    exists seg, r. split; [exact Hrun|]. split; [exact Hreq|].
    destruct (max_retries self) as [|m] eqn:Em.
    + rewrite Hnil by reflexivity. simpl. lia.
    + specialize (Hsl ltac:(lia)). rewrite Nat.pow_0_r in Hsl. lia.
  - intros H0. unfold _make_request. rewrite H0. reflexivity.
Qed.

End Retries.

Lemma make_request_retry_witness :
  @_make_request recovering (ITWorldNewsCrawler 15 3)
     (py "https://www.itworld.co.kr") []
  = (inr (Some (py "<html></html>")),
     [GET (py "https://www.itworld.co.kr") 15;
      SLEEP 1;
      GET (py "https://www.itworld.co.kr") 15]).
Proof.
  apply (@make_request_retry recovering (ITWorldNewsCrawler 15 3)
           (py "https://www.itworld.co.kr") [] 1 200 (py "<html></html>")).
  - simpl. lia.
  - intros [|i] Hi; [reflexivity|lia].
  - reflexivity.
  - reflexivity.
Defined.

Lemma other_exception_reported_witness :
  match fst (@crawl_main_page_news basic_tables no_library broken
               (ITWorldNewsCrawler 15 3) true []) with
  | inr r =>
    success r = false
    /\ error r = Some (py "크롤링 중 오류 발생: embedded null byte")
  | inl _ => False
  end.
Proof.
  destruct (@other_exception_reported basic_tables no_library broken
              (ITWorldNewsCrawler 15 3) true [] 0 (py "embedded null byte"))
    as (_ & r & Hr & Hs & He & _).
  - simpl. lia.
  - intros i Hi. lia.
  - reflexivity.
  - rewrite Hr. simpl. split; [exact Hs|]. rewrite He. vm_compute. reflexivity.
Defined.

(** A crawler that is allowed no attempt asks for nothing. *)
Lemma make_request_bounds_witness :
  @_make_request offline (ITWorldNewsCrawler 15 0)
     (py "https://www.itworld.co.kr") []
  = (inr None, []).
Proof.
  apply (@make_request_bounds offline (ITWorldNewsCrawler 15 0)
           (py "https://www.itworld.co.kr") []).
  reflexivity.
Defined.

(** ** The link index *)

Lemma filter_filter_and {A} (P Q : A -> bool) (l : list A) :
  List.filter P (List.filter Q l) = List.filter (fun x => P x && Q x) l.
Proof.
  induction l as [|x l IH]; simpl; [reflexivity|].
  destruct (Q x); simpl; [destruct (P x); simpl; rewrite IH; reflexivity|].
  rewrite andb_false_r. exact IH.
Qed.

Lemma filter_ext_in' {A} (P Q : A -> bool) (l : list A) :
  (forall x, P x = Q x) -> List.filter P l = List.filter Q l.
Proof.
  intros H. induction l as [|x l IH]; simpl; [reflexivity|].
  rewrite H, IH. reflexivity.
Qed.

Lemma existsb_str_eqb k ks : existsb (str_eqb k) ks = true <-> k ∈ ks.
Proof.
  induction ks as [|x ks IH]; simpl.
  - rewrite elem_of_nil. split; [discriminate|tauto].
  - rewrite orb_true_iff, elem_of_cons, IH, str_eqb_eq. tauto.
Qed.

Lemma keys_add_key {V} (d : dict V) k v :
  keys (dict_set d k v) = add_key (keys d) k.
Proof.
  unfold add_key. induction d as [|[k0 v0] r IH]; simpl; [reflexivity|].
  destruct (str_eqb k k0) eqn:E; simpl.
  - apply str_eqb_eq in E. subst k0. reflexivity.
  - rewrite IH. destruct (existsb (str_eqb k) (keys r)); reflexivity.
Qed.

(** Adding keys one by one lists the new ones in the order of their first
    occurrence. *)
Lemma fold_add_key l : forall ks,
  fold_left add_key l ks
  = ks ++ List.filter (fun k => negb (existsb (str_eqb k) ks)) (first_seen l).
Proof.
  induction l as [|x l IH]; intros ks; simpl.
  - rewrite app_nil_r. reflexivity.
  - rewrite IH. unfold add_key.
    destruct (existsb (str_eqb x) ks) eqn:E; simpl.
    + f_equal. rewrite filter_filter_and. apply filter_ext_in'. intros y.
      destruct (existsb (str_eqb y) ks) eqn:Ey; simpl; [reflexivity|].
      destruct (str_eqb y x) eqn:Eyx; [|reflexivity].
      apply str_eqb_eq in Eyx. subst y. congruence.
    + rewrite <- app_assoc. simpl. f_equal. f_equal.
      rewrite filter_filter_and. apply filter_ext_in'. intros y.
      rewrite existsb_app. simpl. rewrite orb_false_r, negb_orb. reflexivity.
Qed.

Lemma first_seen_NoDup l : NoDup (first_seen l).
Proof.
  induction l as [|x l IH]; simpl; [apply NoDup_nil_2|].
  apply NoDup_cons. split.
  - intros H. apply list_elem_of_In, List.filter_In in H as [_ H].
    rewrite str_eqb_refl in H. discriminate.
  - apply NoDup_ListNoDup, List.NoDup_filter, NoDup_ListNoDup, IH.
Qed.

Lemma first_seen_elem l x : x ∈ first_seen l <-> x ∈ l.
Proof.
  induction l as [|y l IH]; simpl; [reflexivity|].
  rewrite !elem_of_cons, <- IH.
  rewrite (list_elem_of_In (List.filter _ _) x), List.filter_In, <- list_elem_of_In.
  rewrite negb_true_iff, str_eqb_neq.
  destruct (decide (x = y)); tauto.
Qed.

Section IndexFacts.
Context {U : Unicode} {L : Library}.
Variable self : crawler.

Lemma index_links_keys links : forall acc d,
  index_links self links acc = inr d ->
  keys d = fold_left add_key (map link_key (List.filter indexable links)) (keys acc).
Proof.
  induction links as [|link rest IH]; intros acc d; simpl.
  - intros [= <-]. reflexivity.
  - unfold indexable at 1.
    destruct (truthy (get_text_strip link) && (10 <? length (get_text_strip link)));
      simpl; [|apply IH].
    destruct (urljoin _ _) as [e|u]; [discriminate|].
    intros H. rewrite (IH _ _ H), keys_add_key. reflexivity.
Qed.

Lemma clean_title_length x : length (_clean_title_for_matching x) <= 50.
Proof. unfold _clean_title_for_matching. rewrite length_take. lia. Qed.

(** X4.  The keys of the index are the normalised texts of the anchors
    it takes (those with a text longer than 10 characters), each once, in
    the order in which they first occur on the page; no key is longer
    than 50 characters. *)
Theorem index_keys_in_page_order (links : list node) (d : dict str) :
  index_links self links [] = inr d ->
  keys d = first_seen (map link_key (List.filter indexable links))
  /\ NoDup (keys d)
  /\ Forall (fun k => length k <= 50) (keys d).
Proof.
  intros H.
  assert (E : keys d = first_seen (map link_key (List.filter indexable links))).
  { rewrite (index_links_keys _ _ _ H), fold_add_key. simpl.
    induction (first_seen _) as [|x l IH]; simpl; [reflexivity|].
    rewrite IH. reflexivity. }
  split; [exact E|]. split; [rewrite E; apply first_seen_NoDup|].
  rewrite E. apply List.Forall_forall. intros k Hk.
  apply list_elem_of_In, first_seen_elem, list_elem_of_In, in_map_iff in Hk
    as (link & <- & _).
  apply clean_title_length.
Qed.

Lemma no_link_cons link rest k :
  no_link (link :: rest) k
  <-> (indexable link = true -> link_key link ≠ k) /\ no_link rest k.
Proof. unfold no_link. apply Forall_cons. Qed.

Lemma last_link_cons link rest k u :
  last_link self (link :: rest) k u
  <-> last_link self rest k u
      \/ (indexable link = true /\ link_key link = k
          /\ urljoin (base_url self) (link_href link) = inr u
          /\ no_link rest k).
Proof.
  unfold last_link. split.
  - intros (pre & l0 & post & Heq & H).
    destruct pre as [|p pre]; simpl in Heq; injection Heq as <- ->.
    + right. tauto.
    + left. exists pre, l0, post. tauto.
  - intros [(pre & l0 & post & -> & H)|H].
    + exists (link :: pre), l0, post. tauto.
    + exists [], link, rest. tauto.
Qed.

Lemma index_links_lookup links : forall acc d,
  index_links self links acc = inr d ->
  forall k u,
    dict_get d k = Some u
    <-> last_link self links k u \/ (no_link links k /\ dict_get acc k = Some u).
Proof.
  induction links as [|link rest IH]; intros acc d; simpl.
  - intros [= <-] k u. split.
    + intros H. right. split; [constructor|exact H].
    + intros [(pre & l0 & post & Heq & _)|[_ H]]; [|exact H].
      destruct pre; discriminate Heq.
  - fold (indexable link). fold (link_key link). fold (link_href link).
    destruct (indexable link) eqn:Ei.
    + destruct (urljoin (base_url self) (link_href link)) as [e|u0] eqn:Eu;
        [discriminate|].
      intros H k u. rewrite (IH _ _ H), last_link_cons, no_link_cons, dict_get_set.
      rewrite Eu. destruct (str_eqb k (link_key link)) eqn:Ek.
      * apply str_eqb_eq in Ek. subst k. split.
        -- intros [Hl|[Hn [= ->]]]; [tauto|]. left. right. tauto.
        -- intros [[Hl|(_ & _ & [= ->] & Hn)]|[[Hne _] _]]; [tauto|tauto|].
           exfalso. exact (Hne Ei eq_refl).
      * apply str_eqb_neq in Ek. split.
        -- intros [Hl|[Hn Hg]]; [tauto|]. right. split; [|exact Hg].
           split; [|exact Hn]. intros _ Heq. apply Ek. symmetry. exact Heq.
        -- intros [[Hl|(_ & Heq & _)]|[[_ Hn] Hg]]; [tauto| |tauto].
           exfalso. apply Ek. symmetry. exact Heq.
    + intros H k u. rewrite (IH _ _ H), last_link_cons, no_link_cons.
      split.
      * intros [Hl|[Hn Hg]]; [tauto|]. right. split; [|exact Hg].
        split; [congruence|exact Hn].
      * intros [[Hl|(Hf & _)]|[[_ Hn] Hg]]; [tauto|congruence|tauto].
Qed.

(** X5.  Later anchors overwrite earlier ones: the index maps a key to a
    URL exactly when the last anchor taken under this key points, through
    [urljoin], to this URL. *)
Theorem index_last_link_wins (links : list node) (d : dict str) (k u : str) :
  index_links self links [] = inr d ->
  (dict_get d k = Some u <-> last_link self links k u).
Proof.
  intros H. rewrite (index_links_lookup _ _ _ H). split.
  - intros [Hl|[_ Hg]]; [exact Hl|discriminate Hg].
  - auto.
Qed.

End IndexFacts.

Lemma index_keys_in_page_order_witness :
  @index_links basic_tables no_library (ITWorldNewsCrawler 15 3) demo_links []
  = inr demo_index
  /\ keys demo_index
     = [py "ai 반도체 시장 전망과 과제 분석"; py "cloud security market report 2024"]
  /\ NoDup (keys demo_index).
Proof.
  destruct (@index_keys_in_page_order basic_tables no_library
              (ITWorldNewsCrawler 15 3) demo_links demo_index)
    as (Hk & Hnd & _).
  - vm_compute. reflexivity.
  - split; [vm_compute; reflexivity|]. split; [|exact Hnd].
    rewrite Hk. vm_compute. reflexivity.
Defined.

(** The first and the third anchor of [demo_links] have one key: the
    index keeps the address of the third. *)
Lemma index_last_link_wins_witness :
  @last_link basic_tables no_library (ITWorldNewsCrawler 15 3) demo_links
    (py "ai 반도체 시장 전망과 과제 분석")
    (py "https://www.itworld.co.kr/article/101").
Proof.
  apply (@index_last_link_wins basic_tables no_library (ITWorldNewsCrawler 15 3)
           demo_links demo_index).
  - vm_compute. reflexivity.
  - vm_compute. reflexivity.
Defined.

(** ** What the Matcher returns *)

Lemma find_first {A} (f : A -> bool) (l : list A) (x : A) :
  List.find f l = Some x
  <-> exists pre post,
        l = pre ++ x :: post /\ f x = true /\ Forall (fun y => f y = false) pre.
Proof.
  induction l as [|y l IH]; simpl.
  - split; [discriminate|]. intros (pre & post & H & _). destruct pre; discriminate.
  - destruct (f y) eqn:E.
    + split.
      * intros [= ->]. exists [], l. repeat split; auto.
      * intros (pre & post & Heq & Hx & Hpre). destruct pre as [|p pre].
        -- injection Heq as -> _. reflexivity.
        -- injection Heq as -> _. inversion Hpre; congruence.
    + rewrite IH. split.
      * intros (pre & post & -> & Hx & Hpre). exists (y :: pre), post.
        repeat split; auto.
      * intros (pre & post & Heq & Hx & Hpre). destruct pre as [|p pre].
        -- injection Heq as -> _. congruence.
        -- injection Heq as -> ->. inversion Hpre; subst. exists pre, post. auto.
Qed.

Section MatcherSound.
Context {U : Unicode}.

Lemma exact_match_elem clean_title (d : dict str) u :
  exact_match clean_title d = Some u -> (clean_title, u) ∈ d.
Proof. apply dict_get_elem. Qed.

Lemma partial_match_elem clean_title (d : dict str) u :
  partial_match clean_title d = Some u ->
  3 <= length (split clean_title)
  /\ exists pre k post,
       d = pre ++ (k, u) :: post
       /\ words_in (split clean_title) k = true
       /\ Forall (fun kv => words_in (split clean_title) (fst kv) = false) pre.
Proof.
  unfold partial_match.
  destruct (3 <=? length (split clean_title)) eqn:E; [|discriminate].
  apply Nat.leb_le in E.
  destruct (List.find _ d) as [[k u']|] eqn:F; [|discriminate].
  intros [= <-]. split; [exact E|].
  apply find_first in F as (pre & post & -> & Hk & Hpre).
  exists pre, k, post. auto.
Qed.

(** The URL given to a record is one of the index, and it is not empty. *)
Lemma matched_in_index clean_title (d : dict str) u :
  matched clean_title d = Some u ->
  u ≠ []
  /\ exists k,
      (k, u) ∈ d
      /\ (k = clean_title
          \/ (3 <= length (split clean_title)
              /\ Forall (fun w => contains k w = true) (take 3 (split clean_title)))).
Proof.
  unfold matched.
  destruct (truthy_opt (match_url clean_title d)) eqn:T; [|discriminate].
  intros Hm. rewrite Hm in T. simpl in T. split; [apply truthy_nonempty, T|].
  revert Hm. unfold match_url.
  destruct (truthy_opt (exact_match clean_title d)) eqn:Te.
  - intros He. exists clean_title. split; [apply exact_match_elem, He|auto].
  - destruct (partial_match clean_title d) as [u'|] eqn:Ep.
    + intros [= ->]. apply partial_match_elem in Ep
        as (Hw & pre & k & post & -> & Hk & _).
      exists k. split; [apply elem_of_app; right; apply list_elem_of_here|].
      right. split; [exact Hw|].
      unfold words_in in Hk. apply List.Forall_forall. intros w Hin.
      rewrite forallb_forall in Hk. apply Hk, Hin.
    + intros He. rewrite He in Te. simpl in Te. congruence.
Qed.

(** X6.  The URL the Matcher gives to a record is never empty and is
    stored in the index, under a key that is the title or that contains
    each of its first three words.  When no exact key has a URL and the
    title has three words or more, the first key, in the order of the
    index, that contains these words gives the URL. *)
Theorem matcher_sound_first_wins (clean_title : str) (d : dict str) :
  (forall u, matched clean_title d = Some u ->
     u ≠ []
     /\ exists k,
         (k, u) ∈ d
         /\ (k = clean_title
             \/ (3 <= length (split clean_title)
                 /\ Forall (fun w => contains k w = true)
                           (take 3 (split clean_title)))))
  /\ (forall pre k u post,
        d = pre ++ (k, u) :: post ->
        truthy_opt (exact_match clean_title d) = false ->
        3 <= length (split clean_title) ->
        words_in (split clean_title) k = true ->
        Forall (fun kv => words_in (split clean_title) (fst kv) = false) pre ->
        match_url clean_title d = Some u).
Proof.
  split; [intros u; apply matched_in_index|].
  intros pre k u post Hd Te Hw Hk Hpre.
  unfold match_url. rewrite Te. unfold partial_match.
  apply Nat.leb_le in Hw. rewrite Hw.
  assert (F : List.find (fun kv => words_in (split clean_title) (fst kv)) d
              = Some (k, u)).
  { apply find_first. exists pre, post. auto. }
  rewrite F. reflexivity.
Qed.

(** X7.  A normalised title has at most 50 characters, holds only word
    characters, Hangul syllables and spaces, does not start with
    whitespace, and has whitespace only as single spaces; lower-casing it
    again changes nothing when lower-casing writes lowered code points
    only. *)
Theorem clean_title_normal_form (x : str) :
  length (_clean_title_for_matching x) <= 50
  /\ Forall (fun c => re_word c = true \/ hangul c = true \/ c = 32%N)
            (_clean_title_for_matching x)
  /\ lstrip (_clean_title_for_matching x) = _clean_title_for_matching x
  /\ tidy false (_clean_title_for_matching x)
  /\ (lower_stable ->
      lower (_clean_title_for_matching x) = _clean_title_for_matching x).
Proof.
  unfold _clean_title_for_matching.
  split; [rewrite length_take; lia|].
  split; [|split; [|split]].
  - apply Forall_take.
    pose proof (clean_untruncated_kept x) as Hk.
    pose proof (clean_untruncated_tidy x) as Ht. apply tidy_spaces in Ht.
    rewrite List.Forall_forall in *. intros c Hc.
    specialize (Hk c Hc). specialize (Ht c Hc). unfold kept in Hk.
    apply orb_true_iff in Hk as [Hk|Hk]; [|auto].
    apply orb_true_iff in Hk as [Hk|Hk]; auto.
  - apply (lstrip_fixed_prefix _ (drop 50 (clean_untruncated x))).
    rewrite take_drop. apply clean_untruncated_lstrip.
  - apply tidy_take, clean_untruncated_tidy.
  - intros H. unfold lower. apply lower_from_fixed.
    apply Forall_take, clean_untruncated_lowered, H.
Qed.

End MatcherSound.

(** A title that is no key of [demo_index], and whose first three words
    stand in the first key. *)
Lemma matcher_sound_first_wins_witness :
  @match_url basic_tables (py "ai 반도체 시장 동향") demo_index
  = Some (py "https://www.itworld.co.kr/article/101").
Proof.
  apply (proj2 (@matcher_sound_first_wins basic_tables
                  (py "ai 반도체 시장 동향") demo_index)
               [] (py "ai 반도체 시장 전망과 과제 분석")
               (py "https://www.itworld.co.kr/article/101")
               [(py "cloud security market report 2024",
                 py "https://www.itworld.co.kr/article/200")]).
  - reflexivity.
  - vm_compute. reflexivity.
  - vm_compute. lia.
  - vm_compute. reflexivity.
  - constructor.
Defined.

Lemma clean_title_normal_form_witness :
  @lower basic_tables
     (@_clean_title_for_matching basic_tables (py "  Hello,   World! 가나다 "))
  = @_clean_title_for_matching basic_tables (py "  Hello,   World! 가나다 ").
Proof.
  apply (@clean_title_normal_form basic_tables (py "  Hello,   World! 가나다 ")).
  apply basic_tables_stable.
Defined.

(** ** The records of the extractor *)

Section Records.
Context {U : Unicode} {L : Library} {O : Outside}.
Variable self : crawler.

Lemma description_of_long selectors card d :
  description_of selectors card = Some d -> 20 < length d.
Proof.
  induction selectors as [|s rest IH]; simpl; [discriminate|].
  destruct (select_one card s) as [e|]; [|exact IH].
  destruct (20 <? length (get_text_strip e)) eqn:E; [|exact IH].
  intros [= <-]. apply Nat.ltb_lt, E.
Qed.

Lemma filter_truthy l : Forall (fun s : str => s ≠ []) (List.filter truthy l).
Proof.
  apply List.Forall_forall. intros s Hs. apply List.filter_In in Hs as [_ Hs].
  apply truthy_nonempty, Hs.
Qed.

Lemma tags_of_nonempty selectors card :
  Forall (fun s : str => s ≠ []) (tags_of selectors card).
Proof.
  induction selectors as [|s rest IH]; simpl; [constructor|].
  destruct (select card s) as [|e es]; [exact IH|].
  exact (filter_truthy (map get_text_strip (e :: es))).
Qed.

Lemma extract_image_pair card image :
  extract_image self card = inr image ->
  (fst image = None /\ snd image = None)
  \/ (exists u alt, image = (Some u, Some alt)).
Proof.
  unfold extract_image.
  destruct (find (is_tag (py "img")) card) as [e|]; [|intros [= <-]; auto].
  destruct (image_src e) as [src|]; [|intros [= <-]; auto].
  destruct (truthy src); [|intros [= <-]; auto].
  destruct (urljoin _ _) as [err|u]; [discriminate|].
  intros [= <-]. right. eauto.
Qed.

(** X8.  A record that the extractor returns was stamped with one reading
    of the clock, bears the source label [ITWorld] and no content keys; its
    URL is what the Matcher finds for its normalised title, hence, when
    present, a URL of the index that is not empty; its description, when
    present, is longer than 20 characters; none of its tags is empty; and
    it has an image text exactly when it has an image address. *)
Theorem extracted_record (card : node) (article_links : dict str)
        (t t' : trace) (n : news_item) :
  _extract_news_from_card self card article_links t = (inr (Some n), t') ->
  t' = NOW :: t
  /\ crawled_at n = isoformat (clock t)
  /\ source n = py "ITWorld"
  /\ full_content n = None /\ content_length n = None
  /\ url n = matched (_clean_title_for_matching (title n)) article_links
  /\ (forall u, url n = Some u -> u ≠ [] /\ exists k, (k, u) ∈ article_links)
  /\ (forall d, description n = Some d -> 20 < length d)
  /\ Forall (fun s => s ≠ []) (tags n)
  /\ (image_url n = None <-> image_alt n = None).
Proof.
  unfold _extract_news_from_card, try_except, bind, lift, now, ret, raise.
  destruct (extract_title card) as [title'|]; [|discriminate].
  destruct (extract_image self card) as [e|image] eqn:Ei; [discriminate|].
  intros [= <- <-]. simpl.
  split; [reflexivity|]. split; [reflexivity|]. split; [reflexivity|].
  split; [reflexivity|]. split; [reflexivity|]. split; [reflexivity|].
  split; [|split; [|split]].
  - intros u Hu. apply matched_in_index in Hu as (Hne & k & Hk & _). eauto.
  - intros d Hd. eapply description_of_long, Hd.
  - apply tags_of_nonempty.
  - apply extract_image_pair in Ei as [[-> ->]|(u & alt & ->)]; simpl;
      [tauto|split; discriminate].
Qed.

Lemma extract_fresh card article_links t :
  exists item t',
    _extract_news_from_card self card article_links t = (inr item, t')
    /\ (forall n, item = Some n -> full_content n = None /\ content_length n = None).
Proof.
  unfold _extract_news_from_card, try_except, bind, lift, now, ret, raise.
  destruct (extract_title card) as [title'|].
  - destruct (extract_image self card) as [e|image].
    + eexists _, _. split; [reflexivity|]. discriminate.
    + eexists _, _. split; [reflexivity|]. intros n [= <-]. auto.
  - eexists _, _. split; [reflexivity|]. discriminate.
Qed.

End Records.

Lemma extracted_record_witness :
  @_extract_news_from_card basic_tables no_library offline
     (ITWorldNewsCrawler 15 3) titled_card demo_index []
  = (inr (Some demo_record), [NOW])
  /\ url demo_record
     = matched (U := basic_tables)
               (_clean_title_for_matching (U := basic_tables) (title demo_record))
               demo_index
  /\ (image_url demo_record = None <-> image_alt demo_record = None).
Proof.
  assert (H : @_extract_news_from_card basic_tables no_library offline
                 (ITWorldNewsCrawler 15 3) titled_card demo_index []
              = (inr (Some demo_record), [NOW]))
    by (vm_compute; reflexivity).
  split; [exact H|].
  destruct (@extracted_record basic_tables no_library offline
              (ITWorldNewsCrawler 15 3) titled_card demo_index [] [NOW]
              demo_record H)
    as (_ & _ & _ & _ & _ & Hu & _ & _ & _ & Hi).
  split; [exact Hu|exact Hi].
Defined.

(** ** Invariants of the loops over the cards *)

Section Gathering.
Context {U : Unicode} {L : Library} {O : Outside}.
Variable self : crawler.
Variable P : news_item -> Prop.
Hypothesis extract_P : forall card article_links t,
  exists item t',
    _extract_news_from_card self card article_links t = (inr item, t')
    /\ (forall n, item = Some n -> P n).

Lemma append_item_all item news_list :
  (forall n, item = Some n -> P n) ->
  Forall P news_list -> Forall P (append_item item news_list).
Proof.
  intros Hi Hl. destruct item as [n|]; simpl; [|exact Hl].
  apply Forall_app_2; [exact Hl|]. apply Forall_singleton. auto.
Qed.

Lemma append_new_all item news_list :
  (forall n, item = Some n -> P n) ->
  Forall P news_list -> Forall P (append_new item news_list).
Proof.
  intros Hi Hl. destruct item as [n|]; simpl; [|exact Hl].
  destruct (existsb _ news_list); [exact Hl|].
  apply Forall_app_2; [exact Hl|]. apply Forall_singleton. auto.
Qed.

Lemma cards_all article_links cards news_list t :
  Forall P news_list ->
  exists news_list' t',
    for_each (fun card news_list =>
                do news_item <- _extract_news_from_card self card article_links;
                ret (append_item news_item news_list)) cards news_list t
    = (inr news_list', t')
    /\ Forall P news_list'.
Proof.
  apply for_each_inv. intros card acc t0 Hacc.
  destruct (extract_P card article_links t0) as (item & t1 & H1 & Hi).
  rewrite (bind_inr _ _ _ _ _ H1). eexists _, _. split; [reflexivity|].
  apply append_item_all; assumption.
Qed.

Lemma new_cards_all article_links cards news_list t :
  Forall P news_list ->
  exists news_list' t',
    for_each (fun card news_list =>
                do news_item <- _extract_news_from_card self card article_links;
                ret (append_new news_item news_list)) cards news_list t
    = (inr news_list', t')
    /\ Forall P news_list'.
Proof.
  apply for_each_inv. intros card acc t0 Hacc.
  destruct (extract_P card article_links t0) as (item & t1 & H1 & Hi).
  rewrite (bind_inr _ _ _ _ _ H1). eexists _, _. split; [reflexivity|].
  apply append_new_all; assumption.
Qed.

Lemma main_cards_all article_links soup t :
  exists news_list t',
    main_cards self article_links soup t = (inr news_list, t')
    /\ Forall P news_list.
Proof. unfold main_cards. apply cards_all. constructor. Qed.

Lemma content_row_all article_links row news_list t :
  Forall P news_list ->
  exists news_list' t',
    content_row self article_links row news_list t = (inr news_list', t')
    /\ Forall P news_list'.
Proof.
  intros Hl. unfold content_row.
  assert (Hmain : exists l1 t1,
             match find (is_div_of (py "content-row-article__main")) row with
             | Some main_article =>
               match find (is_div_of (py "card")) main_article with
               | Some main_card =>
                 do news_item <- _extract_news_from_card self main_card article_links;
                 ret (append_new news_item news_list)
               | None => ret news_list
               end
             | None => ret news_list
             end t = (inr l1, t1) /\ Forall P l1).
  { destruct (find _ row) as [main_article|]; [|eexists _, _; split; [reflexivity|exact Hl]].
    destruct (find _ main_article) as [main_card|];
      [|eexists _, _; split; [reflexivity|exact Hl]].
    destruct (extract_P main_card article_links t) as (item & t1 & H1 & Hi).
    rewrite (bind_inr _ _ _ _ _ H1). eexists _, _. split; [reflexivity|].
    apply append_new_all; assumption. }
  destruct Hmain as (l1 & t1 & H1 & Hl1).
  rewrite (bind_inr _ _ _ _ _ H1).
  destruct (find (is_div_of (py "content-row-article__secondary")) row)
    as [secondary_section|].
  - apply new_cards_all, Hl1.
  - eexists _, _. split; [reflexivity|exact Hl1].
Qed.

Lemma content_rows_all article_links soup news_list t :
  Forall P news_list ->
  exists news_list' t',
    content_rows self article_links soup news_list t = (inr news_list', t')
    /\ Forall P news_list'.
Proof.
  unfold content_rows. apply for_each_inv.
  intros row acc t0 Hacc. apply content_row_all, Hacc.
Qed.

End Gathering.

(** ** The result of a completed crawl *)

Lemma dedup_NoDup news_list : NoDup (title <$> dedup news_list).
Proof.
  unfold dedup.
  destruct (dedup_loop_spec news_list [] ∅) as (added & Heq & _ & Hnd & _).
  - intros x. simpl. rewrite elem_of_nil. set_solver.
  - simpl. apply NoDup_nil_2.
  - simpl in *. rewrite Heq. exact Hnd.
Qed.

Lemma dedup_all (P : news_item -> Prop) news_list :
  Forall P news_list -> Forall P (dedup news_list).
Proof.
  intros H. apply List.Forall_forall. intros n Hn.
  rewrite List.Forall_forall in H. apply H.
  apply list_elem_of_In. eapply elem_of_sublist; [|apply dedup_sublist].
  apply list_elem_of_In, Hn.
Qed.

Lemma add_content_keys news article_content :
  exists c,
    full_content (add_content news article_content) = Some c
    /\ content_length (add_content news article_content) = Some (length c).
Proof.
  unfold add_content. destruct article_content as [e ts|u fields c].
  - exists []. split; reflexivity.
  - exists (a_content fields).
    destruct (_ && _); destruct (_ && _); split; reflexivity.
Qed.

Section Completed.
Context {U : Unicode} {L : Library} {O : Outside}.
Variable self : crawler.

Lemma collect_content_added news_list t :
  exists out t',
    _collect_article_contents self news_list t = (inr out, t')
    /\ Forall2 content_added news_list out.
Proof.
  unfold _collect_article_contents. apply map_M_Forall2. intros news t0.
  destruct (collect_article_spec self news t0) as (news' & t1 & Hrun & Hnone & Hsome).
  exists news', t1. split; [exact Hrun|]. unfold content_added.
  destruct (url news) as [u|] eqn:Eu.
  - destruct (truthy u) eqn:T.
    + destruct (Hsome u eq_refl) as (ac & t2 & _ & -> & _).
      { apply truthy_nonempty, T. }
      destruct (add_content_same_card news ac) as (Ht & Hu & _).
      split; [exact Ht|]. split; [congruence|]. split; [simpl; congruence|].
      intros _. apply add_content_keys.
    + destruct Hnone as [-> _]; [exact T|]. simpl. rewrite T.
      repeat split; auto. discriminate.
  - destruct Hnone as [-> _]; [reflexivity|]. simpl.
    repeat split; auto. discriminate.
Qed.

Lemma content_added_titles l l' :
  Forall2 content_added l l' -> title <$> l' = title <$> l.
Proof.
  induction 1 as [|n n' l l' (Ht & _) _ IH]; [reflexivity|].
  rewrite !fmap_cons. congruence.
Qed.

Lemma content_added_keys l l' :
  Forall2 content_added l l' ->
  Forall (fun n => truthy_opt (url n) = true ->
                   exists c, full_content n = Some c
                             /\ content_length n = Some (length c)) l'.
Proof.
  induction 1 as [|n n' l l' (_ & Hu & _ & Hc) _ IH]; constructor; [|exact IH].
  rewrite Hu. exact Hc.
Qed.

Lemma content_added_untouched l l' :
  Forall2 content_added l l' ->
  Forall (fun n => full_content n = None /\ content_length n = None) l ->
  Forall (fun n => truthy_opt (url n) = false ->
                   full_content n = None /\ content_length n = None) l'.
Proof.
  induction 1 as [|n n' l l' (_ & Hu & Hn & _) _ IH]; intros Hl;
    inversion Hl; subst; constructor; [|auto].
  rewrite Hu. intros Hf. rewrite (Hn Hf). assumption.
Qed.

(** X9.  The result of a completed crawl of the main page is
    consistent: the titles of its records are pairwise distinct,
    [total_news] is their number, the categories and the summary are those
    of the list it carries, and [content_included] is the request.
    Without content collection no record has content keys; with it, a
    record has them exactly when it has a URL, and [content_length] is
    then the length of [full_content]. *)
Theorem completed_crawl_consistent (include_content : bool) (t t' : trace)
        (r : crawl_result) :
  crawl_main_page_news self include_content t = (inr r, t') ->
  success r = true ->
  NoDup (title <$> news_list r)
  /\ total_news r = Some (length (news_list r))
  /\ categories r = Some (_extract_categories (news_list r))
  /\ result_summary r = Some (_generate_summary (news_list r))
  /\ content_included r = Some include_content
  /\ result_url r = Some (base_url self)
  /\ (include_content = false ->
      Forall (fun n => full_content n = None /\ content_length n = None)
             (news_list r))
  /\ (include_content = true ->
      Forall (fun n =>
                (truthy_opt (url n) = true ->
                 exists c, full_content n = Some c
                           /\ content_length n = Some (length c))
                /\ (truthy_opt (url n) = false ->
                    full_content n = None /\ content_length n = None))
             (news_list r)).
Proof.
  unfold crawl_main_page_news, try_except.
  match goal with |- context [match ?c t with _ => _ end] =>
    destruct (c t) as [[e|r0] t0] eqn:Hbody end.
  { rewrite create_error_result_returns. intros [= <- _]. discriminate. }
  intros [= <- _]. revert Hbody. unfold bind at 1.
  destruct (_make_request self (base_url self) t) as [[e|[text|]] t1];
    [discriminate| |rewrite create_error_result_returns; intros [= <- _]; discriminate].
  unfold bind at 1, lift.
  destruct (index_links self _ []) as [e|article_links]; [discriminate|].
  unfold ret at 1.
  destruct (main_cards_all self _ (extract_fresh self) article_links (parse_html text) t1)
    as (l1 & t2 & H1 & Hl1).
  rewrite (bind_inr _ _ _ _ _ H1).
  destruct (content_rows_all self _ (extract_fresh self) article_links
              (parse_html text) l1 t2 Hl1) as (l2 & t3 & H2 & Hl2).
  rewrite (bind_inr _ _ _ _ _ H2).
  apply dedup_all in Hl2. pose proof (dedup_NoDup l2) as Hnd.
  destruct include_content.
  - destruct (collect_content_added (dedup l2) t3) as (out & t4 & H3 & Hadd).
    rewrite (bind_inr _ _ _ _ _ H3).
    unfold bind, now, ret. intros [= <- _] _. simpl.
    split; [rewrite (content_added_titles _ _ Hadd); exact Hnd|].
    do 5 (split; [reflexivity|]). split; [discriminate|]. intros _.
    pose proof (content_added_keys _ _ Hadd) as Hk.
    pose proof (content_added_untouched _ _ Hadd Hl2) as Hu.
    rewrite List.Forall_forall in *. intros n Hn. split; [apply Hk|apply Hu]; exact Hn.
  - unfold bind, now, ret. intros [= <- _] _. simpl.
    split; [exact Hnd|]. do 5 (split; [reflexivity|]).
    split; [intros _; exact Hl2|discriminate].
Qed.

End Completed.

Lemma completed_crawl_consistent_witness :
  match fst (@crawl_main_page_news basic_tables demo_library online
               (ITWorldNewsCrawler 15 3) true []) with
  | inr r =>
    total_news r = Some (length (news_list r))
    /\ NoDup (title <$> news_list r)
    /\ Forall (fun n =>
                 truthy_opt (url n) = true ->
                 exists c, full_content n = Some c
                           /\ content_length n = Some (length c))
              (news_list r)
  | inl _ => False
  end.
Proof.
  destruct (@crawl_main_page_news basic_tables demo_library online
              (ITWorldNewsCrawler 15 3) true []) as [[e|r] t'] eqn:E.
  - vm_compute in E. discriminate E.
  - assert (Hs : success r = true).
    { pose proof E as E'. vm_compute in E'. injection E' as <- _. reflexivity. }
    destruct (@completed_crawl_consistent basic_tables demo_library online
                (ITWorldNewsCrawler 15 3) true [] t' r E Hs)
      as (Hnd & Htotal & _ & _ & _ & _ & _ & Hc).
    simpl. split; [exact Htotal|]. split; [exact Hnd|].
    eapply Forall_impl; [exact (Hc eq_refl)|]. intros n [Hn _]. exact Hn.
Defined.

(** ** The distributions of the summary *)

Lemma total_dict_set counts k :
  total (count_key counts k) = S (total counts).
Proof.
  unfold count_key, total, dict_get.
  induction counts as [|[k0 v0] r IH]; simpl; [reflexivity|].
  destruct (str_eqb k k0) eqn:E; simpl; [lia|].
  rewrite IH. lia.
Qed.

Lemma total_fold_count l : forall counts,
  total (fold_left count_key l counts) = total counts + length l.
Proof.
  induction l as [|k l IH]; intros counts; simpl; [lia|].
  rewrite IH, total_dict_set. lia.
Qed.

Lemma fold_count_by {A} (f : A -> str) (l : list A) : forall counts,
  fold_left (fun counts x => count_key counts (f x)) l counts
  = fold_left count_key (map f l) counts.
Proof. induction l as [|x l IH]; intros counts; simpl; [reflexivity|apply IH]. Qed.

Lemma occurrences_map {A} (f : A -> str) (l : list A) key :
  occurrences key (map f l)
  = length (List.filter (fun x => str_eqb key (f x)) l).
Proof.
  unfold occurrences. induction l as [|x l IH]; simpl; [reflexivity|].
  destruct (str_eqb key (f x)); simpl; rewrite IH; reflexivity.
Qed.

(** A distribution counts, under every key, the items that fall under
    it. *)
Lemma distribution_counts {A} (f : A -> str) (l : list A) :
  let counts := fold_left (fun counts x => count_key counts (f x)) l [] in
  NoDup (keys counts)
  /\ (forall key, default 0 (dict_get counts key)
                  = length (List.filter (fun x => str_eqb key (f x)) l))
  /\ (forall key, key ∈ keys counts <-> exists x, x ∈ l /\ f x = key)
  /\ total counts = length l.
Proof.
  simpl. rewrite fold_count_by.
  destruct (fold_count_key (map f l) []) as (Hnd & Hcount & Hkeys);
    [apply NoDup_nil_2|].
  split; [exact Hnd|]. split; [|split].
  - intros key. rewrite Hcount, occurrences_map. reflexivity.
  - intros key. rewrite Hkeys. simpl. rewrite elem_of_nil, list_elem_of_fmap.
    split.
    + intros [[]|(x & -> & Hx)]. eauto.
    + intros (x & Hx & <-). right. eauto.
  - rewrite total_fold_count, length_map. reflexivity.
Qed.

(** X10.  In the summary of a list of records, [total_articles] is the
    number of records; the date distribution gives every date the number
    of records published on it and gives [Unknown] the number of records
    without date, and its counts add up to the number of records; the
    distribution of content types does the same with the types; and
    [has_images] counts the records with an image address. *)
Theorem summary_distributions (news_list : list news_item) (s : summary) :
  _generate_summary news_list = Some s ->
  total_articles s = length news_list
  /\ NoDup (keys (date_distribution s))
  /\ (forall key, default 0 (dict_get (date_distribution s) key)
                  = length (List.filter (fun n => str_eqb key (date_key n)) news_list))
  /\ total (date_distribution s) = length news_list
  /\ NoDup (keys (content_type_distribution s))
  /\ (forall key, default 0 (dict_get (content_type_distribution s) key)
                  = length (List.filter (fun n => str_eqb key (type_key n)) news_list))
  /\ total (content_type_distribution s) = length news_list
  /\ has_images s
     = length (List.filter (fun n => truthy_opt (image_url n)) news_list)
  /\ has_images s <= total_articles s.
Proof.
  destruct news_list as [|n0 rest]; [discriminate|].
  set (l := n0 :: rest). intros [= <-]. cbn [total_articles date_distribution
    content_type_distribution has_images].
  destruct (distribution_counts date_key l) as (Hd1 & Hd2 & _ & Hd3).
  destruct (distribution_counts type_key l) as (Ht1 & Ht2 & _ & Ht3).
  split; [reflexivity|]. split; [exact Hd1|]. split; [exact Hd2|].
  split; [exact Hd3|]. split; [exact Ht1|]. split; [exact Ht2|].
  split; [exact Ht3|]. split; [reflexivity|].
  exact (List.filter_length_le (fun n => truthy_opt (image_url n)) l).
Qed.

Lemma summary_distributions_witness :
  match _generate_summary
          [sample (py "AI 반도체 시장 전망과 과제") None [] (Some (py "2024-01-05"));
           sample (py "생성형 AI 도입 기업이 늘고 있다") None [] (Some (py "2024-01-05"));
           sample (py "오픈소스 보안 점검 가이드") None [] None] with
  | Some s =>
    default 0 (dict_get (date_distribution s) (py "2024-01-05")) = 2
    /\ default 0 (dict_get (date_distribution s) (py "Unknown")) = 1
    /\ total (date_distribution s) = 3
  | None => False
  end.
Proof.
  destruct (_generate_summary
              [sample (py "AI 반도체 시장 전망과 과제") None [] (Some (py "2024-01-05"));
               sample (py "생성형 AI 도입 기업이 늘고 있다") None [] (Some (py "2024-01-05"));
               sample (py "오픈소스 보안 점검 가이드") None [] None])
    as [s|] eqn:E; [|discriminate E].
  destruct (summary_distributions _ s E) as (_ & _ & Hd & Ht & _).
  rewrite !Hd, Ht. split; [|split]; reflexivity.
Defined.

(** ** The order of the categories *)

Lemma insert_desc_stable x l c :
  List.filter (fun kv => snd kv =? c) (insert_desc x l)
  = List.filter (fun kv => snd kv =? c) (x :: l).
Proof.
  induction l as [|y r IH]; simpl; [reflexivity|].
  destruct (snd y <=? snd x) eqn:E; simpl; [reflexivity|].
  apply Nat.leb_gt in E. rewrite IH. simpl.
  destruct (snd x =? c) eqn:Ex; [|reflexivity].
  apply Nat.eqb_eq in Ex.
  assert (Ey : (snd y =? c) = false) by (apply Nat.eqb_neq; lia).
  rewrite Ey. reflexivity.
Qed.

Lemma sorted_desc_stable l c :
  List.filter (fun kv => snd kv =? c) (sorted_desc l)
  = List.filter (fun kv => snd kv =? c) l.
Proof.
  induction l as [|x r IH]; simpl; [reflexivity|].
  rewrite insert_desc_stable. simpl. rewrite IH. reflexivity.
Qed.

Lemma keys_fold_count l : forall counts,
  keys (fold_left count_key l counts) = fold_left add_key l (keys counts).
Proof.
  induction l as [|k l IH]; intros counts; simpl; [reflexivity|].
  rewrite IH. unfold count_key. rewrite keys_add_key. reflexivity.
Qed.

Lemma keys_filter_count (d : dict nat) c :
  NoDup (keys d) ->
  map fst (List.filter (fun kv => snd kv =? c) d)
  = List.filter (fun k => default 0 (dict_get d k) =? c) (keys d).
Proof.
  intros Hnd.
  assert (H : forall kv, kv ∈ d -> dict_get d (fst kv) = Some (snd kv)).
  { intros [k v] Hin. apply dict_get_present; assumption. }
  revert H. generalize (dict_get d). clear Hnd.
  induction d as [|[k v] r IH]; intros g Hg; simpl; [reflexivity|].
  pose proof (Hg (k, v) (list_elem_of_here _ _)) as Hk. simpl in Hk.
  rewrite Hk. simpl.
  rewrite <- IH by (intros kv Hin; apply Hg, list_elem_of_further, Hin).
  destruct (v =? c); reflexivity.
Qed.

(** X11.  Among the categories, tags with the same count stand in the
    order of their first occurrence in the records: for every count, the
    tags that have it are listed as they first occur in the flattened tag
    lists.  The counts add up to the number of tag occurrences. *)
Theorem categories_ties_first_seen (news_list : list news_item) (c : nat) :
  map fst (List.filter (fun kv => snd kv =? c) (_extract_categories news_list))
  = List.filter (fun tag => occurrences tag (all_tags news_list) =? c)
                (first_seen (all_tags news_list))
  /\ total (_extract_categories news_list) = length (all_tags news_list).
Proof.
  unfold _extract_categories. rewrite tally_tags_flat.
  destruct (fold_count_key (all_tags news_list) []) as (Hnd & Hcount & _);
    [apply NoDup_nil_2|].
  split.
  - rewrite sorted_desc_stable, (keys_filter_count _ _ Hnd).
    rewrite keys_fold_count, fold_add_key. simpl.
    assert (E : forall l : list str, List.filter (fun _ => true) l = l).
    { induction l as [|x l IH]; simpl; [reflexivity|]. rewrite IH. reflexivity. }
    rewrite E. apply filter_ext_in'. intros tag. rewrite Hcount. reflexivity.
  - unfold total. rewrite (Permutation_map snd (sorted_desc_perm _)).
    fold (total (fold_left count_key (all_tags news_list) [])).
    rewrite total_fold_count. reflexivity.
Qed.

(** ** Deduplication is idempotent *)

Lemma dedup_loop_distinct news_list : forall unique_news seen_titles,
  (forall x, x ∈ seen_titles <-> x ∈ (title <$> unique_news)) ->
  NoDup (title <$> (unique_news ++ news_list)) ->
  dedup_loop news_list unique_news seen_titles = unique_news ++ news_list.
Proof.
  induction news_list as [|news rest IH]; intros unique_news seen_titles Hseen Hnd;
    simpl.
  - rewrite app_nil_r. reflexivity.
  - case_bool_decide as Hin.
    + exfalso. rewrite fmap_app, fmap_cons in Hnd.
      apply NoDup_app in Hnd as (_ & Hdis & _).
      apply (Hdis (title news)); [apply Hseen, Hin|apply list_elem_of_here].
    + rewrite (IH (unique_news ++ [news])).
      * rewrite <- app_assoc. reflexivity.
      * intros x. rewrite fmap_app, elem_of_app, elem_of_union, elem_of_singleton.
        simpl. rewrite list_elem_of_singleton, Hseen. tauto.
      * rewrite <- app_assoc. exact Hnd.
Qed.

(** X12.  Deduplication changes nothing in a list whose titles are
    pairwise distinct; hence deduplicating twice is deduplicating once. *)
Theorem dedup_idempotent (news_list : list news_item) :
  (NoDup (title <$> news_list) -> dedup news_list = news_list)
  /\ dedup (dedup news_list) = dedup news_list.
Proof.
  assert (H : forall l, NoDup (title <$> l) -> dedup l = l).
  { intros l Hl. unfold dedup. apply (dedup_loop_distinct l [] ∅); [|exact Hl].
    intros x. simpl. rewrite elem_of_nil. set_solver. }
  split; [apply H|]. apply H, dedup_NoDup.
Qed.

Lemma dedup_idempotent_witness :
  dedup [sample (py "AI 반도체 시장 전망과 과제") None [] None;
         sample (py "오픈소스 보안 점검 가이드") None [] None]
  = [sample (py "AI 반도체 시장 전망과 과제") None [] None;
     sample (py "오픈소스 보안 점검 가이드") None [] None].
Proof.
  apply (proj1 (dedup_idempotent
                  [sample (py "AI 반도체 시장 전망과 과제") None [] None;
                   sample (py "오픈소스 보안 점검 가이드") None [] None])).
  rewrite !fmap_cons. apply NoDup_cons. split.
  - intros H. apply list_elem_of_singleton in H. vm_compute in H. discriminate H.
  - apply NoDup_singleton.
Defined.

(** ** [crawl_category_news] *)

Lemma bind_inr_inv {A B} (c : M A) (k : A -> M B) t b t' :
  bind c k t = (inr b, t') ->
  exists a t1, c t = (inr a, t1) /\ k a t1 = (inr b, t').
Proof.
  unfold bind. destruct (c t) as [[e|a] t1]; [discriminate|]. eauto.
Qed.

Lemma category_error_message e : py "카테고리 크롤링 중 오류: " ++ e ≠ [].
Proof. vm_compute. intros H. discriminate H. Qed.

Section CategoryFacts.
Context {U : Unicode} {L : Library} {O : Outside} {R : Runtime}.
Variable self : crawler.

(** X13.  Asked for no page at all ([max_pages] zero or negative),
    [crawl_category_news] sends no request and returns an error result:
    the loop variable [page], which [pages_crawled] reads, was never
    bound, and the handler of the function reports that exception. *)
Theorem category_no_pages (category_url : str) (max_pages : Z)
        (include_content : bool) (t : trace) :
  (max_pages <= 0)%Z ->
  exists r,
    crawl_category_news self category_url max_pages include_content t
    = (inr r, NOW :: NOW :: t)
    /\ success (crawl r) = false
    /\ error (crawl r)
       = Some (py "카테고리 크롤링 중 오류: " ++ unbound_local (py "page"))
    /\ news_list (crawl r) = []
    /\ pages_crawled r = None.
Proof.
  intros Hz. unfold crawl_category_news.
  replace (Z.to_nat max_pages) with 0 by lia.
  eexists. split.
  - unfold try_except. simpl. destruct include_content; reflexivity.
  - simpl. auto.
Qed.

(** X14.  When the first page cannot be fetched, [crawl_category_news]
    does not report an error: it returns a successful result with no news
    and [pages_crawled = 1], having tried the category address itself
    [max_retries] times. *)
Theorem category_first_page_unreachable (category_url : str) (max_pages : Z)
        (include_content : bool) (t : trace) :
  (0 < max_pages)%Z ->
  fetch_fails self category_url t ->
  exists r,
    crawl_category_news self category_url max_pages include_content t
    = (inr r, NOW :: backoff_trace self category_url (max_retries self) t)
    /\ success (crawl r) = true
    /\ news_list (crawl r) = []
    /\ total_news (crawl r) = Some 0
    /\ categories (crawl r) = Some []
    /\ result_summary (crawl r) = Some None
    /\ pages_crawled r = Some 1.
Proof.
  intros Hz Hfail. unfold crawl_category_news.
  destruct (Z.to_nat max_pages) as [|m] eqn:Em; [lia|].
  eexists. split.
  - unfold try_except, bind at 1. simpl.
    unfold bind at 1, category_page, bind at 1, page_url. simpl.
    rewrite (make_request_fails self _ _ Hfail). simpl.
    destruct include_content; reflexivity.
  - simpl. auto 10.
Qed.

Lemma category_page_titled category_url page all_news t r t' :
  Forall (fun n => title n ≠ []) all_news ->
  category_page self category_url page all_news t = (inr r, t') ->
  match r with
  | Some all_news' => Forall (fun n => title n ≠ []) all_news'
  | None => True
  end.
Proof.
  intros Hl. unfold category_page. intros H.
  apply bind_inr_inv in H as ([text|] & t1 & _ & H);
    [|injection H as <- _; exact I].
  apply bind_inr_inv in H as (article_links & t2 & _ & H).
  destruct (find_all (is_div_of (py "card")) (parse_html text)) as [|c cs];
    [injection H as <- _; exact I|].
  destruct (cards_all self _ (extract_returns self) article_links (c :: cs) all_news t2 Hl)
    as (l1 & t3 & H1 & Hl1).
  rewrite (bind_inr _ _ _ _ _ H1) in H.
  unfold bind, sleep, ret in H. injection H as <- _. exact Hl1.
Qed.

Lemma category_pages_spec category_url range : forall page all_news t r t',
  Forall (fun n => title n ≠ []) all_news ->
  category_pages self category_url range page all_news t = (inr r, t') ->
  Forall (fun n => title n ≠ []) (snd r)
  /\ (fst r = page \/ exists p, p ∈ range /\ fst r = Some p).
Proof.
  induction range as [|p rest IH]; intros page all_news t r t' Hl; simpl.
  - intros [= <- _]. auto.
  - intros H. apply bind_inr_inv in H as (o & t1 & Hp & H).
    pose proof (category_page_titled _ _ _ _ _ _ Hl Hp) as Ho.
    destruct o as [all_news'|].
    + apply IH in H as [H1 H2]; [|exact Ho]. split; [exact H1|]. right.
      destruct H2 as [->|(q & Hq & ->)].
      * exists p. split; [apply list_elem_of_here|reflexivity].
      * exists q. split; [apply list_elem_of_further, Hq|reflexivity].
    + injection H as <- _. simpl. split; [exact Hl|]. right.
      exists p. split; [apply list_elem_of_here|reflexivity].
Qed.

End CategoryFacts.

Lemma category_no_pages_witness :
  match fst (@crawl_category_news basic_tables no_library offline python311
               (ITWorldNewsCrawler 15 3)
               (py "https://www.itworld.co.kr/ai") 0 false []) with
  | inr r =>
    success (crawl r) = false
    /\ error (crawl r)
       = Some (py "카테고리 크롤링 중 오류: cannot access local variable 'page' where it is not associated with a value")
  | inl _ => False
  end.
Proof.
  destruct (@category_no_pages basic_tables no_library offline python311
              (ITWorldNewsCrawler 15 3)
              (py "https://www.itworld.co.kr/ai") 0 false [])
    as (r & Hr & Hs & He & _).
  - lia.
  - rewrite Hr. simpl. split; [exact Hs|]. rewrite He. vm_compute. reflexivity.
Defined.

Lemma category_first_page_unreachable_witness :
  match fst (@crawl_category_news basic_tables no_library offline python311
               (ITWorldNewsCrawler 15 3)
               (py "https://www.itworld.co.kr/ai") 3 false []) with
  | inr r =>
    success (crawl r) = true
    /\ news_list (crawl r) = []
    /\ pages_crawled r = Some 1
  | inl _ => False
  end.
Proof.
  destruct (@category_first_page_unreachable basic_tables no_library offline
              python311 (ITWorldNewsCrawler 15 3)
              (py "https://www.itworld.co.kr/ai") 3 false [])
    as (r & Hr & Hs & Hn & _ & _ & _ & Hp).
  - lia.
  - apply offline_fetch_fails.
  - rewrite Hr. simpl. auto.
Defined.

(** ** The pace of the content collection *)

Section Pace.
Context {L : Library} {O : Outside}.
Variable self : crawler.

Lemma get_article_content_trace url t :
  exists article_content seg,
    get_article_content self url t = (inr article_content, NOW :: seg ++ t)
    /\ requests seg <= max_retries self
    /\ spaced false seg = true
    /\ asks self (eq url) seg.
Proof.
  destruct (attempts_bounds self url (max_retries self) 0 t eq_refl)
    as (seg & r & Hrun & Hreq & _ & _ & Hsp & Hasks).
  unfold get_article_content, try_except, bind at 1, _make_request.
  rewrite Hrun.
  destruct r as [e|[text|]]; eexists _, seg; (split; [reflexivity|auto]).
Qed.

(** X16.  The content collection raises nothing and keeps its pace: it
    sends at most [max_retries] requests for each record that has a URL,
    none for the others, sleeps at least a second between any two of its
    requests, and sleeps a second after the last one before it returns. *)
Theorem collect_contents_paced (news_list : list news_item) (t : trace) :
  exists out seg,
    _collect_article_contents self news_list t = (inr out, seg ++ t)
    /\ spaced true seg = true
    /\ requests seg
       <= max_retries self
          * length (List.filter (fun n => truthy_opt (url n)) news_list).
Proof.
  unfold _collect_article_contents. revert t.
  induction news_list as [|news rest IH]; intros t.
  - exists [], []. simpl. split; [reflexivity|]. split; [reflexivity|].
    unfold requests. simpl. lia.
  - destruct (collect_article_spec self news t) as (news' & t1 & Hrun & Hnone & Hsome).
    destruct (IH t1) as (out & seg2 & Hrest & Hsp2 & Hreq2).
    assert (Hall : map_M (collect_article self) (news :: rest) t
                   = (inr (news' :: out), seg2 ++ t1)).
    { simpl. rewrite (bind_inr _ _ _ _ _ Hrun), (bind_inr _ _ _ _ _ Hrest).
      reflexivity. }
    rewrite Hall. cbn [List.filter].
    destruct (truthy_opt (url news)) eqn:T.
    + destruct (url news) as [u|] eqn:Eu; [|discriminate T]. simpl in T.
      destruct (Hsome u eq_refl) as (ac & t2 & Hget & _ & ->).
      { apply truthy_nonempty, T. }
      destruct (get_article_content_trace u t) as (ac' & seg & Hget' & Hreq & Hsp & _).
      rewrite Hget in Hget'. injection Hget' as _ ->.
      exists (news' :: out), (seg2 ++ SLEEP 1 :: NOW :: seg).
      rewrite <- app_assoc. split; [reflexivity|].
      split; [apply spaced_app; [exact Hsp2|exact Hsp]|].
      rewrite requests_app. cbn [length].
      change (requests (SLEEP 1 :: NOW :: seg)) with (requests seg). nia.
    + destruct (Hnone eq_refl) as [_ ->].
      exists (news' :: out), seg2. auto.
Qed.

(** An answer that [_make_request] returns was given to a request of this
    call, after the failure of the attempts before it. *)
Lemma attempts_answered url t n : forall k text t',
  k + n = max_retries self ->
  (forall i, i < k ->
     request_fails (http (backoff_trace self url i t) url (timeout self)) = true) ->
  attempts self url (seq k n) (backoff_trace self url k t) = (inr (Some text), t') ->
  exists k' status,
    k' < max_retries self
    /\ (forall i, i < k' ->
          request_fails (http (backoff_trace self url i t) url (timeout self)) = true)
    /\ http (backoff_trace self url k' t) url (timeout self) = Response status text
    /\ is_error_status status = false
    /\ t' = GET url (timeout self) :: backoff_trace self url k' t.
Proof.
  induction n as [|n IH]; intros k text t' Hk Hfail; cbn [seq attempts].
  - intros H. discriminate H.
  - destruct (request_fails (http (backoff_trace self url k t) url (timeout self)))
      eqn:Ef.
    + unfold bind at 1. rewrite (attempt_get_fails self) by exact Ef.
      intros H. apply (IH (S k)); [lia| |].
      * intros i Hi. destruct (Nat.eq_dec i k) as [->|Hne]; [exact Ef|].
        apply Hfail. lia.
      * cbn [backoff_trace]. unfold bind, sleep, ret in H.
        destruct (k <? max_retries self - 1); exact H.
    + unfold bind at 1, attempt_get.
      destruct (http (backoff_trace self url k t) url (timeout self))
        as [status text0|msg|msg] eqn:E; simpl in Ef.
      * rewrite Ef. intros [= <- <-]. exists k, status.
        split; [lia|]. auto.
      * discriminate Ef.
      * intros H. discriminate H.
Qed.

Lemma article_error_message e : py "기사 내용 수집 중 오류: " ++ e ≠ [].
Proof. vm_compute. intros H. discriminate H. Qed.

(** X17.  [get_article_content] raises nothing.  When it returns an
    article, the address of the article is the one asked for and this call
    itself sent the request that was answered: [k] attempts, fewer than
    [max_retries], failed and were retried, the next request for the
    address got a status that is no error, and the clock was read once
    after it for [crawled_at].  Otherwise it returns an error dictionary,
    whose message is the fixed text of a failed fetch, or the text of an
    exception after a fixed prefix, and is never empty; when every attempt
    of the fetch fails it is the fixed text. *)
Theorem article_content_outcome (article_url : str) (t : trace) :
  exists article_content t',
    get_article_content self article_url t = (inr article_content, t')
    /\ match article_content with
       | Article u _ crawled =>
         u = article_url
         /\ exists k status text,
             k < max_retries self
             /\ (forall i, i < k ->
                   request_fails
                     (http (backoff_trace self article_url i t) article_url
                           (timeout self)) = true)
             /\ http (backoff_trace self article_url k t) article_url (timeout self)
                = Response status text
             /\ is_error_status status = false
             /\ t' = NOW :: GET article_url (timeout self)
                          :: backoff_trace self article_url k t
             /\ crawled
                = isoformat (clock (GET article_url (timeout self)
                                        :: backoff_trace self article_url k t))
       | ArticleError msg _ =>
         msg ≠ []
         /\ (msg = py "기사에 접근할 수 없습니다."
             \/ exists e, msg = py "기사 내용 수집 중 오류: " ++ e)
         /\ (fetch_fails self article_url t ->
             msg = py "기사에 접근할 수 없습니다."
             /\ t' = NOW :: backoff_trace self article_url (max_retries self) t)
       end.
Proof.
  unfold get_article_content, try_except, bind at 1, _make_request.
  destruct (attempts self article_url (seq 0 (max_retries self)) t)
    as [[e|[text|]] t1] eqn:Hrun.
  - eexists _, _. split; [reflexivity|]. cbn [default from_option id error].
    split; [apply article_error_message|]. split; [right; eauto|].
    intros Hfail. pose proof (make_request_fails self _ _ Hfail) as H.
    unfold _make_request in H. rewrite Hrun in H. discriminate H.
  - eexists _, _. split; [reflexivity|]. split; [reflexivity|].
    apply (attempts_answered article_url t (max_retries self) 0) in Hrun
      as (k & status & Hk & Hfail & Hhttp & Hs & ->); [|reflexivity|intros i Hi; lia].
    exists k, status, text. auto 10.
  - eexists _, _. split; [reflexivity|]. cbn [default from_option id error].
    split; [vm_compute; intros H; discriminate H|]. split; [left; reflexivity|].
    intros Hfail. split; [reflexivity|].
    pose proof (make_request_fails self _ _ Hfail) as H.
    unfold _make_request in H. rewrite Hrun in H. injection H as ->. reflexivity.
Qed.

End Pace.

(** On a site that fails the first request and answers the second, the
    article is read at the second attempt, after a sleep of one second. *)
Lemma article_content_outcome_witness :
  snd (@get_article_content demo_library recovering (ITWorldNewsCrawler 15 3)
         (py "https://www.itworld.co.kr/article/1") [])
  = [NOW;
     GET (py "https://www.itworld.co.kr/article/1") 15;
     SLEEP 1;
     GET (py "https://www.itworld.co.kr/article/1") 15].
Proof.
  destruct (@article_content_outcome demo_library recovering
              (ITWorldNewsCrawler 15 3)
              (py "https://www.itworld.co.kr/article/1") [])
    as (ac & t' & Hrun & H).
  rewrite Hrun. cbn [snd].
  destruct ac as [msg ts|u fields crawled].
  - vm_compute in Hrun. discriminate Hrun.
  - destruct H as (_ & k & status & text & Hk & Hfail & Hhttp & _ & -> & _).
    destruct k as [|[|k]].
    + vm_compute in Hhttp. discriminate Hhttp.
    + reflexivity.
    + specialize (Hfail 1 ltac:(lia)). vm_compute in Hfail. discriminate Hfail.
Defined.

(** ** The addresses the crawler asks for *)

Lemma bind_inl {A B} (c : M A) (k : A -> M B) t e t1 :
  c t = (inl e, t1) -> bind c k t = (inl e, t1).
Proof. intros H. unfold bind. rewrite H. reflexivity. Qed.

Section Footprint.
Context {U : Unicode} {L : Library} {O : Outside} {R : Runtime}.
Variable self : crawler.

(** A stretch of the trace without requests. *)
Local Abbreviation quiet := (asks self (fun _ => False)).

Lemma quiet_asks G s : quiet s -> asks self G s.
Proof. apply asks_impl. intros u []. Qed.

Lemma last_request_app s1 s2 :
  last_request (s1 ++ s2)
  = match last_request s1 with Some u => Some u | None => last_request s2 end.
Proof.
  induction s1 as [|[u n|n|] s1 IH]; simpl; auto.
Qed.

Lemma quiet_last s : quiet s -> last_request s = None.
Proof.
  induction 1 as [|[u n|n|] s He Hs IH]; simpl; auto.
  destruct He as [[] _].
Qed.

Lemma asks_last url s :
  asks self (eq url) s -> 0 < requests s -> last_request s = Some url.
Proof.
  induction 1 as [|[u n|n|] s He Hs IH]; unfold requests in *; simpl; intros Hr.
  - lia.
  - destruct He as [<- _]. reflexivity.
  - apply IH, Hr.
  - apply IH, Hr.
Qed.

(** With one attempt or more [_make_request] sends a request. *)
Lemma make_request_sends url t :
  0 < max_retries self ->
  exists r seg, _make_request self url t = (r, seg ++ GET url (timeout self) :: t).
Proof.
  intros Hm. unfold _make_request.
  destruct (max_retries self) as [|m] eqn:Em; [lia|].
  cbn [seq attempts]. unfold bind at 1, attempt_get.
  assert (Hretry : exists r seg,
             (do _ <- (if 0 <? max_retries self - 1 then sleep (2 ^ 0) else ret tt);
              attempts self url (seq 1 m)) (GET url (timeout self) :: t)
             = (r, seg ++ GET url (timeout self) :: t)).
  { unfold bind, sleep, ret.
    destruct (0 <? max_retries self - 1).
    - destruct (attempts_bounds self url m 1 (SLEEP (2 ^ 0) :: GET url (timeout self) :: t))
        as (seg & r & Hrun & _); [lia|].
      exists r, (seg ++ [SLEEP (2 ^ 0)]). rewrite <- app_assoc. exact Hrun.
    - destruct (attempts_bounds self url m 1 (GET url (timeout self) :: t))
        as (seg & r & Hrun & _); [lia|].
      exists r, seg. exact Hrun. }
  destruct (http t url (timeout self)) as [status text|msg|msg].
  - destruct (is_error_status status); [exact Hretry|].
    eexists _, []. reflexivity.
  - exact Hretry.
  - eexists _, []. reflexivity.
Qed.

Lemma make_request_asks url t :
  exists r seg,
    _make_request self url t = (r, seg ++ t) /\ asks self (eq url) seg.
Proof.
  destruct (attempts_bounds self url (max_retries self) 0 t eq_refl)
    as (seg & r & Hrun & _ & _ & _ & _ & Hasks).
  exists r, seg. auto.
Qed.

Lemma make_request_run url t :
  exists r seg,
    _make_request self url t = (r, seg ++ t)
    /\ asks self (eq url) seg
    /\ (0 < max_retries self -> last_request seg = Some url).
Proof.
  destruct (make_request_asks url t) as (r & seg & Hrun & Hasks).
  exists r, seg. split; [exact Hrun|]. split; [exact Hasks|].
  intros Hm. apply asks_last; [exact Hasks|].
  destruct (make_request_sends url t Hm) as (r' & seg' & Hrun').
  rewrite Hrun in Hrun'. injection Hrun' as _ Ht.
  change (seg' ++ GET url (timeout self) :: t)
    with (seg' ++ [GET url (timeout self)] ++ t) in Ht.
  rewrite app_assoc in Ht. apply app_inv_tail in Ht. subst seg.
  rewrite requests_app. unfold requests at 2. simpl. lia.
Qed.

Lemma extract_quiet card article_links t :
  exists item seg,
    _extract_news_from_card self card article_links t = (inr item, seg ++ t)
    /\ quiet seg.
Proof.
  unfold _extract_news_from_card, try_except, bind, lift, now, ret, raise.
  destruct (extract_title card) as [title'|].
  - destruct (extract_image self card) as [e|image].
    + eexists _, []. split; [reflexivity|constructor].
    + eexists _, [NOW]. split; [reflexivity|repeat constructor].
  - eexists _, []. split; [reflexivity|constructor].
Qed.

Lemma for_each_quiet {A B} (f : A -> B -> M B) :
  (forall x acc t, exists acc' seg, f x acc t = (inr acc', seg ++ t) /\ quiet seg) ->
  forall l acc t,
    exists acc' seg, for_each f l acc t = (inr acc', seg ++ t) /\ quiet seg.
Proof.
  intros Hf. induction l as [|x l IH]; intros acc t; simpl.
  - exists acc, []. split; [reflexivity|constructor].
  - destruct (Hf x acc t) as (acc1 & s1 & H1 & Q1).
    destruct (IH acc1 (s1 ++ t)) as (acc2 & s2 & H2 & Q2).
    exists acc2, (s2 ++ s1). rewrite (bind_inr _ _ _ _ _ H1), H2, app_assoc.
    split; [reflexivity|apply asks_app; assumption].
Qed.

Lemma card_quiet (g : option news_item -> list news_item -> list news_item)
      article_links card acc t :
  exists acc' seg,
    (do news_item <- _extract_news_from_card self card article_links;
     ret (g news_item acc)) t = (inr acc', seg ++ t)
    /\ quiet seg.
Proof.
  destruct (extract_quiet card article_links t) as (item & seg & H & Q).
  rewrite (bind_inr _ _ _ _ _ H). eexists _, seg. split; [reflexivity|exact Q].
Qed.

Lemma main_cards_quiet article_links soup t :
  exists news_list seg,
    main_cards self article_links soup t = (inr news_list, seg ++ t) /\ quiet seg.
Proof.
  unfold main_cards. apply for_each_quiet. intros. apply (card_quiet append_item).
Qed.

Lemma content_row_quiet article_links row news_list t :
  exists news_list' seg,
    content_row self article_links row news_list t = (inr news_list', seg ++ t)
    /\ quiet seg.
Proof.
  unfold content_row.
  assert (Hmain : exists l1 s1,
             match find (is_div_of (py "content-row-article__main")) row with
             | Some main_article =>
               match find (is_div_of (py "card")) main_article with
               | Some main_card =>
                 do news_item <- _extract_news_from_card self main_card article_links;
                 ret (append_new news_item news_list)
               | None => ret news_list
               end
             | None => ret news_list
             end t = (inr l1, s1 ++ t) /\ quiet s1).
  { destruct (find _ row) as [main_article|];
      [|eexists _, []; split; [reflexivity|constructor]].
    destruct (find _ main_article) as [main_card|];
      [|eexists _, []; split; [reflexivity|constructor]].
    apply (card_quiet append_new). }
  destruct Hmain as (l1 & s1 & H1 & Q1).
  rewrite (bind_inr _ _ _ _ _ H1).
  assert (Hsec : exists l2 s2,
             match find (is_div_of (py "content-row-article__secondary")) row with
             | Some secondary_section =>
               for_each (fun card news_list =>
                           do news_item <- _extract_news_from_card self card article_links;
                           ret (append_new news_item news_list))
                        (find_all (is_div_of (py "card")) secondary_section) l1
             | None => ret l1
             end (s1 ++ t) = (inr l2, s2 ++ s1 ++ t) /\ quiet s2).
  { destruct (find (is_div_of (py "content-row-article__secondary")) row)
      as [secondary_section|];
      [|eexists _, []; split; [reflexivity|constructor]].
    apply for_each_quiet. intros. apply (card_quiet append_new). }
  destruct Hsec as (l2 & s2 & H2 & Q2).
  exists l2, (s2 ++ s1). rewrite H2, app_assoc.
  split; [reflexivity|apply asks_app; assumption].
Qed.

Lemma content_rows_quiet article_links soup news_list t :
  exists news_list' seg,
    content_rows self article_links soup news_list t = (inr news_list', seg ++ t)
    /\ quiet seg.
Proof.
  unfold content_rows. apply for_each_quiet. intros. apply content_row_quiet.
Qed.

(** The content collection asks only for the addresses of its records,
    which it leaves as they are. *)
Lemma collect_asks news_list t :
  exists out seg,
    _collect_article_contents self news_list t = (inr out, seg ++ t)
    /\ asks self (fun u => exists n, n ∈ news_list /\ url n = Some u) seg
    /\ url <$> out = url <$> news_list.
Proof.
  unfold _collect_article_contents. revert t.
  induction news_list as [|news rest IH]; intros t.
  - exists [], []. split; [reflexivity|]. split; [constructor|reflexivity].
  - destruct (collect_article_spec self news t) as (news' & t1 & Hrun & Hnone & Hsome).
    destruct (IH t1) as (out & seg2 & Hrest & Hasks2 & Hurls).
    assert (Hall : map_M (collect_article self) (news :: rest) t
                   = (inr (news' :: out), seg2 ++ t1)).
    { simpl. rewrite (bind_inr _ _ _ _ _ Hrun), (bind_inr _ _ _ _ _ Hrest).
      reflexivity. }
    rewrite Hall.
    assert (Hasks2' : asks self (fun u => exists n, n ∈ news :: rest /\ url n = Some u) seg2).
    { eapply asks_impl; [|exact Hasks2]. intros u (n & Hn & Hu).
      exists n. split; [apply list_elem_of_further, Hn|exact Hu]. }
    destruct (truthy_opt (url news)) eqn:T.
    + destruct (url news) as [u|] eqn:Eu; [|discriminate T]. simpl in T.
      destruct (Hsome u eq_refl) as (ac & t2 & Hget & -> & ->).
      { apply truthy_nonempty, T. }
      destruct (get_article_content_trace self u t) as (ac' & seg & Hget' & _ & _ & Hasks).
      rewrite Hget in Hget'. injection Hget' as _ ->.
      exists (add_content news ac :: out), (seg2 ++ SLEEP 1 :: NOW :: seg).
      rewrite <- app_assoc. split; [reflexivity|]. split.
      * apply asks_app; [exact Hasks2'|].
        constructor; [exact I|]. constructor; [exact I|].
        eapply asks_impl; [|exact Hasks]. intros ? <-.
        exists news. split; [apply list_elem_of_here|exact Eu].
      * rewrite !fmap_cons, Hurls. f_equal.
        destruct (add_content_same_card news ac) as (_ & -> & _). reflexivity.
    + destruct (Hnone eq_refl) as [-> ->].
      exists (news :: out), seg2. split; [reflexivity|]. split; [exact Hasks2'|].
      rewrite !fmap_cons, Hurls. reflexivity.
Qed.

(** X18.  [crawl_main_page_news] raises nothing and asks for nothing
    but the main page and, when the contents are collected, the addresses
    of the records of its result; every request bears the timeout of the
    crawler. *)
Theorem main_page_requests (include_content : bool) (t : trace) :
  exists r seg,
    crawl_main_page_news self include_content t = (inr r, seg ++ t)
    /\ asks self (fun u => u = base_url self
                           \/ (include_content = true
                               /\ exists n, n ∈ news_list r /\ url n = Some u))
            seg.
Proof.
  destruct (make_request_asks (base_url self) t) as (r0 & s0 & H0 & A0).
  assert (A0' : forall r : crawl_result,
             asks self (fun u => u = base_url self
                                 \/ (include_content = true
                                     /\ exists n, n ∈ news_list r /\ url n = Some u))
                  (NOW :: s0)).
  { intros r. constructor; [exact I|].
    eapply asks_impl; [|exact A0]. intros ? <-. left. reflexivity. }
  unfold crawl_main_page_news, try_except.
  destruct r0 as [e|[text|]].
  - rewrite (bind_inl _ _ _ _ _ H0), create_error_result_returns.
    eexists _, (NOW :: s0). split; [reflexivity|apply A0'].
  - rewrite (bind_inr _ _ _ _ _ H0).
    destruct (index_links self (find_all is_article_link (parse_html text)) [])
      as [e|article_links] eqn:Ei.
    + unfold bind at 1, lift, raise. rewrite create_error_result_returns.
      eexists _, (NOW :: s0). split; [reflexivity|apply A0'].
    + unfold bind at 1, lift, ret at 1.
      destruct (main_cards_quiet article_links (parse_html text) (s0 ++ t))
        as (l1 & s1 & H1 & Q1).
      rewrite (bind_inr _ _ _ _ _ H1).
      destruct (content_rows_quiet article_links (parse_html text) l1 (s1 ++ s0 ++ t))
        as (l2 & s2 & H2 & Q2).
      rewrite (bind_inr _ _ _ _ _ H2).
      destruct include_content.
      * destruct (collect_asks (dedup l2) (s2 ++ s1 ++ s0 ++ t))
          as (out & s3 & H3 & A3 & Hurls).
        rewrite (bind_inr _ _ _ _ _ H3). unfold bind, now, ret.
        eexists _, (NOW :: s3 ++ s2 ++ s1 ++ s0).
        split; [simpl; rewrite <- !app_assoc; reflexivity|]. simpl.
        constructor; [exact I|].
        apply asks_app; [|apply asks_app; [|apply asks_app]].
        -- eapply asks_impl; [|exact A3]. intros u (n & Hn & Hu). right.
           split; [reflexivity|].
           assert (Hin : Some u ∈ url <$> out).
           { rewrite Hurls. apply list_elem_of_fmap. exists n. auto. }
           apply list_elem_of_fmap in Hin as (n' & Hu' & Hn'). eauto.
        -- apply quiet_asks, Q2.
        -- apply quiet_asks, Q1.
        -- eapply asks_impl; [|exact A0]. intros ? <-. left. reflexivity.
      * unfold bind, now, ret.
        eexists _, (NOW :: s2 ++ s1 ++ s0).
        split; [simpl; rewrite <- !app_assoc; reflexivity|]. simpl.
        constructor; [exact I|].
        apply asks_app; [|apply asks_app].
        -- apply quiet_asks, Q2.
        -- apply quiet_asks, Q1.
        -- eapply asks_impl; [|exact A0]. intros ? <-. left. reflexivity.
  - rewrite (bind_inr _ _ _ _ _ H0), create_error_result_returns.
    eexists _, (NOW :: s0). split; [reflexivity|apply A0'].
Qed.

Lemma category_page_asks category_url page all_news t :
  exists r seg,
    category_page self category_url page all_news t = (r, seg ++ t)
    /\ asks self (eq (page_url category_url page)) seg
    /\ (0 < max_retries self
        -> last_request seg = Some (page_url category_url page)).
Proof.
  unfold category_page.
  destruct (make_request_run (page_url category_url page) t)
    as (r0 & s0 & H0 & A0 & L0).
  destruct r0 as [e|[text|]].
  - rewrite (bind_inl _ _ _ _ _ H0). eauto.
  - rewrite (bind_inr _ _ _ _ _ H0).
    destruct (index_links self (find_all is_article_link (parse_html text)) [])
      as [e|article_links].
    + unfold bind at 1, lift, raise. eauto.
    + unfold bind at 1, lift, ret at 1.
      destruct (find_all (is_div_of (py "card")) (parse_html text)) as [|c cs];
        [unfold ret; eauto|].
      destruct (for_each_quiet
                  (fun card all_news =>
                     do news_item <- _extract_news_from_card self card article_links;
                     ret (append_item news_item all_news))
                  (fun x acc t0 => card_quiet append_item article_links x acc t0)
                  (c :: cs) all_news (s0 ++ t))
        as (l1 & s1 & H1 & Q1).
      rewrite (bind_inr _ _ _ _ _ H1). unfold bind, sleep, ret.
      exists (inr (Some l1)), (SLEEP 1 :: s1 ++ s0).
      split; [simpl; rewrite <- app_assoc; reflexivity|]. split.
      * constructor; [exact I|]. apply asks_app; [apply quiet_asks, Q1|exact A0].
      * intros Hm. cbn [last_request]. rewrite last_request_app, (quiet_last _ Q1).
        apply L0, Hm.
  - rewrite (bind_inr _ _ _ _ _ H0). unfold ret. eauto.
Qed.

Lemma category_pages_asks category_url range : forall page all_news t,
  exists r seg,
    category_pages self category_url range page all_news t = (r, seg ++ t)
    /\ asks self (fun u => exists p, p ∈ range /\ u = page_url category_url p) seg.
Proof.
  induction range as [|p rest IH]; intros page all_news t; simpl.
  - exists (inr (page, all_news)), []. split; [reflexivity|constructor].
  - destruct (category_page_asks category_url p all_news t) as (r1 & s1 & H1 & A1 & _).
    assert (A1' : asks self (fun u => exists q, q ∈ p :: rest
                                                /\ u = page_url category_url q) s1).
    { eapply asks_impl; [|exact A1]. intros ? <-.
      exists p. split; [apply list_elem_of_here|reflexivity]. }
    destruct r1 as [e|[all_news'|]].
    + rewrite (bind_inl _ _ _ _ _ H1). eauto.
    + rewrite (bind_inr _ _ _ _ _ H1).
      destruct (IH (Some p) all_news' (s1 ++ t)) as (r2 & s2 & H2 & A2).
      exists r2, (s2 ++ s1). rewrite H2, app_assoc. split; [reflexivity|].
      apply asks_app; [|exact A1'].
      eapply asks_impl; [|exact A2]. intros u (q & Hq & ->).
      exists q. split; [apply list_elem_of_further, Hq|reflexivity].
    + rewrite (bind_inr _ _ _ _ _ H1). unfold ret. eauto.
Qed.

Lemma category_pages_bound category_url range : forall p all_news t r t',
  category_pages self category_url range (Some p) all_news t = (inr r, t') ->
  fst r <> None.
Proof.
  induction range as [|q rest IH]; intros p all_news t r t'; simpl.
  - intros [= <- _]. discriminate.
  - intros H. apply bind_inr_inv in H as ([all_news'|] & t1 & _ & H).
    + eapply IH, H.
    + injection H as <- _. discriminate.
Qed.

(** The loop variable is unbound after the loop only when the loop had no
    turn. *)
Lemma category_pages_unbound category_url range all_news t l t' :
  category_pages self category_url range None all_news t = (inr (None, l), t') ->
  l = all_news /\ t' = t.
Proof.
  destruct range as [|p rest]; simpl.
  - intros [= <- <-]. auto.
  - intros H. apply bind_inr_inv in H as ([all_news'|] & t1 & _ & H).
    + apply category_pages_bound in H. contradiction H. reflexivity.
    + discriminate H.
Qed.

(** X19.  [crawl_category_news] asks for nothing but the pages 1 to
    [max_pages] of the category, the first at the category address itself
    and page [p] at this address followed by [?page=p], and, when the
    contents are collected, the addresses of the records of its result;
    every request bears the timeout of the crawler. *)
Theorem category_requests (category_url : str) (max_pages : Z)
        (include_content : bool) (t : trace) :
  page_url category_url 1 = category_url
  /\ (forall p, 1 < p ->
        page_url category_url p = category_url ++ py "?page=" ++ str_of_nat p)
  /\ exists r seg,
      crawl_category_news self category_url max_pages include_content t
      = (inr r, seg ++ t)
      /\ asks self
              (fun u =>
                 (exists p, 1 <= p /\ (Z.of_nat p <= max_pages)%Z
                            /\ u = page_url category_url p)
                 \/ (include_content = true
                     /\ exists n, n ∈ news_list (crawl r) /\ url n = Some u))
              seg.
Proof.
  split; [reflexivity|]. split.
  { intros p Hp. unfold page_url.
    destruct (1 <? p) eqn:E; [reflexivity|]. apply Nat.ltb_ge in E. lia. }
  destruct (category_pages_asks category_url (seq 1 (Z.to_nat max_pages)) None [] t)
    as (r1 & s1 & H1 & A1).
  assert (A1' : asks self
                      (fun u => exists p, 1 <= p /\ (Z.of_nat p <= max_pages)%Z
                                          /\ u = page_url category_url p) s1).
  { eapply asks_impl; [|exact A1]. intros u (p & Hp & ->).
    apply list_elem_of_In, in_seq in Hp. exists p. split; [lia|]. split; [lia|reflexivity]. }
  assert (Hleft : forall (Q : str -> Prop),
             asks self
                  (fun u =>
                     (exists p, 1 <= p /\ (Z.of_nat p <= max_pages)%Z
                                /\ u = page_url category_url p) \/ Q u) s1).
  { intros Q. eapply asks_impl; [|exact A1']. intros u Hu. left. exact Hu. }
  unfold crawl_category_news, try_except.
  destruct r1 as [e|[page all_news]].
  - rewrite (bind_inl _ _ _ _ _ H1). unfold bind.
    rewrite create_error_result_returns.
    eexists _, (NOW :: s1). split; [reflexivity|].
    constructor; [exact I|apply Hleft].
  - rewrite (bind_inr _ _ _ _ _ H1). cbn [fst snd].
    destruct page as [p|].
    + destruct include_content.
      * destruct (collect_asks (dedup all_news) (s1 ++ t))
          as (out & s3 & H3 & A3 & Hurls).
        rewrite (bind_inr _ _ _ _ _ H3). unfold bind, now, ret.
        eexists _, (NOW :: s3 ++ s1).
        split; [simpl; rewrite <- app_assoc; reflexivity|]. cbn [crawl news_list].
        constructor; [exact I|]. apply asks_app; [|apply Hleft].
        eapply asks_impl; [|exact A3]. intros u (n & Hn & Hu). right.
        split; [reflexivity|].
        assert (Hin : Some u ∈ url <$> out).
        { rewrite Hurls. apply list_elem_of_fmap. exists n. auto. }
        apply list_elem_of_fmap in Hin as (n' & Hu' & Hn'). eauto.
      * unfold bind, now, ret. eexists _, (NOW :: s1). split; [reflexivity|].
        constructor; [exact I|apply Hleft].
    + apply category_pages_unbound in H1 as [-> _].
      assert (Hnone : (do unique_news <-
                         (if include_content
                          then _collect_article_contents self (dedup [])
                          else ret (dedup []));
                       do t0 <- now;
                       raise (A := category_result) (unbound_local (py "page")))
                        (s1 ++ t)
                      = (inl (unbound_local (py "page")), NOW :: s1 ++ t)).
      { destruct include_content; reflexivity. }
      rewrite Hnone. unfold bind. rewrite create_error_result_returns.
      eexists _, (NOW :: NOW :: s1). split; [reflexivity|].
      constructor; [exact I|]. constructor; [exact I|apply Hleft].
Qed.

(** What the loop over the pages [a], [a + 1], ... adds to the trace when
    it ends at page [p]: requests for the pages from [a] to [p] only, the
    latest of them for page [p]. *)
Lemma category_pages_run category_url n : forall a page all_news t,
  exists r seg,
    category_pages self category_url (seq a n) page all_news t = (r, seg ++ t)
    /\ forall pg l, r = inr (pg, l) ->
         (n = 0 /\ pg = page /\ seg = [])
         \/ exists p,
             pg = Some p /\ a <= p < a + n
             /\ asks self (fun u => exists q, a <= q <= p
                                              /\ u = page_url category_url q) seg
             /\ (0 < max_retries self
                 -> last_request seg = Some (page_url category_url p)).
Proof.
  induction n as [|n IH]; intros a page all_news t; cbn [seq category_pages].
  - exists (inr (page, all_news)), []. split; [reflexivity|].
    intros pg l [= <- <-]. left. auto.
  - destruct (category_page_asks category_url a all_news t)
      as (r1 & s1 & H1 & A1 & L1).
    assert (A1' : forall p, a <= p ->
               asks self (fun u => exists q, a <= q <= p
                                             /\ u = page_url category_url q) s1).
    { intros p Hp. eapply asks_impl; [|exact A1]. intros ? <-.
      exists a. split; [lia|reflexivity]. }
    destruct r1 as [e|[all_news'|]].
    + rewrite (bind_inl _ _ _ _ _ H1). eexists _, s1. split; [reflexivity|].
      intros pg l H. discriminate H.
    + rewrite (bind_inr _ _ _ _ _ H1).
      destruct (IH (S a) (Some a) all_news' (s1 ++ t)) as (r2 & s2 & H2 & F2).
      exists r2, (s2 ++ s1). rewrite H2, app_assoc. split; [reflexivity|].
      intros pg l Hr. right.
      destruct (F2 pg l Hr) as [(-> & -> & ->)|(p & -> & Hp & A2 & L2)].
      * exists a. split; [reflexivity|]. split; [lia|]. split; [apply A1'; lia|].
        exact L1.
      * exists p. split; [reflexivity|]. split; [lia|]. split.
        -- apply asks_app; [|apply A1'; lia].
           eapply asks_impl; [|exact A2]. intros u (q & Hq & ->).
           exists q. split; [lia|reflexivity].
        -- intros Hm. rewrite last_request_app, (L2 Hm). reflexivity.
    + rewrite (bind_inr _ _ _ _ _ H1). unfold ret.
      eexists _, s1. split; [reflexivity|].
      intros pg l [= <- <-]. right.
      exists a. split; [reflexivity|]. split; [lia|]. split; [apply A1'; lia|].
      exact L1.
Qed.

(** X15.  [crawl_category_news] raises nothing.  A result that is no
    success carries a message that is not empty, no news and no
    [pages_crawled].  A successful one carries records with pairwise
    distinct titles, none empty, and their number as [total_news]; its
    [pages_crawled] is the number [p] of the last page asked for: the loop
    over the pages ended at page [p], between 1 and [max_pages], having
    sent requests for the pages 1 to [p] only, the latest of them (there is
    one when [max_retries] is not 0) for page [p]; what follows the loop in
    the trace is the content collection, if asked for, and one reading of
    the clock. *)
Theorem category_result_invariants (category_url : str) (max_pages : Z)
        (include_content : bool) (t : trace) :
  exists r t',
    crawl_category_news self category_url max_pages include_content t = (inr r, t')
    /\ ((success (crawl r) = false
         /\ (exists e, error (crawl r) = Some e /\ e ≠ [])
         /\ news_list (crawl r) = []
         /\ pages_crawled r = None)
        \/ (success (crawl r) = true
            /\ NoDup (title <$> news_list (crawl r))
            /\ Forall (fun n => title n ≠ []) (news_list (crawl r))
            /\ total_news (crawl r) = Some (length (news_list (crawl r)))
            /\ exists p all_news seg t2,
                pages_crawled r = Some p
                /\ 1 <= p /\ (Z.of_nat p <= max_pages)%Z
                /\ category_pages self category_url
                                  (seq 1 (Z.to_nat max_pages)) None [] t
                   = (inr (Some p, all_news), seg ++ t)
                /\ asks self (fun u => exists q, 1 <= q <= p
                                                 /\ u = page_url category_url q) seg
                /\ (0 < max_retries self
                    -> last_request seg = Some (page_url category_url p))
                /\ (if include_content
                    then _collect_article_contents self (dedup all_news)
                    else ret (dedup all_news)) (seg ++ t)
                   = (inr (news_list (crawl r)), t2)
                /\ t' = NOW :: t2)).
Proof.
  unfold crawl_category_news, try_except.
  match goal with |- context [match ?c t with _ => _ end] =>
    destruct (c t) as [[e|r0] t0] eqn:Hbody end.
  - unfold bind. rewrite create_error_result_returns.
    eexists _, _. split; [reflexivity|]. left. simpl.
    split; [reflexivity|]. split; [|auto].
    eexists. split; [reflexivity|]. apply category_error_message.
  - exists r0, t0. split; [reflexivity|]. right.
    apply bind_inr_inv in Hbody as ([page all_news] & t1 & Hpages & Hbody).
    destruct (category_pages_run category_url (Z.to_nat max_pages) 1 None [] t)
      as (r1 & seg & H1 & Hfacts).
    rewrite Hpages in H1. injection H1 as <- ->.
    specialize (Hfacts page all_news eq_refl).
    pose proof (category_pages_spec self _ _ _ _ _ _ _ (Forall_nil_2 _) Hpages)
      as [Hl _].
    simpl in Hl, Hbody.
    assert (Hu : exists unique_news t2,
               (if include_content
                then _collect_article_contents self (dedup all_news)
                else ret (dedup all_news)) (seg ++ t) = (inr unique_news, t2)
               /\ title <$> unique_news = title <$> dedup all_news).
    { destruct include_content.
      - apply collect_same_titles.
      - eexists _, _. split; reflexivity. }
    destruct Hu as (unique_news & t2 & Hrun & Ht).
    rewrite (bind_inr _ _ _ _ _ Hrun) in Hbody.
    unfold bind, now in Hbody.
    destruct page as [p|]; [|discriminate].
    injection Hbody as <- <-. simpl.
    split; [reflexivity|]. split; [rewrite Ht; apply dedup_NoDup|].
    split; [eapply titled_fmap; [exact Ht|apply dedup_all, Hl]|].
    split; [reflexivity|].
    destruct Hfacts as [(_ & Hp & _)|(q & [= <-] & Hq & Hasks & Hlast)];
      [discriminate|].
    exists p, all_news, seg, t2.
    split; [reflexivity|]. split; [lia|]. split; [lia|].
    split; [exact Hpages|]. split; [exact Hasks|]. split; [exact Hlast|].
    split; [exact Hrun|reflexivity].
Qed.

End Footprint.

Lemma category_requests_witness :
  page_url (py "https://www.itworld.co.kr/ai") 2
  = py "https://www.itworld.co.kr/ai?page=2".
Proof.
  destruct (@category_requests basic_tables no_library offline python311
              (ITWorldNewsCrawler 15 3) (py "https://www.itworld.co.kr/ai")
              3 false []) as (_ & H & _).
  rewrite H by lia. vm_compute. reflexivity.
Defined.

(** Two pages of a site that answers: the loop ends at page 2, and its
    latest request is for that page. *)
Lemma category_result_invariants_witness :
  last_request
    (snd (@category_pages basic_tables demo_library online
            (ITWorldNewsCrawler 15 3) (py "https://www.itworld.co.kr/ai")
            (seq 1 (Z.to_nat 2)) None [] []))
  = Some (py "https://www.itworld.co.kr/ai?page=2").
Proof.
  destruct (@category_result_invariants basic_tables demo_library online python311
              (ITWorldNewsCrawler 15 3) (py "https://www.itworld.co.kr/ai")
              2 false [])
    as (r & t' & Hrun & [(Hs & _)|(_ & _ & _ & _ & p & all_news & seg & t2
                                   & _ & _ & _ & Hpages & _ & Hlast & _)]).
  - vm_compute in Hrun. injection Hrun as <- _. discriminate Hs.
  - rewrite Hpages. cbn [snd]. rewrite app_nil_r, Hlast by (simpl; lia).
    vm_compute in Hpages. injection Hpages as <- _ _.
    vm_compute. reflexivity.
Defined.

(** ** The dates of the records *)

Lemma digit_bounds c : digit c = true -> (48 <= c <= 57)%N.
Proof.
  unfold digit, between. intros H.
  apply andb_true_iff in H as [H1 H2].
  apply N.leb_le in H1, H2. lia.
Qed.

(** Padding one or two digits to two. *)
Lemma zfill_two s :
  (length s = 1 \/ length s = 2) -> forallb digit s = true ->
  exists p q,
    zfill 2 s = [p; q]
    /\ (48 <= p <= 57)%N /\ (48 <= q <= 57)%N
    /\ number s = (10 * (p - 48) + (q - 48))%N.
Proof.
  intros Hl Hd.
  destruct s as [|a [|b [|c s]]]; simpl in Hl; try lia.
  - simpl in Hd. apply andb_true_iff in Hd as [Ha _].
    apply digit_bounds in Ha.
    exists 48%N, a. unfold zfill. simpl.
    replace (a =? 43)%N with false by (symmetry; apply N.eqb_neq; lia).
    replace (a =? 45)%N with false by (symmetry; apply N.eqb_neq; lia).
    simpl. split; [reflexivity|]. unfold number. simpl. lia.
  - simpl in Hd. apply andb_true_iff in Hd as [Ha Hd].
    apply andb_true_iff in Hd as [Hb _].
    apply digit_bounds in Ha, Hb.
    exists a, b. unfold zfill. simpl.
    replace (a =? 43)%N with false by (symmetry; apply N.eqb_neq; lia).
    replace (a =? 45)%N with false by (symmetry; apply N.eqb_neq; lia).
    simpl. split; [reflexivity|]. unfold number. simpl. lia.
Qed.

Lemma four_digits s :
  length s = 4 -> forallb digit s = true ->
  exists a b c d,
    s = [a; b; c; d]
    /\ (48 <= a <= 57)%N /\ (48 <= b <= 57)%N
    /\ (48 <= c <= 57)%N /\ (48 <= d <= 57)%N
    /\ number s
       = (1000 * (a - 48) + 100 * (b - 48) + 10 * (c - 48) + (d - 48))%N.
Proof.
  intros Hl Hd.
  destruct s as [|a [|b [|c [|d [|e s]]]]]; simpl in Hl; try lia.
  simpl in Hd. repeat (apply andb_true_iff in Hd as [?%digit_bounds Hd]).
  exists a, b, c, d. split; [reflexivity|]. unfold number. simpl. lia.
Qed.

Lemma format_date_shape g :
  ascii_date g ->
  exists a b c d p q r s,
    format_date g = [a; b; c; d; 45; p; q; 45; r; s]%N
    /\ ((48 <= a <= 57) /\ (48 <= b <= 57) /\ (48 <= c <= 57) /\ (48 <= d <= 57)
        /\ (48 <= p <= 57) /\ (48 <= q <= 57)
        /\ (48 <= r <= 57) /\ (48 <= s <= 57))%N
    /\ calendar g
       = (1000 * (a - 48) + 100 * (b - 48) + 10 * (c - 48) + (d - 48),
          10 * (p - 48) + (q - 48),
          10 * (r - 48) + (s - 48))%N.
Proof.
  destruct g as [[y m] d]. intros (Hy & Hm & Hd & Hall).
  rewrite !forallb_app in Hall.
  apply andb_true_iff in Hall as [Hdy Hall].
  apply andb_true_iff in Hall as [Hdm Hdd].
  destruct (four_digits y Hy Hdy) as (a & b & c & e & -> & Ha & Hb & Hc & He & Hny).
  destruct (zfill_two m Hm Hdm) as (p & q & Hzm & Hp & Hq & Hnm).
  destruct (zfill_two d Hd Hdd) as (r & s & Hzd & Hr & Hs & Hnd).
  exists a, b, c, e, p, q, r, s. unfold format_date. rewrite Hzm, Hzd.
  split; [reflexivity|]. split; [tauto|].
  unfold calendar. rewrite Hny, Hnm, Hnd. reflexivity.
Qed.

Lemma str_ltb_cons x a y b :
  str_ltb (x :: a) (y :: b) = true
  <-> (x < y)%N \/ (x = y /\ str_ltb a b = true).
Proof.
  simpl. rewrite orb_true_iff, andb_true_iff, N.ltb_lt, N.eqb_eq. tauto.
Qed.

Lemma two_digits_order (p q p' q' : N) (R : Prop) :
  (48 <= p <= 57)%N -> (48 <= q <= 57)%N ->
  (48 <= p' <= 57)%N -> (48 <= q' <= 57)%N ->
  ((p < p')%N \/ (p = p' /\ ((q < q')%N \/ (q = q' /\ R))))
  <-> ((10 * (p - 48) + (q - 48) < 10 * (p' - 48) + (q' - 48))%N
       \/ ((10 * (p - 48) + (q - 48) = 10 * (p' - 48) + (q' - 48))%N /\ R)).
Proof.
  intros Hp Hq Hp' Hq'.
  assert (Hlt : ((p < p')%N \/ (p = p' /\ (q < q')%N))
                <-> (10 * (p - 48) + (q - 48) < 10 * (p' - 48) + (q' - 48))%N)
    by lia.
  assert (Heq : (p = p' /\ q = q')
                <-> (10 * (p - 48) + (q - 48) = 10 * (p' - 48) + (q' - 48))%N)
    by lia.
  tauto.
Qed.

Lemma pair_order (x y x' y' : N) (R : Prop) :
  (y < 100)%N -> (y' < 100)%N ->
  ((x < x')%N \/ (x = x' /\ ((y < y')%N \/ (y = y' /\ R))))
  <-> ((100 * x + y < 100 * x' + y')%N
       \/ ((100 * x + y = 100 * x' + y')%N /\ R)).
Proof.
  intros Hy Hy'.
  assert (Hlt : ((x < x')%N \/ (x = x' /\ (y < y')%N))
                <-> (100 * x + y < 100 * x' + y')%N) by lia.
  assert (Heq : (x = x' /\ y = y') <-> (100 * x + y = 100 * x' + y')%N) by lia.
  tauto.
Qed.

Lemma four_digits_order (a b c d a' b' c' d' : N) (R : Prop) :
  (48 <= a <= 57)%N -> (48 <= b <= 57)%N ->
  (48 <= c <= 57)%N -> (48 <= d <= 57)%N ->
  (48 <= a' <= 57)%N -> (48 <= b' <= 57)%N ->
  (48 <= c' <= 57)%N -> (48 <= d' <= 57)%N ->
  ((a < a')%N \/ (a = a' /\ ((b < b')%N \/ (b = b' /\
     ((c < c')%N \/ (c = c' /\ ((d < d')%N \/ (d = d' /\ R))))))))
  <-> ((1000 * (a - 48) + 100 * (b - 48) + 10 * (c - 48) + (d - 48)
        < 1000 * (a' - 48) + 100 * (b' - 48) + 10 * (c' - 48) + (d' - 48))%N
       \/ ((1000 * (a - 48) + 100 * (b - 48) + 10 * (c - 48) + (d - 48)
            = 1000 * (a' - 48) + 100 * (b' - 48) + 10 * (c' - 48) + (d' - 48))%N
           /\ R)).
Proof.
  intros Ha Hb Hc Hd Ha' Hb' Hc' Hd'.
  rewrite (two_digits_order c d c' d' R) by assumption.
  rewrite (two_digits_order a b a' b') by assumption.
  rewrite pair_order by lia.
  replace (1000 * (a - 48) + 100 * (b - 48) + 10 * (c - 48) + (d - 48))%N
    with (100 * (10 * (a - 48) + (b - 48)) + (10 * (c - 48) + (d - 48)))%N by lia.
  replace (1000 * (a' - 48) + 100 * (b' - 48) + 10 * (c' - 48) + (d' - 48))%N
    with (100 * (10 * (a' - 48) + (b' - 48)) + (10 * (c' - 48) + (d' - 48)))%N by lia.
  reflexivity.
Qed.

Lemma dash_order (R : Prop) : ((45 < 45)%N \/ (45%N = 45%N /\ R)) <-> R.
Proof. split; [intros [H|[_ H]]; [lia|exact H]|auto]. Qed.

(** X20.  A date that the extractor writes from ASCII digits has the ten
    characters of [YYYY-MM-DD], month and day padded with a zero; on such
    dates the order of the strings, by which [_generate_summary] picks
    [latest_date], is the order of the calendar. *)
Theorem format_date_chronological (g1 g2 : str * str * str) :
  ascii_date g1 -> ascii_date g2 ->
  length (format_date g1) = 10
  /\ (str_ltb (format_date g1) (format_date g2) = true
      <-> before (calendar g1) (calendar g2)).
Proof.
  intros H1 H2.
  destruct (format_date_shape g1 H1)
    as (a1 & b1 & c1 & d1 & p1 & q1 & r1 & s1 & -> & Hb1 & ->).
  destruct (format_date_shape g2 H2)
    as (a2 & b2 & c2 & d2 & p2 & q2 & r2 & s2 & -> & Hb2 & ->).
  split; [reflexivity|].
  destruct Hb1 as (? & ? & ? & ? & ? & ? & ? & ?).
  destruct Hb2 as (? & ? & ? & ? & ? & ? & ? & ?).
  rewrite !str_ltb_cons. unfold before.
  change (str_ltb [] [] = true) with (false = true).
  rewrite four_digits_order by assumption.
  rewrite dash_order.
  rewrite (two_digits_order p1 q1 p2 q2) by assumption.
  rewrite dash_order.
  rewrite (two_digits_order r1 s1 r2 s2) by assumption.
  intuition discriminate.
Qed.

Lemma format_date_chronological_witness :
  str_ltb (format_date (py "2024", py "3", py "1"))
          (format_date (py "2024", py "12", py "25")) = true
  /\ format_date (py "2024", py "3", py "1") = py "2024-03-01".
Proof.
  split; [|reflexivity].
  apply (format_date_chronological (py "2024", py "3", py "1")
                                   (py "2024", py "12", py "25")).
  - vm_compute. auto.
  - vm_compute. auto.
  - right. split; [reflexivity|]. left. reflexivity.
Defined.

(** ** Date and reading time of a card *)

Section Info.
Context {U : Unicode} {L : Library}.

Lemma read_info_keys text acc :
  i_publish_date (read_info text acc)
  = match search_date text with
    | Some g => Some (format_date g)
    | None => i_publish_date acc
    end
  /\ i_read_time (read_info text acc)
     = match search_read_time text with
       | Some g => Some g
       | None => i_read_time acc
       end.
Proof.
  unfold read_info.
  destruct (search_date text), (search_read_time text), (contains text (py "By")),
    (search_author text); split; reflexivity.
Qed.

Lemma omap_cons_match {A B} (f : A -> option B) x l :
  omap f (x :: l)
  = match f x with Some y => y :: omap f l | None => omap f l end.
Proof. reflexivity. Qed.

Lemma fold_read_info texts : forall acc,
  i_publish_date (fold_left (fun acc x => read_info x acc) texts acc)
  = match last (omap search_date texts) with
    | Some g => Some (format_date g)
    | None => i_publish_date acc
    end
  /\ i_read_time (fold_left (fun acc x => read_info x acc) texts acc)
     = match last (omap search_read_time texts) with
       | Some g => Some g
       | None => i_read_time acc
       end.
Proof.
  induction texts as [|x texts IH]; intros acc; [split; reflexivity|].
  cbn [fold_left].
  destruct (IH (read_info x acc)) as [-> ->]. clear IH.
  destruct (read_info_keys x acc) as [-> ->].
  rewrite !omap_cons_match.
  split.
  - destruct (search_date x) as [g|]; [|reflexivity].
    rewrite last_cons. destruct (last (omap search_date texts)); reflexivity.
  - destruct (search_read_time x) as [g|]; [|reflexivity].
    rewrite last_cons. destruct (last (omap search_read_time texts)); reflexivity.
Qed.

Lemma format_date_truthy g : truthy (format_date g) = true.
Proof.
  destruct g as [[y m] d]. unfold format_date.
  destruct y; reflexivity.
Qed.

(** X21.  The date of a card is the last date found in the texts of its
    info elements, written as [YYYY-MM-DD]; only when none of them holds a
    date is the date searched in the whole text of the card.  The reading
    time is the last one found in the info elements, and is never searched
    in the text of the card. *)
Theorem info_last_wins (card : node) :
  i_publish_date (extract_info card)
  = match last (omap search_date (info_texts card)) with
    | Some g => Some (format_date g)
    | None => format_date <$> search_date (get_text card)
    end
  /\ i_read_time (extract_info card)
     = last (omap search_read_time (info_texts card)).
Proof.
  unfold extract_info, info_texts.
  set (init := {| i_publish_date := None; i_read_time := None; i_author := None |}).
  assert (Hfold : fold_left (fun acc e => read_info (get_text_strip e) acc)
                            (find_all is_info card) init
                  = fold_left (fun acc x => read_info x acc)
                              (map get_text_strip (find_all is_info card)) init).
  { generalize init. induction (find_all is_info card) as [|e es IH];
      intros acc; simpl; [reflexivity|apply IH]. }
  rewrite Hfold. clear Hfold.
  destruct (fold_read_info (map get_text_strip (find_all is_info card)) init)
    as [Hd Ht].
  set (acc := fold_left _ _ init) in *.
  assert (Htime : i_read_time acc
                  = last (omap search_read_time
                               (map get_text_strip (find_all is_info card)))).
  { rewrite Ht. destruct (last (omap search_read_time _)); reflexivity. }
  clear Ht. split.
  - destruct (last (omap search_date _)) as [g|]; simpl in Hd; rewrite Hd; simpl.
    + rewrite format_date_truthy. simpl.
      destruct (truthy_opt (i_author acc)); simpl; [exact Hd|].
      destruct (search_author (get_text card)); simpl; exact Hd.
    + destruct (search_date (get_text card)) as [g|]; simpl;
        destruct (truthy_opt (i_author acc)); simpl; auto;
          destruct (search_author (get_text card)); simpl; auto.
  - rewrite <- Htime.
    destruct (negb (truthy_opt (i_publish_date acc))); simpl.
    + destruct (search_date (get_text card)); simpl;
        destruct (negb (truthy_opt (i_author acc))); simpl; auto;
          destruct (search_author (get_text card)); reflexivity.
    + destruct (negb (truthy_opt (i_author acc))); simpl; auto.
      destruct (search_author (get_text card)); reflexivity.
Qed.

End Info.
